(** * trading_agent: indicator engine, signal engine and watchlist scan

    A shallow embedding of [backend/server.py] and the properties its
    specification states about it.

    Numbers.  A finite Python float is embedded as the rational it denotes
    ([Q]); [round(x, 2)] is rounding to the nearest hundredth, ties to the
    even hundredth.  The non-finite values numpy produces without raising
    (nan from the mean of an empty slice, nan or an infinity from a zero
    divisor) are the other constructors of [np.float64].

    There are two arithmetics.  [Py], [np], [IndicatorCalculator] and
    [TradingEngine] compute with exact rationals: they are used for the
    properties that rest on comparisons, signs and the order of the
    calls, and where a property needs the doubles of the code to stay
    finite or leaves room for their rounding error, its statement carries
    the bound on the inputs and the allowance.  [Binary64] rounds every
    operation to the nearest double and overflows to an infinity; the
    pivot levels are modelled in it as well, because their symmetry is a
    statement about equal differences, which rounding decides.  The sign
    of a zero is not kept.

    Exceptions.  A Python exception is a value of [pyexc]; code that may
    raise returns a [pyresult].  All of them derive from [Exception], which
    is what the handlers of the endpoints catch.

    Effects.  The endpoints run in the monad [M]: they thread the state of
    the outside world and a trace of the calls made to the external
    services, and may raise.  Wall-clock timestamps are left out of the
    records. *)

From Stdlib Require Import QArith Qround Qabs Qpower Lqa Lia ZArith List String Bool.
From Stdlib Require Import DecimalString.
From ExtLib Require Import Structures.Monad Structures.MonadExc.
Import ListNotations MonadNotation.

Open Scope Q_scope.
Open Scope monad_scope.

(** ** Exceptions *)

(** [detail=str(e)] is kept symbolic: [Str e]. *)
Inductive pyexc : Type :=
| IndexError
| ZeroDivisionError
| ServiceError (msg : string)
| HTTPException (status_code : nat) (detail : pydetail)
with pydetail : Type :=
| Text (s : string)
| Str (e : pyexc).

Inductive pyresult (A : Type) : Type :=
| Ok (a : A)
| Raise (e : pyexc).

Arguments Ok {A} a.
Arguments Raise {A} e.

#[global] Instance Monad_pyresult : Monad pyresult :=
  {| ret := fun _ a => Ok a;
     bind := fun _ _ m k => match m with Ok a => k a | Raise e => Raise e end |}.

#[global] Instance Exc_pyresult : MonadExc pyexc pyresult :=
  {| raise := fun _ e => Raise e;
     catch := fun _ m h => match m with Ok a => Ok a | Raise e => h e end |}.

(** ** Python builtins *)

Module Py.

(** [x < y] and [x > y] *)
Definition lt (x y : Q) : bool := negb (Qle_bool y x).

Definition gt (x y : Q) : bool := lt y x.

Definition len {A : Type} (l : list A) : Z := Z.of_nat (List.length l).

(** Nearest integer, ties to even. *)
Definition round_half_even (x : Q) : Z :=
  let f := Qfloor x in
  match Qcompare (x - inject_Z f) (1 # 2) with
  | Lt => f
  | Gt => (f + 1)%Z
  | Eq => if Z.even f then f else (f + 1)%Z
  end.

(** [round(x, 2)] *)
Definition round2 (x : Q) : Q := round_half_even (x * 100) # 100.

(** [str] of a non-negative integer. *)
Definition dec (z : Z) : string := NilZero.string_of_uint (N.to_uint (Z.to_N z)).

Definition two_digits (z : Z) : string :=
  if (z <? 10)%Z then ("0" ++ dec z)%string else dec z.

(** The format spec [:.2f]. *)
Definition format_2f (x : Q) : string :=
  let c := round_half_even (Qabs x * 100) in
  ((if lt x 0 then "-" else "") ++ dec (c / 100) ++ "." ++ two_digits (c mod 100))%string.

(** [l[:k]]: a negative [k] counts from the end, and the bounds are clipped. *)
Definition slice_to {A : Type} (l : list A) (k : Z) : list A :=
  firstn (Z.to_nat (if (k <? 0)%Z then len l + k else k)) l.

(** [l[i]]: a negative [i] counts from the end; out of range raises. *)
Definition index {A : Type} (l : list A) (i : Z) : pyresult A :=
  let j := if (i <? 0)%Z then (len l + i)%Z else i in
  if (j <? 0)%Z then Raise IndexError
  else match nth_error l (Z.to_nat j) with
       | Some a => Ok a
       | None => Raise IndexError
       end.

(** [range(a, b)] *)
Definition range (a b : Z) : list Z :=
  map (fun k => (a + Z.of_nat k)%Z) (seq 0 (Z.to_nat (b - a))).

Definition sum (l : list Q) : Q := fold_left Qplus l 0.

(** [a / b] on floats. *)
Definition truediv (a b : Q) : pyresult Q :=
  if Qeq_bool b 0 then Raise ZeroDivisionError else Ok (a / b).

End Py.

(** A value with at most two decimals is one that [round(., 2)] leaves alone. *)
Definition two_decimals (x : Q) : Prop := Py.round2 x == x.

(** ** numpy

    What a [np.float64] holds here: a finite value or one of the three
    non-finite ones.  Its arithmetic never raises; a zero divisor gives an
    infinity of the dividend's sign, or nan for [0/0]. *)

Module np.

Inductive float64 : Type :=
| Fin (q : Q)
| PInf
| NInf
| NaN.

Definition of_int (z : Z) : float64 := Fin (inject_Z z).

Definition neg (x : float64) : float64 :=
  match x with
  | Fin a => Fin (- a)
  | PInf => NInf
  | NInf => PInf
  | NaN => NaN
  end.

Definition add (x y : float64) : float64 :=
  match x, y with
  | NaN, _ | _, NaN => NaN
  | Fin a, Fin b => Fin (a + b)
  | PInf, NInf | NInf, PInf => NaN
  | PInf, _ | _, PInf => PInf
  | NInf, _ | _, NInf => NInf
  end.

Definition sub (x y : float64) : float64 := add x (neg y).

(** An infinity times a finite [b]. *)
Definition inf_times (positive : bool) (b : Q) : float64 :=
  if Py.lt 0 b then (if positive then PInf else NInf)
  else if Py.lt b 0 then (if positive then NInf else PInf)
  else NaN.

Definition mul (x y : float64) : float64 :=
  match x, y with
  | NaN, _ | _, NaN => NaN
  | Fin a, Fin b => Fin (a * b)
  | PInf, Fin b | Fin b, PInf => inf_times true b
  | NInf, Fin b | Fin b, NInf => inf_times false b
  | PInf, PInf | NInf, NInf => PInf
  | PInf, NInf | NInf, PInf => NInf
  end.

Definition div (x y : float64) : float64 :=
  match x, y with
  | NaN, _ | _, NaN => NaN
  | Fin a, Fin b =>
      if Qeq_bool b 0 then
        (if Py.lt 0 a then PInf else if Py.lt a 0 then NInf else NaN)
      else Fin (a / b)
  | Fin _, (PInf | NInf) => Fin 0
  | PInf, Fin b => if Py.lt b 0 then NInf else PInf
  | NInf, Fin b => if Py.lt b 0 then PInf else NInf
  | (PInf | NInf), (PInf | NInf) => NaN
  end.

(** [x == 0] *)
Definition is_zero (x : float64) : bool :=
  match x with
  | Fin a => Qeq_bool a 0
  | _ => false
  end.

(** [round(x, 2)] on a numpy scalar. *)
Definition round2 (x : float64) : float64 :=
  match x with
  | Fin a => Fin (Py.round2 a)
  | _ => x
  end.

(** [np.diff] *)
Fixpoint diff (l : list Q) : list Q :=
  match l with
  | x :: (y :: _) as t => (y - x) :: diff t
  | _ => []
  end.

(** [np.mean]: nan on an empty array. *)
Definition mean (l : list Q) : float64 :=
  div (Fin (Py.sum l)) (of_int (Py.len l)).

End np.

(** ** Models *)

Module WatchlistItem.
Record t : Type := mk {
  symbol : string;
  instrument_token : string }.
End WatchlistItem.

Module WatchlistRequest.
Record t : Type := mk {
  symbols : list string;
  action : string }.
End WatchlistRequest.

Module IndicatorData.
Record t : Type := mk {
  symbol : string;
  rsi : Q;
  vwap : Q;
  pivot : Q;
  bc : Q;
  tc : Q;
  ltp : Q }.
End IndicatorData.

Module SignalRequest.
Record t : Type := mk {
  symbol : string }.
End SignalRequest.

Module SignalResponse.
Record t : Type := mk {
  symbol : string;
  signal : string;
  entry_price : Q;
  target : Q;
  stop_loss : Q;
  notes : string }.
End SignalResponse.

Module LogRequest.
Record t : Type := mk {
  symbol : string;
  signal : string;
  entry_price : Q;
  target : Q;
  stop_loss : Q;
  live_price : Q;
  status : string;
  notes : string }.
End LogRequest.

Module AlertRequest.
Record t : Type := mk {
  symbol : string;
  signal : string;
  price : Q;
  target : Q;
  stop_loss : Q;
  notes : string }.
End AlertRequest.

(** The dict [generate_signal] reads, with its five keys. *)
Module Indicators.
Record t : Type := mk {
  rsi : Q;
  vwap : Q;
  ltp : Q;
  tc : Q;
  bc : Q }.
End Indicators.

(** The dict [generate_signal] returns. *)
Module SignalData.
Record t : Type := mk {
  signal : string;
  entry_price : Q;
  target : Q;
  stop_loss : Q;
  notes : string }.
End SignalData.

(** The dict [calculate_cpr] returns. *)
Module CPR.
Record t : Type := mk {
  pivot : Q;
  bc : Q;
  tc : Q }.
End CPR.

(** ** IndicatorCalculator *)

Module IndicatorCalculator.

(** One smoothing update, [(avg * (period - 1) + x) / period]. *)
Definition smooth (period : Z) (avg : np.float64) (x : Q) : np.float64 :=
  np.div (np.add (np.mul avg (np.of_int (period - 1))) (np.Fin x)) (np.of_int period).

(** One turn of the loop over [range(period, len(deltas))]. *)
Definition rsi_step (period : Z) (gains losses : list Q)
    (acc : pyresult (np.float64 * np.float64)) (i : Z) : pyresult (np.float64 * np.float64) :=
  avgs <- acc ;;
  g <- Py.index gains i ;;
  l <- Py.index losses i ;;
  ret (smooth period (fst avgs) g, smooth period (snd avgs) l).

Definition calculate_rsi (prices : list Q) (period : Z) : pyresult np.float64 :=
  if (Py.len prices <? period + 1)%Z then ret (np.Fin 50)
  else
    let deltas := np.diff prices in
    let gains := map (fun d => if Py.gt d 0 then d else 0) deltas in
    let losses := map (fun d => if Py.lt d 0 then - d else 0) deltas in
    let avg_gain := np.mean (Py.slice_to gains period) in
    let avg_loss := np.mean (Py.slice_to losses period) in
    avgs <- fold_left (rsi_step period gains losses)
              (Py.range period (Py.len deltas)) (Ok (avg_gain, avg_loss)) ;;
    let avg_gain := fst avgs in
    let avg_loss := snd avgs in
    if np.is_zero avg_loss then ret (np.Fin 100)
    else
      let rs := np.div avg_gain avg_loss in
      let rsi := np.sub (np.of_int 100) (np.div (np.of_int 100) (np.add (np.of_int 1) rs)) in
      ret (np.round2 rsi).

Definition calculate_vwap (prices volumes : list Q) : pyresult Q :=
  if negb (Py.len prices =? Py.len volumes)%Z || (Py.len prices =? 0)%Z then ret 0
  else
    let price_volume := map (fun pv => fst pv * snd pv) (combine prices volumes) in
    q <- Py.truediv (Py.sum price_volume) (Py.sum volumes) ;;
    ret (Py.round2 q).

Definition calculate_cpr (high low close : Q) : CPR.t :=
  let pivot := (high + low + close) / 3 in
  let bc := (high + low) / 2 in
  let tc := (pivot - bc) + pivot in
  {| CPR.pivot := Py.round2 pivot;
     CPR.bc := Py.round2 bc;
     CPR.tc := Py.round2 tc |}.

End IndicatorCalculator.

(** What [calculate_rsi] does with the averages the loop leaves. *)
Definition rsi_of_averages (avgs : np.float64 * np.float64) : pyresult np.float64 :=
  if np.is_zero (snd avgs) then Ok (np.Fin 100)
  else Ok (np.round2
             (np.sub (np.of_int 100)
                (np.div (np.of_int 100)
                   (np.add (np.of_int 1) (np.div (fst avgs) (snd avgs)))))).

(** A finite average that satisfies [P]. *)
Definition finite (P : Q -> Prop) (x : np.float64) : Prop :=
  exists q, x = np.Fin q /\ P q.

(** Each price is below the next. *)
Fixpoint strictly_increasing (prices : list Q) : Prop :=
  match prices with
  | x :: (y :: _) as t => x < y /\ strictly_increasing t
  | _ => True
  end.

(** A magnitude far below the top of the binary64 range (about 1.8e308):
    the differences, the sums over a Python list and the products with small
    constants that the code forms from such values are all finite doubles.
    The rationals of the model need no such bound; the doubles of the code
    do. *)
Definition moderate (x : Q) : Prop := Qabs x <= 10 ^ 100.

(** ** binary64

    The arithmetic of a Python float: every operation returns the double
    nearest to its exact result, ties to the even significand, and an
    infinity once that is 2^1024 or more in magnitude.  A double is embedded
    as the rational it denotes; the sign of a zero is not kept. *)

Module Binary64.

(** 2^e *)
Definition pow2 (e : Z) : Q := Qpower 2 e.

(** The exponent e with 2^e <= |q| < 2^(e+1), for q not zero. *)
Definition binade (q : Q) : Z :=
  let e := (Z.log2 (Z.abs (Qnum q)) - Z.log2 (Zpos (Qden q)))%Z in
  if Qle_bool (pow2 e) (Qabs q) then e else (e - 1)%Z.

(** The distance between the doubles around q: 53 significant bits in the
    normal range, 2^-1074 below it. *)
Definition ulp (q : Q) : Q := pow2 (Z.max (binade q) (-1022) - 52).

(** Rounding to nearest, ties to even, the exponent not bounded above. *)
Definition nearest (q : Q) : Q :=
  if Qeq_bool q 0 then 0
  else Qred (inject_Z (Py.round_half_even (q / ulp q)) * ulp q).

Definition float : Type := np.float64.

(** The double an operation returns when its exact result is [x]. *)
Definition rnd (x : float) : float :=
  match x with
  | np.Fin q =>
      let r := nearest q in
      if Qle_bool (pow2 1024) (Qabs r) then (if Py.lt 0 q then np.PInf else np.NInf)
      else np.Fin r
  | _ => x
  end.

(** The double a decimal literal denotes, or a number handed in as a float. *)
Definition of_Q (q : Q) : float := rnd (np.Fin q).

Definition add (x y : float) : float := rnd (np.add x y).

Definition sub (x y : float) : float := rnd (np.sub x y).

(** [x / y] for a divisor that is not zero (Python raises on a zero one). *)
Definition div (x y : float) : float := rnd (np.div x y).

(** [round(x, 2)]: the double nearest to [x] rounded to two decimals. *)
Definition round2 (x : float) : float := rnd (np.round2 x).

(** The dict [calculate_cpr] returns. *)
Module CPR.
Record t : Type := mk {
  pivot : float;
  bc : float;
  tc : float }.
End CPR.

Module IndicatorCalculator.

Definition calculate_cpr (high low close : float) : CPR.t :=
  let pivot := div (add (add high low) close) (np.of_int 3) in
  let bc := div (add high low) (np.of_int 2) in
  let tc := add (sub pivot bc) pivot in
  {| CPR.pivot := round2 pivot;
     CPR.bc := round2 bc;
     CPR.tc := round2 tc |}.

End IndicatorCalculator.

End Binary64.

(** ** TradingEngine *)

Module TradingEngine.

Definition generate_signal (indicators : Indicators.t) : SignalData.t :=
  let rsi := Indicators.rsi indicators in
  let vwap := Indicators.vwap indicators in
  let price := Indicators.ltp indicators in
  let tc := Indicators.tc indicators in
  let bc := Indicators.bc indicators in
  let '(signal, notes) :=
    if Py.lt rsi 30 && Py.gt price vwap && Py.gt price tc then
      ("BUY", "RSI oversold (" ++ Py.format_2f rsi ++ "), price above VWAP and TC")%string
    else if Py.gt rsi 70 && Py.lt price vwap && Py.lt price bc then
      ("SELL", "RSI overbought (" ++ Py.format_2f rsi ++ "), price below VWAP and BC")%string
    else ("HOLD", "No clear signal")%string in
  let '(target, stop_loss) :=
    if String.eqb signal "BUY" then
      (Py.round2 (price * 1.01), Py.round2 (price * 0.995))
    else if String.eqb signal "SELL" then
      (Py.round2 (price * 0.99), Py.round2 (price * 1.005))
    else (price, price) in
  {| SignalData.signal := signal;
     SignalData.entry_price := price;
     SignalData.target := target;
     SignalData.stop_loss := stop_loss;
     SignalData.notes := notes |}.

End TradingEngine.

(** The two rules of the decision table, in the specification's words. *)
Definition buy_rule (i : Indicators.t) : bool :=
  Py.lt (Indicators.rsi i) 30
  && Py.gt (Indicators.ltp i) (Indicators.vwap i)
  && Py.gt (Indicators.ltp i) (Indicators.tc i).

Definition sell_rule (i : Indicators.t) : bool :=
  Py.gt (Indicators.rsi i) 70
  && Py.lt (Indicators.ltp i) (Indicators.vwap i)
  && Py.lt (Indicators.ltp i) (Indicators.bc i).

(** The decision table as the specification words it (section 4.2): signal,
    target and stop loss; the first rule that matches wins. *)
Definition decide (i : Indicators.t) : string * Q * Q :=
  let price := Indicators.ltp i in
  if buy_rule i then
    ("BUY"%string, Py.round2 (price * 1.01), Py.round2 (price * 0.995))
  else if sell_rule i then
    ("SELL"%string, Py.round2 (price * 0.99), Py.round2 (price * 1.005))
  else ("HOLD"%string, price, price).

(** ** The watchlist *)

Definition DEFAULT_WATCHLIST : list WatchlistItem.t :=
  [ WatchlistItem.mk "RELIANCE" "2885";
    WatchlistItem.mk "TCS" "11536";
    WatchlistItem.mk "INFY" "1594";
    WatchlistItem.mk "HDFCBANK" "1333";
    WatchlistItem.mk "ICICIBANK" "4963" ].

(** [any(item['symbol'] == symbol for item in watchlist_storage)] *)
Definition has_symbol (watchlist_storage : list WatchlistItem.t) (symbol : string) : bool :=
  existsb (fun item => String.eqb (WatchlistItem.symbol item) symbol) watchlist_storage.

(** [symbol in symbols] *)
Definition mem (symbol : string) (symbols : list string) : bool :=
  existsb (String.eqb symbol) symbols.

(** One turn of the loop of the "add" branch. *)
Definition add_symbol (watchlist_storage : list WatchlistItem.t) (symbol : string)
    : list WatchlistItem.t :=
  if negb (has_symbol watchlist_storage symbol) then
    watchlist_storage ++ [WatchlistItem.mk symbol ("dummy_" ++ symbol)]
  else watchlist_storage.

(** The endpoint, as a transition of the global [watchlist_storage]; the
    response carries the new list. *)
Definition update_watchlist (request : WatchlistRequest.t)
    (watchlist_storage : list WatchlistItem.t) : list WatchlistItem.t :=
  if String.eqb (WatchlistRequest.action request) "add" then
    fold_left add_symbol (WatchlistRequest.symbols request) watchlist_storage
  else if String.eqb (WatchlistRequest.action request) "remove" then
    filter (fun item => negb (mem (WatchlistItem.symbol item) (WatchlistRequest.symbols request)))
      watchlist_storage
  else watchlist_storage.

Definition symbols_of (watchlist_storage : list WatchlistItem.t) : list string :=
  map WatchlistItem.symbol watchlist_storage.

(** No two entries share a symbol. *)
Definition unique_symbols (watchlist_storage : list WatchlistItem.t) : Prop :=
  NoDup (symbols_of watchlist_storage).

(** The watchlists the service can hold: the default one, updated any
    number of times. *)
Inductive reachable : list WatchlistItem.t -> Prop :=
| reachable_default : reachable DEFAULT_WATCHLIST
| reachable_update request watchlist_storage :
    reachable watchlist_storage ->
    reachable (update_watchlist request watchlist_storage).

(** ** The external services and the endpoint monad *)

(** The services the endpoints call out to: market data (the body of
    [get_indicators]), [GoogleSheetsLogger.log_trade] and
    [NotificationService.send_alert].  Each acts on the outside world; the
    last two catch their own failures and answer with a boolean. *)
Record Services : Type := {
  World : Type;
  market_data : string -> World -> pyresult IndicatorData.t * World;
  sheets_log_trade : LogRequest.t -> World -> bool * World;
  notify_send_alert : AlertRequest.t -> World -> bool * World }.

(** What the endpoints do that can be seen from outside. *)
Inductive call : Type :=
| CallMarketData (symbol : string)
| CallSheetsLogger (log_data : LogRequest.t)
| CallNotification (alert_data : AlertRequest.t)
| LoggerError (context : string) (e : pyexc).

Record State (S : Services) : Type := mkState {
  world : World S;
  trace : list call }.

Arguments mkState {S} world trace.
Arguments world {S} s.
Arguments trace {S} s.

Definition M (S : Services) (A : Type) : Type := State S -> pyresult A * State S.

#[global] Instance Monad_M (S : Services) : Monad (M S) :=
  {| ret := fun _ a st => (Ok a, st);
     bind := fun _ _ m k st =>
       match m st with
       | (Ok a, st') => k a st'
       | (Raise e, st') => (Raise e, st')
       end |}.

#[global] Instance Exc_M (S : Services) : MonadExc pyexc (M S) :=
  {| raise := fun _ e st => (Raise e, st);
     catch := fun _ m h st =>
       match m st with
       | (Ok a, st') => (Ok a, st')
       | (Raise e, st') => h e st'
       end |}.

(** The response [generate_signal] builds for a symbol from its indicators. *)
Definition verdict_for (symbol : string) (d : IndicatorData.t) : SignalResponse.t :=
  let signal_data :=
    TradingEngine.generate_signal
      {| Indicators.rsi := IndicatorData.rsi d;
         Indicators.vwap := IndicatorData.vwap d;
         Indicators.ltp := IndicatorData.ltp d;
         Indicators.tc := IndicatorData.tc d;
         Indicators.bc := IndicatorData.bc d |} in
  {| SignalResponse.symbol := symbol;
     SignalResponse.signal := SignalData.signal signal_data;
     SignalResponse.entry_price := SignalData.entry_price signal_data;
     SignalResponse.target := SignalData.target signal_data;
     SignalResponse.stop_loss := SignalData.stop_loss signal_data;
     SignalResponse.notes := SignalData.notes signal_data |}.

Section Endpoints.

Variable S : Services.

Definition record (c : call) : M S unit :=
  fun st => (Ok tt, mkState (world st) (trace st ++ [c])).

(** [logger.error(f"<context>: {str(e)}")] *)
Definition logger_error (context : string) (e : pyexc) : M S unit :=
  record (LoggerError context e).

Definition call_market_data (symbol : string) : M S IndicatorData.t :=
  fun st =>
    let '(r, w) := market_data S symbol (world st) in
    (r, mkState w (trace st ++ [CallMarketData symbol])).

Definition call_sheets_logger (log_data : LogRequest.t) : M S bool :=
  fun st =>
    let '(ok, w) := sheets_log_trade S log_data (world st) in
    (Ok ok, mkState w (trace st ++ [CallSheetsLogger log_data])).

Definition call_notification (alert_data : AlertRequest.t) : M S bool :=
  fun st =>
    let '(ok, w) := notify_send_alert S alert_data (world st) in
    (Ok ok, mkState w (trace st ++ [CallNotification alert_data])).

(** The handler every endpoint ends with:
    [except Exception as e: logger.error(...); raise HTTPException(500, str(e))]. *)
Definition reraise_500 {A : Type} (context : string) (e : pyexc) : M S A :=
  logger_error context e ;;
  raise (HTTPException 500 (Str e)).

Definition get_indicators (symbol : string) : M S IndicatorData.t :=
  catch (call_market_data symbol)
        (reraise_500 ("Error fetching indicators for " ++ symbol)).

Definition generate_signal (request : SignalRequest.t) : M S SignalResponse.t :=
  catch
    (indicators_data <- get_indicators (SignalRequest.symbol request) ;;
     let indicators :=
       {| Indicators.rsi := IndicatorData.rsi indicators_data;
          Indicators.vwap := IndicatorData.vwap indicators_data;
          Indicators.ltp := IndicatorData.ltp indicators_data;
          Indicators.tc := IndicatorData.tc indicators_data;
          Indicators.bc := IndicatorData.bc indicators_data |} in
     let signal_data := TradingEngine.generate_signal indicators in
     ret {| SignalResponse.symbol := SignalRequest.symbol request;
            SignalResponse.signal := SignalData.signal signal_data;
            SignalResponse.entry_price := SignalData.entry_price signal_data;
            SignalResponse.target := SignalData.target signal_data;
            SignalResponse.stop_loss := SignalData.stop_loss signal_data;
            SignalResponse.notes := SignalData.notes signal_data |})
    (reraise_500 ("Error generating signal for " ++ SignalRequest.symbol request)).

Definition log_trade (log_data : LogRequest.t) : M S string :=
  catch
    (success <- call_sheets_logger log_data ;;
     if success : bool then ret "Trade logged successfully"%string
     else raise (HTTPException 500 (Text "Failed to log trade")))
    (reraise_500 "Error logging trade").

Definition send_alert (alert_data : AlertRequest.t) : M S string :=
  catch
    (success <- call_notification alert_data ;;
     if success : bool then ret "Alert sent successfully"%string
     else raise (HTTPException 500 (Text "Failed to send alert")))
    (reraise_500 "Error sending alert").

Definition log_request_of (signal_response : SignalResponse.t) : LogRequest.t :=
  {| LogRequest.symbol := SignalResponse.symbol signal_response;
     LogRequest.signal := SignalResponse.signal signal_response;
     LogRequest.entry_price := SignalResponse.entry_price signal_response;
     LogRequest.target := SignalResponse.target signal_response;
     LogRequest.stop_loss := SignalResponse.stop_loss signal_response;
     LogRequest.live_price := SignalResponse.entry_price signal_response;
     LogRequest.status := "OPEN";
     LogRequest.notes := SignalResponse.notes signal_response |}.

Definition alert_request_of (signal_response : SignalResponse.t) : AlertRequest.t :=
  {| AlertRequest.symbol := SignalResponse.symbol signal_response;
     AlertRequest.signal := SignalResponse.signal signal_response;
     AlertRequest.price := SignalResponse.entry_price signal_response;
     AlertRequest.target := SignalResponse.target signal_response;
     AlertRequest.stop_loss := SignalResponse.stop_loss signal_response;
     AlertRequest.notes := SignalResponse.notes signal_response |}.

(** The body of the [try] block of [scan_all_symbols], up to the append. *)
Definition scan_symbol (item : WatchlistItem.t) : M S SignalResponse.t :=
  let signal_request := {| SignalRequest.symbol := WatchlistItem.symbol item |} in
  signal_response <- generate_signal signal_request ;;
  (if negb (String.eqb (SignalResponse.signal signal_response) "HOLD") then
     log_trade (log_request_of signal_response) ;;
     send_alert (alert_request_of signal_response) ;;
     ret tt
   else ret tt) ;;
  ret signal_response.

(** The loop [for item in watchlist_storage: try: ... except Exception: continue]. *)
Fixpoint scan_loop (items : list WatchlistItem.t) (results : list SignalResponse.t)
    : M S (list SignalResponse.t) :=
  match items with
  | [] => ret results
  | item :: rest =>
      results' <- catch
                    (signal_response <- scan_symbol item ;;
                     ret (results ++ [signal_response]))
                    (fun e =>
                       logger_error ("Error scanning " ++ WatchlistItem.symbol item) e ;;
                       ret results) ;;
      scan_loop rest results'
  end.

Definition scan_all_symbols (watchlist_storage : list WatchlistItem.t)
    : M S (string * list SignalResponse.t) :=
  results <- scan_loop watchlist_storage [] ;;
  ret (("Scanned " ++ Py.dec (Py.len results) ++ " symbols")%string, results).

(** Whether the scan of one symbol, started in [st], ran without a fault in
    any of the services it called. *)
Definition no_fault (item : WatchlistItem.t) (st : State S) : bool :=
  match scan_symbol item st with
  | (Ok _, _) => true
  | (Raise _, _) => false
  end.

(** The state the scan of one symbol leaves behind, fault or not. *)
Definition after_symbol (item : WatchlistItem.t) (st : State S) : State S :=
  snd (catch (scan_symbol item ;; ret tt)
             (fun e => logger_error ("Error scanning " ++ WatchlistItem.symbol item) e)
             st).

(** The state in which the scan reaches the entry that follows [items]. *)
Definition state_after (items : list WatchlistItem.t) (st : State S) : State S :=
  fold_left (fun st item => after_symbol item st) items st.

(** The verdicts of the symbols that did not fault, in watchlist order. *)
Fixpoint clean_verdicts (items : list WatchlistItem.t) (st : State S)
    : list SignalResponse.t :=
  match items with
  | [] => []
  | item :: rest =>
      match scan_symbol item st with
      | (Ok signal_response, _) => [signal_response]
      | (Raise _, _) => []
      end ++ clean_verdicts rest (after_symbol item st)
  end.

(** Whether, for one symbol scanned from [st], market data delivers and,
    when the verdict is not HOLD, the spreadsheet and then the notifier
    answer with success. *)
Definition all_services_succeed (item : WatchlistItem.t) (st : State S) : bool :=
  match market_data S (WatchlistItem.symbol item) (world st) with
  | (Raise _, _) => false
  | (Ok d, w1) =>
      let v := verdict_for (WatchlistItem.symbol item) d in
      if String.eqb (SignalResponse.signal v) "HOLD" then true
      else
        match sheets_log_trade S (log_request_of v) w1 with
        | (false, _) => false
        | (true, w2) => fst (notify_send_alert S (alert_request_of v) w2)
        end
  end.

End Endpoints.

Arguments record {S} c.
Arguments reraise_500 {S A} context e.

(** [l] is [l'] with some elements left out, the order kept. *)
Inductive subsequence {A : Type} : list A -> list A -> Prop :=
| subsequence_nil : subsequence [] []
| subsequence_keep x l l' : subsequence l l' -> subsequence (x :: l) (x :: l')
| subsequence_drop x l l' : subsequence l l' -> subsequence l (x :: l').

(** The exception a failed call of the spreadsheet leaves [log_trade] with,
    and the same for the notifier. *)
Definition log_failed : pyexc :=
  HTTPException 500 (Str (HTTPException 500 (Text "Failed to log trade"))).

Definition alert_failed : pyexc :=
  HTTPException 500 (Str (HTTPException 500 (Text "Failed to send alert"))).

(** A world in which market data reports the snapshot [snapshot] for every
    symbol, and the spreadsheet and the notifier answer [sheets] and
    [ntfy]. *)
Definition fixed_services (snapshot : string -> pyresult IndicatorData.t)
    (sheets ntfy : bool) : Services :=
  {| World := unit;
     market_data := fun symbol w => (snapshot symbol, w);
     sheets_log_trade := fun _ w => (sheets, w);
     notify_send_alert := fun _ w => (ntfy, w) |}.

(** The snapshots of a day on which market data fails for TCS alone. *)
Definition tcs_down (symbol : string) : pyresult IndicatorData.t :=
  if String.eqb symbol "TCS" then Raise (ServiceError "timed out")
  else if String.eqb symbol "INFY" then Ok (IndicatorData.mk symbol 50 100 100 95 105 110)
  else Ok (IndicatorData.mk symbol 25 100 100 95 105 110).

Definition start (S : Services) (w : World S) : State S := mkState w [].

Definition oversold (symbol : string) : pyresult IndicatorData.t :=
  Ok (IndicatorData.mk symbol 25 100 100 95 105 110).

(** ** Shapes of a price series *)

(** No price is below the one before it. *)
Fixpoint nondecreasing (prices : list Q) : Prop :=
  match prices with
  | x :: (y :: _) as t => x <= y /\ nondecreasing t
  | _ => True
  end.

(** Each price is above the next. *)
Fixpoint strictly_decreasing (prices : list Q) : Prop :=
  match prices with
  | x :: (y :: _) as t => y < x /\ strictly_decreasing t
  | _ => True
  end.

(** The list [price_volume] of [calculate_vwap]. *)
Definition price_volume (prices volumes : list Q) : list Q :=
  map (fun pv => fst pv * snd pv) (combine prices volumes).

(** An entry as the "add" branch creates it for one of [symbols], new to
    [watchlist_storage]. *)
Definition added_entry (symbols : list string) (watchlist_storage : list WatchlistItem.t)
    (item : WatchlistItem.t) : Prop :=
  WatchlistItem.instrument_token item = ("dummy_" ++ WatchlistItem.symbol item)%string
  /\ In (WatchlistItem.symbol item) symbols
  /\ ~ In (WatchlistItem.symbol item) (symbols_of watchlist_storage).

(** ** Reading a trace *)

(** The symbols market data was asked for, the rows handed to the
    spreadsheet and the alerts handed to the notifier, each in the order of
    the calls. *)
Definition market_data_calls (t : list call) : list string :=
  flat_map (fun c => match c with CallMarketData symbol => [symbol] | _ => [] end) t.

Definition logged (t : list call) : list LogRequest.t :=
  flat_map (fun c => match c with CallSheetsLogger log_data => [log_data] | _ => [] end) t.

Definition alerted (t : list call) : list AlertRequest.t :=
  flat_map (fun c => match c with CallNotification alert_data => [alert_data] | _ => [] end) t.

(** The alert [scan_all_symbols] builds for the verdict a row was built for. *)
Definition alert_of_row (log_data : LogRequest.t) : AlertRequest.t :=
  {| AlertRequest.symbol := LogRequest.symbol log_data;
     AlertRequest.signal := LogRequest.signal log_data;
     AlertRequest.price := LogRequest.entry_price log_data;
     AlertRequest.target := LogRequest.target log_data;
     AlertRequest.stop_loss := LogRequest.stop_loss log_data;
     AlertRequest.notes := LogRequest.notes log_data |}.

(** A row as the scan writes it: for a BUY or a SELL, open, the live price
    being the entry price. *)
Definition scan_row (log_data : LogRequest.t) : Prop :=
  (LogRequest.signal log_data = "BUY"%string \/ LogRequest.signal log_data = "SELL"%string)
  /\ LogRequest.status log_data = "OPEN"%string
  /\ LogRequest.live_price log_data = LogRequest.entry_price log_data.

(** ** The mock market data of [get_indicators]

    [get_indicators] looks the symbol up in the watchlist and makes its
    data up from [random.uniform].  The generator is the stream of numbers
    [random.random()] returns, with a count of those drawn so far. *)

Record Rng : Type := mkRng {
  draw : nat -> Q;
  drawn : nat }.

(** [random.uniform(a, b)], that is [a + (b - a) * random()]. *)
Definition uniform (a b : Q) (r : Rng) : Q * Rng :=
  (a + (b - a) * draw r (drawn r), mkRng (draw r) (S (drawn r))).

(** [[random.uniform(a, b) for _ in range(n)]] *)
Fixpoint uniforms (n : nat) (a b : Q) (r : Rng) : list Q * Rng :=
  match n with
  | O => ([], r)
  | S n' =>
      let '(x, r1) := uniform a b r in
      let '(xs, r2) := uniforms n' a b r1 in
      (x :: xs, r2)
  end.

(** The float pydantic stores for a numpy scalar.  A nan or an infinity has
    no counterpart in [IndicatorData.t]; the scalar [get_indicators] stores
    is never one ([mock_rsi_finite] below), and that case is given 0 only
    to have a value. *)
Definition stored (x : np.float64) : Q :=
  match x with
  | np.Fin q => q
  | _ => 0
  end.

(** The body of the [try] block of [get_indicators]. *)
Definition mock_market_data (watchlist_storage : list WatchlistItem.t)
    (symbol : string) (r : Rng) : pyresult IndicatorData.t * Rng :=
  let symbol_info :=
    find (fun item => String.eqb (WatchlistItem.symbol item) symbol) watchlist_storage in
  match symbol_info with
  | None => (Raise (HTTPException 404 (Text "Symbol not found in watchlist")), r)
  | Some _ =>
      let '(base_price, r) := uniform 100 3000 r in
      let '(noise, r) := uniform (-50) 50 r in
      let ltp := Py.round2 (base_price + noise) in
      let '(offsets, r) := uniforms 30 (-20) 20 r in
      let prices := map (fun o => base_price + o) offsets ++ [ltp] in
      match IndicatorCalculator.calculate_rsi prices 14 with
      | Raise e => (Raise e, r)
      | Ok rsi =>
          let '(volumes, r) := uniforms (List.length prices) 1000 10000 r in
          match IndicatorCalculator.calculate_vwap prices volumes with
          | Raise e => (Raise e, r)
          | Ok vwap =>
              let '(up, r) := uniform 10 30 r in
              let prev_high := base_price + up in
              let '(down, r) := uniform 10 30 r in
              let prev_low := base_price - down in
              let '(drift, r) := uniform (-15) 15 r in
              let prev_close := base_price + drift in
              let cpr := IndicatorCalculator.calculate_cpr prev_high prev_low prev_close in
              (Ok {| IndicatorData.symbol := symbol;
                     IndicatorData.rsi := stored rsi;
                     IndicatorData.vwap := vwap;
                     IndicatorData.pivot := CPR.pivot cpr;
                     IndicatorData.bc := CPR.bc cpr;
                     IndicatorData.tc := CPR.tc cpr;
                     IndicatorData.ltp := ltp |}, r)
          end
      end
  end.

(** The service as the repository wires it: market data is the mock over
    the watchlist, the spreadsheet and the notifier are those of [T]. *)
Definition mock_services (watchlist_storage : list WatchlistItem.t) (T : Services)
    : Services :=
  {| World := Rng * World T;
     market_data := fun symbol w =>
       let '(d, r) := mock_market_data watchlist_storage symbol (fst w) in
       (d, (r, snd w));
     sheets_log_trade := fun log_data w =>
       let '(ok, t) := sheets_log_trade T log_data (snd w) in
       (ok, (fst w, t));
     notify_send_alert := fun alert_data w =>
       let '(ok, t) := notify_send_alert T alert_data (snd w) in
       (ok, (fst w, t)) |}.

(** Every number of the stream lies in [0, 1]. *)
Definition unit_draws (r : Rng) : Prop := forall n, 0 <= draw r n <= 1.

(** A generator whose every draw is one half. *)
Definition midpoint_rng : Rng := mkRng (fun _ => 1 # 2) 0.

(** What the mock reports for a symbol of the watchlist. *)
Definition mock_snapshot (symbol : string) (d : IndicatorData.t) : Prop :=
  IndicatorData.symbol d = symbol
  /\ 0 <= IndicatorData.rsi d <= 100
  /\ 50 <= IndicatorData.ltp d <= 3050
  /\ two_decimals (IndicatorData.ltp d)
  /\ 50 <= IndicatorData.vwap d <= 3050.

(** ** GoogleSheetsLogger

    The spreadsheet behind [sheets_log_trade].  What the class calls of
    [os], [oauth2client] and [gspread] is taken as given: each operation
    acts on the outside world and, [os.path.exists] apart, may raise.  The
    logger keeps the worksheet handle it obtained ([self.sheet]); the calls
    it makes and the lines it logs are recorded. *)

Inductive cell : Type :=
| CellText (s : string)
| CellNumber (q : Q).

Record Gspread : Type := {
  Outside : Type;
  Worksheet : Type;
  (** [Config.GOOGLE_SHEETS_CREDENTIALS_PATH] *)
  credentials_path : string;
  (** [os.path.exists(self.credentials_path)] *)
  path_exists : Outside -> bool;
  (** [from_json_keyfile_name], [gspread.authorize] and
      [client.open(Config.SHEET_NAME).sheet1], in one. *)
  open_sheet1 : Outside -> pyresult Worksheet * Outside;
  row_values : Worksheet -> Z -> Outside -> pyresult (list string) * Outside;
  insert_row : Worksheet -> list string -> Z -> Outside -> pyresult unit * Outside;
  append_row : Worksheet -> list cell -> Outside -> pyresult unit * Outside;
  (** [datetime.now(timezone.utc).isoformat()] *)
  now_isoformat : Outside -> string }.

Inductive sheets_call : Type :=
| OpenSheet1
| RowValues (row : Z)
| InsertRow (values : list string) (index : Z)
| AppendRow (values : list cell).

Inductive logline : Type :=
| LogInfo (message : string)
| LogWarning (message : string)
| LogError (context : string) (e : pyexc).

Module GoogleSheetsLogger.

Record t (G : Gspread) : Type := mk {
  sheet : option (Worksheet G);
  outside : Outside G;
  calls : list sheets_call;
  lines : list logline }.

Arguments mk {G} sheet outside calls lines.
Arguments sheet {G} _.
Arguments outside {G} _.
Arguments calls {G} _.
Arguments lines {G} _.

(** Code that acts on the logger and may raise. *)
Definition Eff (G : Gspread) (A : Type) : Type := t G -> pyresult A * t G.

#[global] Instance Monad_Eff (G : Gspread) : Monad (Eff G) :=
  {| ret := fun _ a self => (Ok a, self);
     bind := fun _ _ m k self =>
       match m self with
       | (Ok a, self') => k a self'
       | (Raise e, self') => (Raise e, self')
       end |}.

(** [try: body  except Exception as e: handler], the handler returning. *)
Definition try_except {G : Gspread} {A : Type} (body : Eff G A)
    (handler : pyexc -> t G -> A * t G) (self : t G) : A * t G :=
  match body self with
  | (Ok a, self') => (a, self')
  | (Raise e, self') => handler e self'
  end.

Section Methods.

Variable G : Gspread.

Definition log (l : logline) : Eff G unit :=
  fun self => (Ok tt, mk (sheet self) (outside self) (calls self) (lines self ++ [l])).

(** A call into the libraries: recorded, then run on the outside world. *)
Definition library {A : Type} (c : sheets_call)
    (op : Outside G -> pyresult A * Outside G) : Eff G A :=
  fun self =>
    let '(r, w) := op (outside self) in
    (r, mk (sheet self) w (calls self ++ [c]) (lines self)).

Definition set_sheet (ws : Worksheet G) : Eff G unit :=
  fun self => (Ok tt, mk (Some ws) (outside self) (calls self) (lines self)).

Definition headers : list string :=
  ["timestamp"; "symbol"; "signal"; "entry_price"; "target"; "stop_loss";
   "live_price"; "status"; "notes"]%string.

Definition authenticate : t G -> bool * t G :=
  try_except
    (fun self =>
       if negb (path_exists G (outside self)) then
         (log (LogWarning ("Google Sheets credentials file not found: "
                           ++ credentials_path G)) ;;
          ret false) self
       else
         (ws <- library OpenSheet1 (open_sheet1 G) ;;
          set_sheet ws ;;
          first_row <- library (RowValues 1) (row_values G ws 1) ;;
          match first_row with
          | [] => library (InsertRow headers 1) (insert_row G ws headers 1)
          | _ :: _ => ret tt
          end ;;
          log (LogInfo "Google Sheets authentication successful") ;;
          ret true) self)
    (fun e self =>
       (false, mk (sheet self) (outside self) (calls self)
                 (lines self ++ [LogError "Google Sheets authentication error" e]))).

Definition row_of (log_data : LogRequest.t) (timestamp : string) : list cell :=
  [CellText timestamp;
   CellText (LogRequest.symbol log_data);
   CellText (LogRequest.signal log_data);
   CellNumber (LogRequest.entry_price log_data);
   CellNumber (LogRequest.target log_data);
   CellNumber (LogRequest.stop_loss log_data);
   CellNumber (LogRequest.live_price log_data);
   CellText (LogRequest.status log_data);
   CellText (LogRequest.notes log_data)].

(** The rest of [log_trade] once [self.sheet] is set. *)
Definition append (log_data : LogRequest.t) : Eff G bool :=
  fun self =>
    match sheet self with
    | None =>
        (* AttributeError, which [pyexc] has no constructor of its own for *)
        (Raise (ServiceError "'NoneType' object has no attribute 'append_row'"), self)
    | Some ws =>
        let row := row_of log_data (now_isoformat G (outside self)) in
        (library (AppendRow row) (append_row G ws row) ;;
         log (LogInfo ("Trade logged for " ++ LogRequest.symbol log_data)) ;;
         ret true) self
    end.

Definition log_trade (log_data : LogRequest.t) : t G -> bool * t G :=
  try_except
    (fun self =>
       match sheet self with
       | None =>
           let '(authenticated, self) := authenticate self in
           if negb authenticated then (Ok false, self) else append log_data self
       | Some _ => append log_data self
       end)
    (fun e self =>
       (false, mk (sheet self) (outside self) (calls self)
                 (lines self ++ [LogError "Error logging trade" e]))).

End Methods.

End GoogleSheetsLogger.

(** Three outside worlds for the logger: no credentials file; a file and a
    spreadsheet whose first row cannot be read; and a spreadsheet that
    works, empty so far. *)
Definition gspread_stub (exists_ : bool) (first_row : pyresult (list string)) : Gspread :=
  {| Outside := unit;
     Worksheet := unit;
     credentials_path := "/path/to/saadalgotrading-424c20af8525.json";
     path_exists := fun _ => exists_;
     open_sheet1 := fun w => (Ok tt, w);
     row_values := fun _ _ w => (first_row, w);
     insert_row := fun _ _ _ w => (Ok tt, w);
     append_row := fun _ _ w => (Ok tt, w);
     now_isoformat := fun _ => "2025-01-01T00:00:00+00:00"%string |}.

Definition no_credentials : Gspread := gspread_stub false (Ok []).

Definition unreadable_header : Gspread :=
  gspread_stub true (Raise (ServiceError "APIError")).

Definition empty_spreadsheet : Gspread := gspread_stub true (Ok []).

(** A logger as [__init__] leaves it. *)
Definition new_logger (G : Gspread) (w : Outside G) : GoogleSheetsLogger.t G :=
  GoogleSheetsLogger.mk None w [] [].

Definition buy_row : LogRequest.t :=
  LogRequest.mk "RELIANCE" "BUY" 110 111.1 109.45 110 "OPEN"
    "RSI oversold (25.00), price above VWAP and TC".

(** * Properties *)

(** ** Rounding *)

Section Rounding.

Lemma lt_spec (x y : Q) : reflect (x < y) (Py.lt x y).
Proof.
  unfold Py.lt. destruct (Qle_bool y x) eqn:E; constructor.
  - apply Qle_bool_iff in E. lra.
  - assert (~ y <= x) as N by (rewrite <- Qle_bool_iff; congruence). lra.
Qed.

Lemma round_half_even_near (x : Q) :
  x - (1 # 2) <= inject_Z (Py.round_half_even x) <= x + (1 # 2).
Proof.
  unfold Py.round_half_even.
  pose proof (Qfloor_le x) as Hlo.
  pose proof (Qlt_floor x) as Hhi.
  rewrite inject_Z_plus in Hhi. change (inject_Z 1) with 1 in Hhi.
  destruct (Qcompare_spec (x - inject_Z (Qfloor x)) (1 # 2)) as [E | L | G].
  - destruct (Z.even (Qfloor x)).
    + lra.
    + rewrite inject_Z_plus. change (inject_Z 1) with 1. lra.
  - lra.
  - rewrite inject_Z_plus. change (inject_Z 1) with 1. lra.
Qed.

Lemma round_half_even_floor (x : Q) :
  (Qfloor x <= Py.round_half_even x <= Qfloor x + 1)%Z.
Proof.
  unfold Py.round_half_even.
  destruct (Qcompare (x - inject_Z (Qfloor x)) (1 # 2)); try destruct (Z.even _); lia.
Qed.

Lemma hundredths (z : Z) : z # 100 == inject_Z z / 100.
Proof. rewrite Qmake_Qdiv. reflexivity. Qed.

(** [round(x, 2)] is within half a hundredth of [x]. *)
Lemma round2_near (x : Q) :
  x - (1 # 200) <= Py.round2 x <= x + (1 # 200).
Proof.
  unfold Py.round2. rewrite hundredths.
  pose proof (round_half_even_near (x * 100)) as H.
  set (r := inject_Z (Py.round_half_even (x * 100))) in *.
  split.
  - apply Qle_shift_div_l; lra.
  - apply Qle_shift_div_r; lra.
Qed.

Lemma round2_hundredths (z : Z) : Py.round2 (z # 100) = z # 100.
Proof.
  unfold Py.round2. f_equal.
  assert ((z # 100) * 100 == inject_Z z) as E by (rewrite hundredths; field).
  unfold Py.round_half_even.
  rewrite (Qfloor_comp _ _ E), Qfloor_Z.
  destruct (Qcompare_spec ((z # 100) * 100 - inject_Z z) (1 # 2)) as [E' | L | G];
    [lra | reflexivity | lra].
Qed.

(** [round(., 2)] returns a value with two decimals. *)
Lemma round2_two_decimals (x : Q) : two_decimals (Py.round2 x).
Proof.
  unfold two_decimals. unfold Py.round2 at 2.
  rewrite round2_hundredths. reflexivity.
Qed.

Lemma round2_lower (x : Q) (z : Z) : inject_Z z <= x * 100 -> z # 100 <= Py.round2 x.
Proof.
  intros H. unfold Py.round2.
  pose proof (round_half_even_floor (x * 100)) as [F _].
  pose proof (Qfloor_resp_le _ _ H) as G. rewrite Qfloor_Z in G.
  unfold Qle. simpl. lia.
Qed.

Lemma round2_upper (x : Q) (z : Z) : x * 100 <= inject_Z z -> Py.round2 x <= z # 100.
Proof.
  intros H. unfold Py.round2.
  assert (Py.round_half_even (x * 100) <= z)%Z as G.
  { destruct (Qlt_le_dec (x * 100) (inject_Z z)) as [L | L].
    - pose proof (round_half_even_floor (x * 100)) as [_ F].
      assert (Qfloor (x * 100) < z)%Z; [| lia].
      pose proof (Qfloor_le (x * 100)) as Hf.
      rewrite Zlt_Qlt. lra.
    - assert (x * 100 == inject_Z z) as E by lra.
      unfold Py.round_half_even.
      rewrite (Qfloor_comp _ _ E), Qfloor_Z.
      destruct (Qcompare_spec (x * 100 - inject_Z z) (1 # 2)) as [E' | L' | G'];
        [lra | lia | lra]. }
  unfold Qle. simpl. lia.
Qed.

End Rounding.

(** ** SignalEngine *)

Section SignalEngine.

Variable i : Indicators.t.

Let price := Indicators.ltp i.
Let v := TradingEngine.generate_signal i.

Lemma generate_signal_buy :
  buy_rule i = true ->
  v = {| SignalData.signal := "BUY";
         SignalData.entry_price := price;
         SignalData.target := Py.round2 (price * 1.01);
         SignalData.stop_loss := Py.round2 (price * 0.995);
         SignalData.notes :=
           "RSI oversold (" ++ Py.format_2f (Indicators.rsi i)
             ++ "), price above VWAP and TC" |}.
Proof.
  unfold v, TradingEngine.generate_signal, buy_rule. intros ->. reflexivity.
Qed.

Lemma generate_signal_sell :
  buy_rule i = false -> sell_rule i = true ->
  v = {| SignalData.signal := "SELL";
         SignalData.entry_price := price;
         SignalData.target := Py.round2 (price * 0.99);
         SignalData.stop_loss := Py.round2 (price * 1.005);
         SignalData.notes :=
           "RSI overbought (" ++ Py.format_2f (Indicators.rsi i)
             ++ "), price below VWAP and BC" |}.
Proof.
  unfold v, TradingEngine.generate_signal, buy_rule, sell_rule. intros -> ->. reflexivity.
Qed.

Lemma generate_signal_hold :
  buy_rule i = false -> sell_rule i = false ->
  v = {| SignalData.signal := "HOLD";
         SignalData.entry_price := price;
         SignalData.target := price;
         SignalData.stop_loss := price;
         SignalData.notes := "No clear signal" |}.
Proof.
  unfold v, TradingEngine.generate_signal, buy_rule, sell_rule. intros -> ->. reflexivity.
Qed.

(** The three shapes a verdict can take. *)
Lemma generate_signal_cases :
  (buy_rule i = true /\ SignalData.signal v = "BUY"%string)
  \/ (buy_rule i = false /\ sell_rule i = true /\ SignalData.signal v = "SELL"%string)
  \/ (buy_rule i = false /\ sell_rule i = false /\ SignalData.signal v = "HOLD"%string).
Proof.
  destruct (buy_rule i) eqn:B; [| destruct (sell_rule i) eqn:L].
  - left. rewrite (generate_signal_buy B). auto.
  - right; left. rewrite (generate_signal_sell B L). auto.
  - right; right. rewrite (generate_signal_hold B L). auto.
Qed.

End SignalEngine.

(** C1.  [TradingEngine.generate_signal] computes the decision table of the
    specification: the verdict, target and stop loss it returns are those of
    [decide] (rule 1, else rule 2, else HOLD, with the stated multipliers and
    roundings), and a HOLD verdict carries the note "No clear signal". *)
Theorem generate_signal_refines_decide (i : Indicators.t) :
  let v := TradingEngine.generate_signal i in
  (SignalData.signal v, SignalData.target v, SignalData.stop_loss v) = decide i
  /\ (SignalData.signal v = "HOLD"%string ->
      SignalData.notes v = "No clear signal"%string).
Proof.
  intros v. unfold decide.
  destruct (generate_signal_cases i) as [[B E] | [[B [L E]] | [B [L E]]]]; rewrite B; try rewrite L.
  - subst v. rewrite (generate_signal_buy i B) in *. split; [reflexivity | discriminate].
  - subst v. rewrite (generate_signal_sell i B L) in *. split; [reflexivity | discriminate].
  - subst v. rewrite (generate_signal_hold i B L) in *. split; reflexivity.
Qed.

Lemma generate_signal_refines_decide_witness :
  let hold := TradingEngine.generate_signal (Indicators.mk 50 100 110 105 95) in
  let buy := TradingEngine.generate_signal (Indicators.mk 25 100 110 105 95) in
  let sell := TradingEngine.generate_signal (Indicators.mk 75 100 90 105 95) in
  (SignalData.signal hold = "HOLD"%string /\ SignalData.notes hold = "No clear signal"%string)
  /\ (SignalData.signal buy, SignalData.target buy, SignalData.stop_loss buy)
     = ("BUY"%string, 11110 # 100, 10945 # 100)
  /\ (SignalData.signal sell, SignalData.target sell, SignalData.stop_loss sell)
     = ("SELL"%string, 8910 # 100, 9045 # 100).
Proof.
  intros hold buy sell. split; [split; [reflexivity |] | split].
  - apply (proj2 (generate_signal_refines_decide (Indicators.mk 50 100 110 105 95))).
    reflexivity.
  - exact (eq_trans
             (proj1 (generate_signal_refines_decide (Indicators.mk 25 100 110 105 95)))
             eq_refl).
  - exact (eq_trans
             (proj1 (generate_signal_refines_decide (Indicators.mk 75 100 90 105 95)))
             eq_refl).
Defined.

(** C8, as stated, fails: a HOLD verdict hands the price through as it came,
    and so does [entry_price]; a price with three decimals stays so. *)
Lemma hold_levels_not_rounded :
  let v := TradingEngine.generate_signal (Indicators.mk 50 100 100.123 105 95) in
  SignalData.signal v = "HOLD"%string
  /\ ~ two_decimals (SignalData.entry_price v)
  /\ ~ two_decimals (SignalData.target v)
  /\ ~ two_decimals (SignalData.stop_loss v).
Proof.
  cbv zeta. split; [reflexivity |].
  repeat split; intros H; vm_compute in H; discriminate H.
Qed.

(** C8, amended.  The target and the stop loss of a BUY or SELL verdict are
    rounded to two decimals, whatever the snapshot; [entry_price], and the
    target and stop loss of a HOLD verdict, are the input price unchanged.
    Hence all three outputs have two decimals whenever the input price has. *)
Theorem generate_signal_rounding (i : Indicators.t) :
  let v := TradingEngine.generate_signal i in
  SignalData.entry_price v = Indicators.ltp i
  /\ (SignalData.signal v <> "HOLD"%string ->
      two_decimals (SignalData.target v) /\ two_decimals (SignalData.stop_loss v))
  /\ (SignalData.signal v = "HOLD"%string ->
      SignalData.target v = Indicators.ltp i /\ SignalData.stop_loss v = Indicators.ltp i)
  /\ (two_decimals (Indicators.ltp i) ->
      two_decimals (SignalData.entry_price v)
      /\ two_decimals (SignalData.target v)
      /\ two_decimals (SignalData.stop_loss v)).
Proof.
  intros v. subst v.
  destruct (generate_signal_cases i) as [[B _] | [[B [L _]] | [B [L _]]]].
  - rewrite (generate_signal_buy i B). cbn.
    repeat split; auto using round2_two_decimals; discriminate.
  - rewrite (generate_signal_sell i B L). cbn.
    repeat split; auto using round2_two_decimals; discriminate.
  - rewrite (generate_signal_hold i B L). cbn.
    repeat split; auto; congruence.
Qed.

Lemma generate_signal_rounding_witness :
  let v := TradingEngine.generate_signal (Indicators.mk 25 100 110 105 95) in
  SignalData.signal v <> "HOLD"%string
  /\ two_decimals (Indicators.ltp (Indicators.mk 25 100 110 105 95))
  /\ two_decimals (SignalData.entry_price v)
  /\ two_decimals (SignalData.target v)
  /\ two_decimals (SignalData.stop_loss v).
Proof.
  cbv zeta.
  assert (two_decimals (Indicators.ltp (Indicators.mk 25 100 110 105 95))) as P
    by reflexivity.
  split; [discriminate | split; [exact P |]].
  exact (proj2 (proj2 (proj2
           (generate_signal_rounding (Indicators.mk 25 100 110 105 95)))) P).
Defined.

(** C10.  When the last traded price is at least 1, a BUY verdict has
    stop loss <= entry price <= target and a SELL verdict has
    target <= entry price <= stop loss. *)
Theorem levels_follow_direction (i : Indicators.t) :
  1 <= Indicators.ltp i ->
  let v := TradingEngine.generate_signal i in
  (SignalData.signal v = "BUY"%string ->
   SignalData.stop_loss v <= SignalData.entry_price v
   /\ SignalData.entry_price v <= SignalData.target v)
  /\ (SignalData.signal v = "SELL"%string ->
      SignalData.target v <= SignalData.entry_price v
      /\ SignalData.entry_price v <= SignalData.stop_loss v).
Proof.
  intros P v. subst v.
  set (price := Indicators.ltp i) in *.
  destruct (generate_signal_cases i) as [[B _] | [[B [L _]] | [B [L _]]]].
  - rewrite (generate_signal_buy i B). cbn. fold price.
    pose proof (round2_near (price * 1.01)). pose proof (round2_near (price * 0.995)).
    split; [intros _; lra | discriminate].
  - rewrite (generate_signal_sell i B L). cbn. fold price.
    pose proof (round2_near (price * 0.99)). pose proof (round2_near (price * 1.005)).
    split; [discriminate | intros _; lra].
  - rewrite (generate_signal_hold i B L). cbn. split; discriminate.
Qed.

Lemma levels_follow_direction_witness :
  let buy := TradingEngine.generate_signal (Indicators.mk 25 100 110 105 95) in
  let sell := TradingEngine.generate_signal (Indicators.mk 75 100 90 105 95) in
  (SignalData.signal buy = "BUY"%string
   /\ SignalData.stop_loss buy <= SignalData.entry_price buy
   /\ SignalData.entry_price buy <= SignalData.target buy)
  /\ (SignalData.signal sell = "SELL"%string
      /\ SignalData.target sell <= SignalData.entry_price sell
      /\ SignalData.entry_price sell <= SignalData.stop_loss sell).
Proof.
  cbv zeta. split; (split; [reflexivity |]).
  - apply (levels_follow_direction (Indicators.mk 25 100 110 105 95)).
    + cbn. lra.
    + reflexivity.
  - apply (levels_follow_direction (Indicators.mk 75 100 90 105 95)).
    + cbn. lra.
    + reflexivity.
Defined.

(** ** binary64: the error of one rounding *)

Section Pow2.

Lemma pow2_pos (e : Z) : 0 < Binary64.pow2 e.
Proof. apply Qpower_0_lt. reflexivity. Qed.

Lemma pow2_add (a b : Z) : Binary64.pow2 (a + b) == Binary64.pow2 a * Binary64.pow2 b.
Proof. apply Qpower_plus. discriminate. Qed.

Lemma pow2_inject (n : Z) : (0 <= n)%Z -> inject_Z (2 ^ n) == Binary64.pow2 n.
Proof. intros H. unfold Binary64.pow2. rewrite Zpower_Qpower by exact H. reflexivity. Qed.

Lemma binade_lower (q : Q) : ~ q == 0 -> Binary64.pow2 (Binary64.binade q) <= Qabs q.
Proof.
  intros N. unfold Binary64.binade.
  set (a := Z.log2 (Z.abs (Qnum q))). set (b := Z.log2 (Zpos (Qden q))).
  destruct (Qle_bool (Binary64.pow2 (a - b)) (Qabs q)) eqn:E;
    [apply Qle_bool_iff; exact E |].
  assert (0 < Z.abs (Qnum q))%Z as Pn.
  { destruct q as [n d]. unfold Qeq in N. cbn in *. lia. }
  pose proof (proj1 (Z.log2_spec _ Pn)) as La. fold a in La.
  pose proof (proj2 (Z.log2_spec (Zpos (Qden q)) (Pos2Z.is_pos _))) as Lb. fold b in Lb.
  assert (0 <= a)%Z as Pa by apply Z.log2_nonneg.
  assert (0 <= b)%Z as Pb by apply Z.log2_nonneg.
  assert (Binary64.pow2 a <= inject_Z (Z.abs (Qnum q))) as Qa.
  { rewrite <- pow2_inject by exact Pa. rewrite <- Zle_Qle. exact La. }
  assert (inject_Z (Zpos (Qden q)) <= Binary64.pow2 (b + 1)) as Qb.
  { rewrite <- pow2_inject by lia. rewrite <- Zle_Qle. unfold Z.succ in Lb. lia. }
  assert (Qabs q == inject_Z (Z.abs (Qnum q)) / inject_Z (Zpos (Qden q))) as Eq.
  { destruct q as [n d]. cbn [Qabs Qnum Qden]. apply Qmake_Qdiv. }
  assert (0 < inject_Z (Zpos (Qden q))) as Pd.
  { change 0 with (inject_Z 0). rewrite <- Zlt_Qlt. apply Pos2Z.is_pos. }
  replace (a - b - 1)%Z with (a + - (b + 1))%Z by lia.
  rewrite pow2_add. unfold Binary64.pow2 at 2. rewrite Qpower_opp.
  fold (Binary64.pow2 (b + 1)). rewrite Eq.
  pose proof (pow2_pos a). pose proof (pow2_pos (b + 1)).
  fold (Qdiv (Binary64.pow2 a) (Binary64.pow2 (b + 1))).
  apply Qle_shift_div_l; [exact Pd |].
  apply (Qle_trans _ (Binary64.pow2 a / Binary64.pow2 (b + 1) * Binary64.pow2 (b + 1))).
  - apply Qmult_le_l; [| exact Qb]. apply Qlt_shift_div_l; lra.
  - field_simplify; [lra | lra].
Qed.

Lemma binade_upper (q : Q) : ~ q == 0 -> Qabs q < Binary64.pow2 (Binary64.binade q + 1).
Proof.
  intros N. unfold Binary64.binade.
  set (a := Z.log2 (Z.abs (Qnum q))). set (b := Z.log2 (Zpos (Qden q))).
  destruct (Qle_bool (Binary64.pow2 (a - b)) (Qabs q)) eqn:E.
  2: { replace (a - b - 1 + 1)%Z with (a - b)%Z by lia.
       apply Qnot_le_lt. intros H. apply Qle_bool_iff in H. congruence. }
  assert (0 < Z.abs (Qnum q))%Z as Pn.
  { destruct q as [n d]. unfold Qeq in N. cbn in *. lia. }
  pose proof (proj2 (Z.log2_spec _ Pn)) as La. fold a in La.
  pose proof (proj1 (Z.log2_spec (Zpos (Qden q)) (Pos2Z.is_pos _))) as Lb. fold b in Lb.
  assert (0 <= a)%Z as Pa by apply Z.log2_nonneg.
  assert (0 <= b)%Z as Pb by apply Z.log2_nonneg.
  assert (inject_Z (Z.abs (Qnum q)) < Binary64.pow2 (a + 1)) as Qa.
  { rewrite <- pow2_inject by lia. rewrite <- Zlt_Qlt. unfold Z.succ in La. exact La. }
  assert (Binary64.pow2 b <= inject_Z (Zpos (Qden q))) as Qb.
  { rewrite <- pow2_inject by exact Pb. rewrite <- Zle_Qle. exact Lb. }
  assert (Qabs q == inject_Z (Z.abs (Qnum q)) / inject_Z (Zpos (Qden q))) as Eq.
  { destruct q as [n d]. cbn [Qabs Qnum Qden]. apply Qmake_Qdiv. }
  pose proof (pow2_pos b) as P2b. pose proof (pow2_pos (a + 1)) as P2a.
  assert (0 < inject_Z (Zpos (Qden q))) as Pd by lra.
  replace (a - b + 1)%Z with ((a + 1) + - b)%Z by lia.
  rewrite pow2_add. unfold Binary64.pow2 at 2. rewrite Qpower_opp.
  fold (Binary64.pow2 b). fold (Qdiv (Binary64.pow2 (a + 1)) (Binary64.pow2 b)).
  rewrite Eq. apply Qlt_shift_div_r; [exact Pd |].
  apply (Qlt_le_trans _ (Binary64.pow2 (a + 1))); [exact Qa |].
  apply (Qle_trans _ (Binary64.pow2 (a + 1) / Binary64.pow2 b * Binary64.pow2 b)).
  - field_simplify; [lra | lra].
  - apply Qmult_le_l; [| exact Qb]. apply Qlt_shift_div_l; lra.
Qed.

End Pow2.

Section Nearest.

Lemma ulp_pos (q : Q) : 0 < Binary64.ulp q.
Proof. apply pow2_pos. Qed.

Lemma nearest_zero (q : Q) : q == 0 -> Binary64.nearest q = 0.
Proof.
  intros E. unfold Binary64.nearest. apply Qeq_bool_iff in E. rewrite E. reflexivity.
Qed.

(** The result is within half a unit in the last place. *)
Lemma nearest_half_ulp (q : Q) :
  ~ q == 0 ->
  q - Binary64.ulp q / 2 <= Binary64.nearest q <= q + Binary64.ulp q / 2.
Proof.
  intros N. unfold Binary64.nearest.
  destruct (Qeq_bool q 0) eqn:E; [apply Qeq_bool_iff in E; contradiction |].
  rewrite Qred_correct.
  pose proof (ulp_pos q) as U. set (u := Binary64.ulp q) in *.
  pose proof (round_half_even_near (q / u)) as [Lo Hi].
  set (m := inject_Z (Py.round_half_even (q / u))) in *.
  split.
  - assert (q - u / 2 == (q / u - (1 # 2)) * u) as E1 by (field; lra).
    rewrite E1. apply Qmult_le_compat_r; lra.
  - assert (q + u / 2 == (q / u + (1 # 2)) * u) as E2 by (field; lra).
    rewrite E2. apply Qmult_le_compat_r; lra.
Qed.

(** Half a unit in the last place is a relative 2^-53 in the normal range
    and 2^-1075 below it. *)
Lemma half_ulp_bound (q : Q) :
  ~ q == 0 ->
  Binary64.ulp q / 2 <= (1 # 9007199254740992) * Qabs q + Binary64.pow2 (-1075).
Proof.
  intros N. unfold Binary64.ulp.
  pose proof (binade_lower q N) as B.
  pose proof (pow2_pos (-1075)) as T.
  pose proof (pow2_pos (Binary64.binade q)) as Pb.
  destruct (Z.max_spec (Binary64.binade q) (-1022)) as [[L ->] | [L ->]].
  - change (Binary64.pow2 (-1022 - 52) / 2) with (Binary64.pow2 (-1074) / 2).
    assert (Binary64.pow2 (-1074) / 2 == Binary64.pow2 (-1075)) as E by reflexivity.
    rewrite E.
    assert (0 <= Qabs q) by apply Qabs_nonneg. lra.
  - replace (Binary64.binade q - 52)%Z with (Binary64.binade q + -52)%Z by lia.
    rewrite pow2_add.
    assert (Binary64.pow2 (-52) / 2 == 1 # 9007199254740992) as E by reflexivity.
    assert (Binary64.pow2 (Binary64.binade q) * Binary64.pow2 (-52) / 2
            == (1 # 9007199254740992) * Binary64.pow2 (Binary64.binade q)) as E'.
    { unfold Qdiv. rewrite <- Qmult_assoc. fold (Qdiv (Binary64.pow2 (-52)) 2).
      rewrite E. ring. }
    rewrite E'. lra.
Qed.

Lemma pow2_m1075_small :
  (1 # 9007199254740992) + Binary64.pow2 (-1075) <= 1 # 9000000000000000.
Proof. apply Qle_bool_iff. vm_compute. reflexivity. Qed.

(** For a result of magnitude at most M, with M at least 1, the rounding
    error is at most M / 9e15, a little over M * 2^-53. *)
Lemma nearest_close (M q : Q) :
  1 <= M -> - M <= q <= M ->
  - (M * (1 # 9000000000000000)) <= Binary64.nearest q - q <= M * (1 # 9000000000000000).
Proof.
  intros HM [Lo Hi].
  destruct (Qeq_dec q 0) as [Z | N].
  - rewrite (nearest_zero q Z). lra.
  - pose proof (nearest_half_ulp q N) as [A B].
    pose proof (half_ulp_bound q N) as H.
    pose proof pow2_m1075_small as T.
    assert (Qabs q <= M) as Ab by (apply Qabs_Qle_condition; lra).
    lra.
Qed.

(** The same for the double an operation returns, which is finite as long
    as M is in range. *)
Lemma rnd_close (M q : Q) :
  1 <= M -> 2 * M < Binary64.pow2 1024 -> - M <= q <= M ->
  exists r,
    Binary64.rnd (np.Fin q) = np.Fin r
    /\ r = Binary64.nearest q
    /\ - (M * (1 # 9000000000000000)) <= r - q <= M * (1 # 9000000000000000).
Proof.
  intros HM Big B. pose proof (nearest_close M q HM B) as C.
  exists (Binary64.nearest q). split; [| split; [reflexivity | exact C]].
  unfold Binary64.rnd. cbv zeta.
  destruct (Qle_bool (Binary64.pow2 1024) (Qabs (Binary64.nearest q))) eqn:E; [| reflexivity].
  exfalso. apply Qle_bool_iff in E.
  assert (Qabs (Binary64.nearest q) <= 2 * M) as A by (apply Qabs_Qle_condition; lra).
  lra.
Qed.

End Nearest.

(** ** IndicatorEngine: CPR *)

(** Linear arithmetic after the divisions by 2, 3 and 6 are made products. *)
Ltac lra_div :=
  unfold Qdiv in *;
  change (/ 2) with (1 # 2) in *;
  change (/ 3) with (1 # 3) in *;
  change (/ 6) with (1 # 6) in *;
  lra.

Lemma binary64_range (M : Q) : M <= 100000000000 -> 2 * M < Binary64.pow2 1024.
Proof.
  intros H.
  assert (200000000000 < Binary64.pow2 1024) as B by (vm_compute; reflexivity).
  lra.
Qed.

(** What [round(x, 2)] returns for a double of magnitude at most 4e9. *)
Lemma round2_binary64 (x : Q) :
  - (4000000000) <= x <= 4000000000 ->
  exists r,
    Binary64.round2 (np.Fin x) = np.Fin r
    /\ r = Binary64.nearest (Py.round2 x)
    /\ - (1 # 1000000) <= r - Py.round2 x <= 1 # 1000000.
Proof.
  intros B. pose proof (round2_near x) as N.
  unfold Binary64.round2. cbn [np.round2].
  destruct (rnd_close 4000000001 (Py.round2 x)) as [r [E [R C]]];
    [lra | apply binary64_range; lra | lra |].
  exists r. split; [exact E | split; [exact R | lra]].
Qed.

Section CPRBinary64.

Variables high low close : Q.
Hypothesis high_bound : Qabs high <= 1000000000.
Hypothesis low_bound : Qabs low <= 1000000000.
Hypothesis close_bound : Qabs close <= 1000000000.

(** The three doubles before they are rounded to two decimals, against the
    exact values of the formulas. *)
Lemma calculate_cpr_binary64 :
  exists p b t : Q,
    Binary64.IndicatorCalculator.calculate_cpr (np.Fin high) (np.Fin low) (np.Fin close)
    = {| Binary64.CPR.pivot := np.Fin (Binary64.nearest (Py.round2 p));
         Binary64.CPR.bc := np.Fin (Binary64.nearest (Py.round2 b));
         Binary64.CPR.tc := np.Fin (Binary64.nearest (Py.round2 t)) |}
    /\ - (1 # 1000000) <= p - (high + low + close) / 3 <= 1 # 1000000
    /\ - (1 # 1000000) <= b - (high + low) / 2 <= 1 # 1000000
    /\ - (1 # 1000000) <= t - ((p - b) + p) <= 1 # 1000000
    /\ - (4000000000) <= p <= 4000000000
    /\ - (4000000000) <= b <= 4000000000
    /\ - (4000000000) <= t <= 4000000000.
Proof.
  apply Qabs_Qle_condition in high_bound, low_bound, close_bound.
  destruct (rnd_close 2000000000 (high + low)) as [s1 [E1 [_ B1]]];
    [lra | apply binary64_range; lra | lra |].
  destruct (rnd_close 3000000001 (s1 + close)) as [s2 [E2 [_ B2]]];
    [lra | apply binary64_range; lra | lra |].
  destruct (rnd_close 1000000001 (s2 / 3)) as [p [Ep [_ Bp]]];
    [lra | apply binary64_range; lra | lra_div |].
  destruct (rnd_close 1000000001 (s1 / 2)) as [b [Eb [_ Bb]]];
    [lra | apply binary64_range; lra | lra_div |].
  assert (- (1000000002) <= p <= 1000000002) as Mp by lra_div.
  assert (- (1000000002) <= b <= 1000000002) as Mb by lra_div.
  destruct (rnd_close 2000000004 (p + - b)) as [d [Ed [_ Bd]]];
    [lra | apply binary64_range; lra | lra |].
  destruct (rnd_close 3000000007 (d + p)) as [t [Et [_ Bt]]];
    [lra | apply binary64_range; lra | lra |].
  assert (- (4000000000) <= p <= 4000000000) as Rp by lra.
  assert (- (4000000000) <= b <= 4000000000) as Rb by lra.
  assert (- (4000000000) <= t <= 4000000000) as Rt by lra.
  destruct (round2_binary64 p Rp) as [rp [Erp [-> _]]].
  destruct (round2_binary64 b Rb) as [rb [Erb [-> _]]].
  destruct (round2_binary64 t Rt) as [rt [Ert [-> _]]].
  exists p, b, t.
  split; [| repeat split; try lra; lra_div].
  unfold Binary64.IndicatorCalculator.calculate_cpr,
    Binary64.add, Binary64.sub, Binary64.div. cbv zeta.
  cbn [np.add]. rewrite E1. cbn [np.add]. rewrite E2.
  cbn [np.div np.of_int].
  change (Qeq_bool (inject_Z 3) 0) with false. change (Qeq_bool (inject_Z 2) 0) with false.
  cbv iota. change (inject_Z 3) with 3. change (inject_Z 2) with 2.
  rewrite Ep, Eb. cbn [np.sub np.neg np.add]. rewrite Ed. cbn [np.add]. rewrite Et.
  rewrite Erp, Erb, Ert. reflexivity.
Qed.

End CPRBinary64.

Lemma round2_binary64_near (x : Q) :
  - (4000000000) <= x <= 4000000000 ->
  x - (5001 # 1000000) <= Binary64.nearest (Py.round2 x) <= x + (5001 # 1000000).
Proof.
  intros B. pose proof (round2_near x) as N.
  pose proof (nearest_close 4000000001 (Py.round2 x) ltac:(lra) ltac:(lra)) as C.
  lra.
Qed.

(** The doubles of the code against the rationals of exact arithmetic: with
    high 101.035, low 99.035 and close 100.035 the three levels are equal
    before rounding in exact arithmetic, and the code returns 100.04, 100.03
    and 100.04. *)
Example calculate_cpr_in_doubles :
  Binary64.IndicatorCalculator.calculate_cpr
    (Binary64.of_Q 101.035) (Binary64.of_Q 99.035) (Binary64.of_Q 100.035)
  = {| Binary64.CPR.pivot := Binary64.of_Q 100.04;
       Binary64.CPR.bc := Binary64.of_Q 100.03;
       Binary64.CPR.tc := Binary64.of_Q 100.04 |}
  /\ IndicatorCalculator.calculate_cpr 101.035 99.035 100.035
     = {| CPR.pivot := 10004 # 100; CPR.bc := 10004 # 100; CPR.tc := 10004 # 100 |}.
Proof. split; vm_compute; reflexivity. Qed.

(** C6, as stated, fails: with high 100, low 99 and close 100 the levels
    returned are the doubles 99.67, 99.5 and 99.83; tc - pivot and
    pivot - bc are different doubles, about 0.16 and 0.17. *)
Lemma cpr_rounded_not_symmetric :
  let r := Binary64.IndicatorCalculator.calculate_cpr
             (Binary64.of_Q 100) (Binary64.of_Q 99) (Binary64.of_Q 100) in
  r = {| Binary64.CPR.pivot := Binary64.of_Q 99.67;
         Binary64.CPR.bc := Binary64.of_Q 99.5;
         Binary64.CPR.tc := Binary64.of_Q 99.83 |}
  /\ Binary64.sub (Binary64.CPR.tc r) (Binary64.CPR.pivot r)
     <> Binary64.sub (Binary64.CPR.pivot r) (Binary64.CPR.bc r)
  /\ (Binary64.nearest 99.67 - Binary64.nearest 99.5)
     - (Binary64.nearest 99.83 - Binary64.nearest 99.67) > 99 # 10000.
Proof.
  cbv zeta. split; [vm_compute; reflexivity | split].
  - vm_compute. intros H. discriminate H.
  - vm_compute. reflexivity.
Qed.

(** C6, amended.  For every high, low and close of magnitude at most 1e9
    the three levels [calculate_cpr] returns are finite and symmetric up to
    the rounding of each to two decimals and the rounding of binary64:
    |(tc - pivot) - (pivot - bc)| <= 0.02001.  (The inputs range over all
    finite values, so over all doubles of that magnitude.) *)
Theorem cpr_symmetric_up_to_rounding (high low close : Q) :
  Qabs high <= 1000000000 -> Qabs low <= 1000000000 -> Qabs close <= 1000000000 ->
  exists pivot bc tc : Q,
    Binary64.IndicatorCalculator.calculate_cpr (np.Fin high) (np.Fin low) (np.Fin close)
    = {| Binary64.CPR.pivot := np.Fin pivot;
         Binary64.CPR.bc := np.Fin bc;
         Binary64.CPR.tc := np.Fin tc |}
    /\ Qabs ((tc - pivot) - (pivot - bc)) <= 2001 # 100000.
Proof.
  intros Hh Hl Hc.
  destruct (calculate_cpr_binary64 high low close Hh Hl Hc)
    as [p [b [t [E [_ [_ [Dt [Rp [Rb Rt]]]]]]]]].
  pose proof (round2_binary64_near p Rp). pose proof (round2_binary64_near b Rb).
  pose proof (round2_binary64_near t Rt).
  eexists _, _, _. split; [exact E |].
  apply Qabs_Qle_condition. lra.
Qed.

Lemma cpr_symmetric_up_to_rounding_witness :
  exists pivot bc tc : Q,
    Binary64.IndicatorCalculator.calculate_cpr
      (Binary64.of_Q 5675.651) (Binary64.of_Q 5653.599) (Binary64.of_Q 5666.875)
    = {| Binary64.CPR.pivot := np.Fin pivot;
         Binary64.CPR.bc := np.Fin bc;
         Binary64.CPR.tc := np.Fin tc |}
    /\ Qabs ((tc - pivot) - (pivot - bc)) <= 2001 # 100000.
Proof.
  apply (cpr_symmetric_up_to_rounding
           (Binary64.nearest 5675.651) (Binary64.nearest 5653.599)
           (Binary64.nearest 5666.875));
    apply Qle_bool_iff; vm_compute; reflexivity.
Defined.

(** The allowance above 0.02 is needed: on these inputs the returned levels
    are 5665.38, 5664.62 and 5666.12 as doubles, and the two differences
    are more than 0.02 apart. *)
Example cpr_asymmetry_above_two_hundredths :
  let r := Binary64.IndicatorCalculator.calculate_cpr
             (Binary64.of_Q 5675.651) (Binary64.of_Q 5653.599) (Binary64.of_Q 5666.875) in
  r = {| Binary64.CPR.pivot := Binary64.of_Q 5665.38;
         Binary64.CPR.bc := Binary64.of_Q 5664.62;
         Binary64.CPR.tc := Binary64.of_Q 5666.12 |}
  /\ 2 # 100 < (Binary64.nearest 5665.38 - Binary64.nearest 5664.62)
               - (Binary64.nearest 5666.12 - Binary64.nearest 5665.38).
Proof. cbv zeta. split; vm_compute; reflexivity. Qed.

(** ** IndicatorEngine: VWAP *)

Section VWAP.

Variables prices volumes : list Q.

Lemma calculate_vwap_degenerate :
  Py.len prices <> Py.len volumes \/ prices = [] ->
  IndicatorCalculator.calculate_vwap prices volumes = Ok 0.
Proof.
  intros H. unfold IndicatorCalculator.calculate_vwap.
  destruct H as [H | ->].
  - apply Z.eqb_neq in H. rewrite H. reflexivity.
  - cbn. rewrite orb_true_r. reflexivity.
Qed.

Let price_volume := map (fun pv => fst pv * snd pv) (combine prices volumes).

Lemma calculate_vwap_guard_passed :
  Py.len prices = Py.len volumes -> prices <> [] ->
  IndicatorCalculator.calculate_vwap prices volumes =
  (q <- Py.truediv (Py.sum price_volume) (Py.sum volumes) ;; ret (Py.round2 q)).
Proof.
  intros E N. unfold IndicatorCalculator.calculate_vwap.
  rewrite E, Z.eqb_refl. cbn [negb orb].
  destruct (Z.eqb_spec (Py.len volumes) 0) as [Z | _]; [| reflexivity].
  exfalso. rewrite <- E in Z. unfold Py.len in Z.
  destruct prices; [congruence | discriminate Z].
Qed.

Lemma calculate_vwap_value :
  Py.len prices = Py.len volumes -> prices <> [] -> ~ Py.sum volumes == 0 ->
  IndicatorCalculator.calculate_vwap prices volumes =
  Ok (Py.round2 (Py.sum price_volume / Py.sum volumes)).
Proof.
  intros E N V. rewrite (calculate_vwap_guard_passed E N).
  unfold Py.truediv.
  destruct (Qeq_bool (Py.sum volumes) 0) eqn:B; [| reflexivity].
  apply Qeq_bool_iff in B. contradiction.
Qed.

(** With series of equal, non-zero length whose volumes add up to zero the
    division raises. *)
Lemma calculate_vwap_raises :
  Py.len prices = Py.len volumes -> prices <> [] -> Py.sum volumes == 0 ->
  IndicatorCalculator.calculate_vwap prices volumes = Raise ZeroDivisionError.
Proof.
  intros E N V. rewrite (calculate_vwap_guard_passed E N).
  unfold Py.truediv. apply Qeq_bool_iff in V. rewrite V. reflexivity.
Qed.

End VWAP.

(** C5.  The code at two samples that traded no volume: the guard lets the
    series through and the division raises, where the claim has a value
    returned for every input. *)
Theorem calculate_vwap_zero_volume_raises :
  IndicatorCalculator.calculate_vwap [100; 101] [0; 0] = Raise ZeroDivisionError.
Proof. reflexivity. Qed.

(** ** IndicatorEngine: RSI *)

Section Sequences.

Lemma sum_from (l : list Q) (a : Q) : fold_left Qplus l a == a + Py.sum l.
Proof.
  unfold Py.sum. revert a.
  induction l as [| x l IH]; intros a; cbn.
  - ring.
  - rewrite (IH (a + x)), (IH (0 + x)). ring.
Qed.

Lemma sum_cons (x : Q) (l : list Q) : Py.sum (x :: l) == x + Py.sum l.
Proof. unfold Py.sum at 1. cbn. rewrite sum_from. ring. Qed.

Lemma sum_nonneg (l : list Q) : Forall (fun x => 0 <= x) l -> 0 <= Py.sum l.
Proof.
  induction 1 as [| x l Hx _ IH].
  - unfold Py.sum; cbn. lra.
  - rewrite sum_cons. lra.
Qed.

Lemma sum_zero (l : list Q) : Forall (fun x => x == 0) l -> Py.sum l == 0.
Proof.
  induction 1 as [| x l Hx _ IH].
  - reflexivity.
  - rewrite sum_cons. lra.
Qed.

Lemma diff_length (l : list Q) : List.length (np.diff l) = pred (List.length l).
Proof.
  induction l as [| x [| y t] IH]; try reflexivity.
  change (np.diff (x :: y :: t)) with ((y - x) :: np.diff (y :: t)).
  cbn [List.length]. rewrite IH. reflexivity.
Qed.

Lemma range_bounds (a b : Z) : Forall (fun i => (a <= i < b)%Z) (Py.range a b).
Proof.
  apply Forall_forall. intros i H. unfold Py.range in H.
  apply in_map_iff in H. destruct H as [k [<- H]].
  apply in_seq in H. lia.
Qed.

Lemma index_in_range {A : Type} (l : list A) (i : Z) :
  (0 <= i < Py.len l)%Z -> exists x, Py.index l i = Ok x /\ In x l.
Proof.
  intros H. unfold Py.index.
  destruct (Z.ltb_spec i 0) as [N | _]; [lia |].
  destruct (Z.ltb_spec i 0) as [N | _]; [lia |].
  destruct (nth_error l (Z.to_nat i)) as [x |] eqn:E.
  - exists x. split; [reflexivity | eapply nth_error_In; eassumption].
  - apply nth_error_None in E. unfold Py.len in H. lia.
Qed.

(** A leading slice of positive width within the list has that width. *)
Lemma slice_to_length {A : Type} (l : list A) (k : Z) :
  (0 <= k <= Py.len l)%Z -> Py.len (Py.slice_to l k) = k.
Proof.
  intros H. unfold Py.slice_to.
  destruct (Z.ltb_spec k 0) as [N | _]; [lia |].
  unfold Py.len in *. rewrite firstn_length_le; lia.
Qed.

Lemma slice_to_Forall {A : Type} (P : A -> Prop) (l : list A) (k : Z) :
  Forall P l -> Forall P (Py.slice_to l k).
Proof.
  intros H. unfold Py.slice_to.
  generalize (Z.to_nat (if (k <? 0)%Z then (Py.len l + k)%Z else k)). intros n.
  revert n. induction H as [| x l Hx _ IH]; intros [| n]; cbn; auto.
Qed.

End Sequences.

Section Numpy.

(** The mean of a non-empty array is its sum over its length. *)
Lemma mean_finite (l : list Q) :
  (0 < Py.len l)%Z -> np.mean l = np.Fin (Py.sum l / inject_Z (Py.len l)).
Proof.
  intros H. unfold np.mean, np.div, np.of_int.
  destruct (Qeq_bool (inject_Z (Py.len l)) 0) eqn:E; [| reflexivity].
  apply Qeq_bool_iff in E. rewrite Zlt_Qlt in H. change (inject_Z 0) with 0 in H. lra.
Qed.

Lemma Zpos_Q (z : Z) : (1 <= z)%Z -> 1 <= inject_Z z.
Proof. intros H. change 1 with (inject_Z 1). rewrite <- Zle_Qle. exact H. Qed.

Lemma of_int_not_zero (z : Z) : (1 <= z)%Z -> Qeq_bool (inject_Z z) 0 = false.
Proof.
  intros H. pose proof (Zpos_Q z H).
  destruct (Qeq_bool (inject_Z z) 0) eqn:E; [| reflexivity].
  apply Qeq_bool_iff in E. lra.
Qed.

(** One smoothing update on a finite average, for a period of at least 1. *)
Lemma smooth_finite (period : Z) (a x : Q) :
  (1 <= period)%Z ->
  IndicatorCalculator.smooth period (np.Fin a) x =
  np.Fin ((a * inject_Z (period - 1) + x) / inject_Z period).
Proof.
  intros H. unfold IndicatorCalculator.smooth, np.of_int. cbn.
  rewrite (of_int_not_zero period H). reflexivity.
Qed.

End Numpy.

Section SmoothingLoop.

Variable period : Z.
Hypothesis period_positive : (1 <= period)%Z.

Variables gains losses : list Q.
Hypothesis same_length : Py.len losses = Py.len gains.

(** What is known of every gain, of every loss, and kept by the averages. *)
Variables G L : Q -> Prop.
Hypothesis gains_G : Forall G gains.
Hypothesis losses_L : Forall L losses.
Hypothesis smooth_G : forall a x, G a -> G x ->
  G ((a * inject_Z (period - 1) + x) / inject_Z period).
Hypothesis smooth_L : forall a x, L a -> L x ->
  L ((a * inject_Z (period - 1) + x) / inject_Z period).

(** The loop neither raises nor leaves the finite values, and keeps [G] and
    [L], as long as its indices stay inside the arrays. *)
Lemma smoothing_loop_invariant (indices : list Z) :
  Forall (fun i => (0 <= i < Py.len gains)%Z) indices ->
  forall avg_gain avg_loss,
    finite G avg_gain -> finite L avg_loss ->
    exists avg_gain' avg_loss',
      fold_left (IndicatorCalculator.rsi_step period gains losses) indices
        (Ok (avg_gain, avg_loss)) = Ok (avg_gain', avg_loss')
      /\ finite G avg_gain' /\ finite L avg_loss'.
Proof.
  induction 1 as [| i indices Hi _ IH]; intros avg_gain avg_loss Hg Hl.
  - exists avg_gain, avg_loss. auto.
  - destruct Hg as [a [-> Ha]]. destruct Hl as [b [-> Hb]].
    destruct (index_in_range gains i Hi) as [g [Eg Ig]].
    assert (0 <= i < Py.len losses)%Z as Hi' by (rewrite same_length; exact Hi).
    destruct (index_in_range losses i Hi') as [l [El Il]].
    cbn [fold_left]. unfold IndicatorCalculator.rsi_step at 2.
    cbn [bind Monad_pyresult ret fst snd]. rewrite Eg, El.
    rewrite !smooth_finite by exact period_positive.
    apply IH.
    + eexists; split; [reflexivity |]. apply smooth_G; [exact Ha |].
      exact (proj1 (Forall_forall G gains) gains_G g Ig).
    + eexists; split; [reflexivity |]. apply smooth_L; [exact Hb |].
      exact (proj1 (Forall_forall L losses) losses_L l Il).
Qed.

End SmoothingLoop.

Section RSI.

Variable prices : list Q.
Variable period : Z.

Let deltas := np.diff prices.
Let gains := map (fun d => if Py.gt d 0 then d else 0) deltas.
Let losses := map (fun d => if Py.lt d 0 then - d else 0) deltas.

Lemma calculate_rsi_short :
  (Py.len prices < period + 1)%Z ->
  IndicatorCalculator.calculate_rsi prices period = Ok (np.Fin 50).
Proof.
  intros H. unfold IndicatorCalculator.calculate_rsi.
  apply Z.ltb_lt in H. rewrite H. reflexivity.
Qed.

Lemma calculate_rsi_long :
  (period + 1 <= Py.len prices)%Z ->
  IndicatorCalculator.calculate_rsi prices period =
  (avgs <- fold_left (IndicatorCalculator.rsi_step period gains losses)
             (Py.range period (Py.len deltas))
             (Ok (np.mean (Py.slice_to gains period), np.mean (Py.slice_to losses period))) ;;
   rsi_of_averages avgs).
Proof.
  intros H. unfold IndicatorCalculator.calculate_rsi.
  destruct (Z.ltb_spec (Py.len prices) (period + 1)) as [N | _]; [lia |].
  reflexivity.
Qed.

Lemma gains_length : Py.len gains = Z.max 0 (Py.len prices - 1).
Proof.
  unfold Py.len, gains, deltas. rewrite length_map, diff_length. lia.
Qed.

Lemma losses_length : Py.len losses = Py.len gains.
Proof. unfold Py.len, losses, gains. rewrite !length_map. reflexivity. Qed.

Lemma deltas_length : Py.len deltas = Py.len gains.
Proof. unfold Py.len, gains. rewrite length_map. reflexivity. Qed.

Hypothesis period_positive : (1 <= period)%Z.
Hypothesis enough_prices : (period + 1 <= Py.len prices)%Z.

Lemma period_within_gains : (1 <= period <= Py.len gains)%Z.
Proof.
  rewrite gains_length. lia.
Qed.

(** The seed of an average: the mean of the first [period] values. *)
Lemma seed_finite (P : Q -> Prop) (xs : list Q) :
  Py.len xs = Py.len gains ->
  (forall l, Forall P l -> P (Py.sum l / inject_Z period)) ->
  Forall P xs ->
  finite P (np.mean (Py.slice_to xs period)).
Proof.
  intros E HP F. pose proof period_within_gains as W.
  assert (Py.len (Py.slice_to xs period) = period) as S
    by (apply slice_to_length; lia).
  rewrite mean_finite by lia. rewrite S.
  eexists. split; [reflexivity |]. apply HP. apply slice_to_Forall. exact F.
Qed.

(** With enough prices and a period of at least 1 the loop ends without
    raising, on finite averages that keep what the gains and losses
    satisfy. *)
Lemma averages_finite (G L : Q -> Prop) :
  Forall G gains -> Forall L losses ->
  (forall l, Forall G l -> G (Py.sum l / inject_Z period)) ->
  (forall l, Forall L l -> L (Py.sum l / inject_Z period)) ->
  (forall a x, G a -> G x -> G ((a * inject_Z (period - 1) + x) / inject_Z period)) ->
  (forall a x, L a -> L x -> L ((a * inject_Z (period - 1) + x) / inject_Z period)) ->
  exists avg_gain avg_loss,
    IndicatorCalculator.calculate_rsi prices period =
      rsi_of_averages (np.Fin avg_gain, np.Fin avg_loss)
    /\ G avg_gain /\ L avg_loss.
Proof.
  intros FG FL MG ML SG SL.
  rewrite (calculate_rsi_long enough_prices).
  destruct (smoothing_loop_invariant period period_positive gains losses
              losses_length G L FG FL SG SL (Py.range period (Py.len deltas)))
    with (avg_gain := np.mean (Py.slice_to gains period))
         (avg_loss := np.mean (Py.slice_to losses period))
    as [ag [al [E [[a [-> Ha]] [b [-> Hb]]]]]].
  - rewrite deltas_length.
    eapply Forall_impl; [| apply range_bounds]. cbn. intros i Hi. lia.
  - apply seed_finite; auto.
  - apply seed_finite; auto using losses_length.
  - rewrite E. exists a, b. auto.
Qed.

End RSI.

Section Averages.

Variable period : Z.
Hypothesis period_positive : (1 <= period)%Z.

Lemma mean_nonneg (l : list Q) :
  Forall (fun x => 0 <= x) l -> 0 <= Py.sum l / inject_Z period.
Proof.
  intros F. pose proof (sum_nonneg l F). pose proof (Zpos_Q period period_positive).
  apply Qle_shift_div_l; lra.
Qed.

Lemma smooth_nonneg (a x : Q) :
  0 <= a -> 0 <= x -> 0 <= (a * inject_Z (period - 1) + x) / inject_Z period.
Proof.
  intros Ha Hx. pose proof (Zpos_Q period period_positive).
  assert (0 <= inject_Z (period - 1)) as K.
  { change 0 with (inject_Z 0). rewrite <- Zle_Qle. lia. }
  pose proof (Qmult_le_0_compat _ _ Ha K).
  apply Qle_shift_div_l; lra.
Qed.

Lemma mean_zero (l : list Q) :
  Forall (fun x => x == 0) l -> Py.sum l / inject_Z period == 0.
Proof.
  intros F. rewrite (sum_zero l F). pose proof (Zpos_Q period period_positive).
  field. lra.
Qed.

Lemma smooth_zero (a x : Q) :
  a == 0 -> x == 0 -> (a * inject_Z (period - 1) + x) / inject_Z period == 0.
Proof.
  intros -> ->. pose proof (Zpos_Q period period_positive). field. lra.
Qed.

End Averages.

Lemma gains_nonneg (deltas : list Q) :
  Forall (fun x => 0 <= x) (map (fun d => if Py.gt d 0 then d else 0) deltas).
Proof.
  apply Forall_forall. intros x H. apply in_map_iff in H. destruct H as [d [<- _]].
  unfold Py.gt. destruct (lt_spec 0 d); lra.
Qed.

Lemma losses_nonneg (deltas : list Q) :
  Forall (fun x => 0 <= x) (map (fun d => if Py.lt d 0 then - d else 0) deltas).
Proof.
  apply Forall_forall. intros x H. apply in_map_iff in H. destruct H as [d [<- _]].
  destruct (lt_spec d 0); lra.
Qed.

(** The deltas of a rising series are gains. *)
Lemma rising_deltas (prices : list Q) :
  strictly_increasing prices -> Forall (fun d => 0 < d) (np.diff prices).
Proof.
  induction prices as [| x [| y t] IH]; intros H; try constructor.
  - destruct H as [H _]. lra.
  - apply IH. exact (proj2 H).
Qed.

Lemma rising_losses (prices : list Q) :
  strictly_increasing prices ->
  Forall (fun x => x == 0) (map (fun d => if Py.lt d 0 then - d else 0) (np.diff prices)).
Proof.
  intros H. apply Forall_forall. intros x I. apply in_map_iff in I.
  destruct I as [d [<- I]].
  pose proof (proj1 (Forall_forall _ _) (rising_deltas prices H) d I) as P. cbn in P.
  destruct (lt_spec d 0); [lra | reflexivity].
Qed.

(** The closing formula on finite averages, the loss one not zero. *)
Lemma rsi_formula_range (a b : Q) :
  0 <= a -> 0 <= b -> ~ b == 0 ->
  exists q, rsi_of_averages (np.Fin a, np.Fin b) = Ok (np.Fin q) /\ 0 <= q <= 100.
Proof.
  intros Ha Hb Nb.
  assert (0 < b) as Pb by lra.
  assert (0 <= a / b) as Rs by (apply Qle_shift_div_l; lra).
  assert (Qeq_bool b 0 = false) as Eb.
  { destruct (Qeq_bool b 0) eqn:E; [apply Qeq_bool_iff in E; contradiction | reflexivity]. }
  assert (Qeq_bool (inject_Z 1 + a / b) 0 = false) as Ed.
  { destruct (Qeq_bool (inject_Z 1 + a / b) 0) eqn:E; [| reflexivity].
    apply Qeq_bool_iff in E. change (inject_Z 1) with 1 in E. lra. }
  unfold rsi_of_averages, np.is_zero, np.of_int. cbn [fst snd].
  rewrite Eb. cbn [np.div np.add np.sub np.neg np.round2]. rewrite Eb, Ed.
  cbn [np.add np.round2].
  eexists. split; [reflexivity |].
  change (inject_Z 100) with 100. change (inject_Z 1) with 1.
  set (d := 1 + a / b). assert (1 <= d) as Hd by (unfold d; lra).
  assert (0 <= 100 / d) as Lo by (apply Qle_shift_div_l; lra).
  assert (100 / d <= 100) as Hi by (apply Qle_shift_div_r; lra).
  split.
  - apply (Qle_trans _ (0 # 100)); [lra |]. apply round2_lower.
    change (inject_Z 0) with 0. lra.
  - apply (Qle_trans _ (10000 # 100)); [| lra]. apply round2_upper.
    change (inject_Z 10000) with 10000. lra.
Qed.

(** C4, as stated, fails: with period 0 and two prices the seed is the mean
    of an empty slice, and the result is nan, not a number of [0, 100]. *)
Lemma calculate_rsi_period_zero_nan :
  IndicatorCalculator.calculate_rsi [100; 101] 0 = Ok np.NaN
  /\ ~ (exists q, IndicatorCalculator.calculate_rsi [100; 101] 0 = Ok (np.Fin q)
                  /\ 0 <= q <= 100).
Proof.
  split; [reflexivity |].
  intros [q [H _]]. discriminate H.
Qed.

(** A negative period is no better: the slice and the indices wrap around,
    and the result can leave the range or the call can raise. *)
Example calculate_rsi_negative_period :
  IndicatorCalculator.calculate_rsi [3; 1; 2] (-1) = Ok (np.Fin (-7143 # 100))
  /\ IndicatorCalculator.calculate_rsi [] (-1) = Raise IndexError.
Proof. split; reflexivity. Qed.

(** C4, amended.  [calculate_rsi] returns exactly 50.0 whenever the series
    is shorter than period + 1, and for every period of at least 1 it
    returns a number in [0, 100] for every series of prices of magnitude at
    most 1e100.  The bound is what the doubles of the code need: nearer
    the top of their range a difference or an average overflows, and the
    result is nan (an infinity times the zero of period - 1, or an infinity
    divided by an infinity). *)
Theorem calculate_rsi_range (prices : list Q) (period : Z) :
  ((Py.len prices < period + 1)%Z ->
   IndicatorCalculator.calculate_rsi prices period = Ok (np.Fin 50))
  /\ ((1 <= period)%Z ->
      Forall moderate prices ->
      exists q, IndicatorCalculator.calculate_rsi prices period = Ok (np.Fin q)
                /\ 0 <= q <= 100).
Proof.
  split; [apply calculate_rsi_short |].
  intros P _.
  destruct (Z.lt_ge_cases (Py.len prices) (period + 1)) as [S | E].
  - exists 50. split; [apply calculate_rsi_short; exact S | lra].
  - destruct (averages_finite prices period P E
                (fun q => 0 <= q) (fun q => 0 <= q))
      as [a [b [R [Ha Hb]]]];
      auto using gains_nonneg, losses_nonneg, mean_nonneg, smooth_nonneg.
    rewrite R.
    destruct (Qeq_dec b 0) as [Z | N].
    + exists 100. split; [| lra].
      unfold rsi_of_averages, np.is_zero. cbn [snd].
      apply Qeq_bool_iff in Z. rewrite Z. reflexivity.
    + apply rsi_formula_range; assumption.
Qed.

Lemma calculate_rsi_range_witness :
  IndicatorCalculator.calculate_rsi [3; 2; 4] 14 = Ok (np.Fin 50)
  /\ (exists q, IndicatorCalculator.calculate_rsi [3; 2; 4; 1; 7] 2 = Ok (np.Fin q)
                /\ 0 <= q <= 100).
Proof.
  split.
  - apply (proj1 (calculate_rsi_range [3; 2; 4] 14)). reflexivity.
  - apply (proj2 (calculate_rsi_range [3; 2; 4; 1; 7] 2)); [lia |].
    repeat constructor; apply Qle_bool_iff; reflexivity.
Defined.

(** C7, as stated, fails: with period 0 the rising series 1, 2, 3 is long
    enough, and the result is nan. *)
Lemma calculate_rsi_rising_period_zero :
  strictly_increasing [1; 2; 3]
  /\ (0 + 1 <= Py.len [1; 2; 3])%Z
  /\ IndicatorCalculator.calculate_rsi [1; 2; 3] 0 = Ok np.NaN
  /\ IndicatorCalculator.calculate_rsi [1; 2; 3] 0 <> Ok (np.Fin 100).
Proof.
  split; [cbn; lra |]. split; [cbn; lia |]. split; [reflexivity | discriminate].
Qed.

(** C7, amended.  For every period of at least 1 and every strictly
    increasing series of at least period + 1 prices, [calculate_rsi] returns
    exactly 100.0. *)
Theorem calculate_rsi_rising (prices : list Q) (period : Z) :
  (1 <= period)%Z ->
  strictly_increasing prices ->
  (period + 1 <= Py.len prices)%Z ->
  IndicatorCalculator.calculate_rsi prices period = Ok (np.Fin 100).
Proof.
  intros P R E.
  destruct (averages_finite prices period P E
              (fun q => 0 <= q) (fun q => q == 0))
    as [a [b [H [_ Hb]]]];
    auto using gains_nonneg, rising_losses, mean_nonneg, smooth_nonneg,
      mean_zero, smooth_zero.
  rewrite H. unfold rsi_of_averages, np.is_zero. cbn [snd].
  apply Qeq_bool_iff in Hb. rewrite Hb. reflexivity.
Qed.

Lemma calculate_rsi_rising_witness :
  IndicatorCalculator.calculate_rsi [100; 101; 103; 106] 2 = Ok (np.Fin 100).
Proof.
  apply (calculate_rsi_rising [100; 101; 103; 106] 2).
  - lia.
  - cbn. lra.
  - cbn. lia.
Defined.

(** ** The watchlist *)

Section Watchlist.

Lemma has_symbol_In (watchlist_storage : list WatchlistItem.t) (symbol : string) :
  has_symbol watchlist_storage symbol = true <-> In symbol (symbols_of watchlist_storage).
Proof.
  unfold has_symbol, symbols_of. rewrite existsb_exists, in_map_iff.
  split; intros [item [H1 H2]]; exists item.
  - apply String.eqb_eq in H2. auto.
  - split; [exact H2 | apply String.eqb_eq; exact H1].
Qed.

Lemma mem_In (symbol : string) (symbols : list string) :
  mem symbol symbols = true <-> In symbol symbols.
Proof.
  unfold mem. rewrite existsb_exists. split.
  - intros [s [H1 H2]]. apply String.eqb_eq in H2. subst s. exact H1.
  - intros H. exists symbol. split; [exact H | apply String.eqb_refl].
Qed.

Lemma NoDup_snoc {A : Type} (l : list A) (x : A) :
  NoDup l -> ~ In x l -> NoDup (l ++ [x]).
Proof.
  induction 1 as [| y l Hy _ IH]; intros N; cbn.
  - constructor; [intros [] | constructor].
  - constructor.
    + rewrite in_app_iff. cbn. intros [H | [H | []]]; [auto | subst; apply N; left; reflexivity].
    + apply IH. intros H. apply N. right. exact H.
Qed.

Lemma add_symbol_unique (watchlist_storage : list WatchlistItem.t) (symbol : string) :
  unique_symbols watchlist_storage ->
  unique_symbols (add_symbol watchlist_storage symbol).
Proof.
  intros U. unfold add_symbol.
  destruct (has_symbol watchlist_storage symbol) eqn:E; cbn [negb]; [exact U |].
  unfold unique_symbols, symbols_of. rewrite map_app. cbn.
  apply NoDup_snoc; [exact U |].
  rewrite <- has_symbol_In. congruence.
Qed.

Lemma add_symbol_present (watchlist_storage : list WatchlistItem.t) (symbol : string) :
  In symbol (symbols_of watchlist_storage) ->
  add_symbol watchlist_storage symbol = watchlist_storage.
Proof.
  intros H. unfold add_symbol. apply has_symbol_In in H. rewrite H. reflexivity.
Qed.

Lemma add_symbols_unique (symbols : list string) (watchlist_storage : list WatchlistItem.t) :
  unique_symbols watchlist_storage ->
  unique_symbols (fold_left add_symbol symbols watchlist_storage).
Proof.
  revert watchlist_storage.
  induction symbols as [| s symbols IH]; intros wl U; cbn; auto using add_symbol_unique.
Qed.

Lemma add_symbols_present (symbols : list string) (watchlist_storage : list WatchlistItem.t) :
  (forall s, In s symbols -> In s (symbols_of watchlist_storage)) ->
  fold_left add_symbol symbols watchlist_storage = watchlist_storage.
Proof.
  induction symbols as [| s symbols IH]; intros H; cbn; [reflexivity |].
  rewrite add_symbol_present by (apply H; left; reflexivity).
  apply IH. intros s' I. apply H. right. exact I.
Qed.

Lemma filter_unique (keep : WatchlistItem.t -> bool) (watchlist_storage : list WatchlistItem.t) :
  unique_symbols watchlist_storage -> unique_symbols (filter keep watchlist_storage).
Proof.
  unfold unique_symbols, symbols_of.
  induction watchlist_storage as [| item wl IH]; cbn; intros U; [exact U |].
  inversion U as [| s l N U' [E1 E2]]; subst.
  destruct (keep item); cbn; auto.
  constructor; auto.
  rewrite in_map_iff in *. intros [item' [E I]]. apply N.
  exists item'. apply filter_In in I. tauto.
Qed.

Lemma update_watchlist_unique (request : WatchlistRequest.t)
    (watchlist_storage : list WatchlistItem.t) :
  unique_symbols watchlist_storage ->
  unique_symbols (update_watchlist request watchlist_storage).
Proof.
  intros U. unfold update_watchlist.
  destruct (String.eqb _ "add"); [apply add_symbols_unique; exact U |].
  destruct (String.eqb _ "remove"); [apply filter_unique; exact U | exact U].
Qed.

Lemma default_watchlist_unique : unique_symbols DEFAULT_WATCHLIST.
Proof.
  unfold unique_symbols, symbols_of, DEFAULT_WATCHLIST. cbn.
  repeat (constructor; [cbn; intuition discriminate |]). constructor.
Qed.

Lemma remove_exactly (symbols : list string) (watchlist_storage : list WatchlistItem.t)
    (item : WatchlistItem.t) :
  In item (update_watchlist (WatchlistRequest.mk symbols "remove") watchlist_storage)
  <-> In item watchlist_storage /\ ~ In (WatchlistItem.symbol item) symbols.
Proof.
  unfold update_watchlist. cbn. rewrite filter_In, negb_true_iff, <- mem_In.
  fold (mem (WatchlistItem.symbol item) symbols).
  destruct (mem (WatchlistItem.symbol item) symbols); split; intros [H1 H2];
    (split; [exact H1 | congruence]).
Qed.

End Watchlist.

(** C9.  No two entries of the default watchlist share a symbol, and every
    update (add, remove, or an action that is neither) keeps it so; hence it
    holds of every watchlist the service can reach.  Adding symbols that are
    all present leaves the watchlist as it was, and after a removal the
    entries left are exactly those whose symbol is not in the given list, in
    their order. *)
Theorem watchlist_symbols_unique :
  unique_symbols DEFAULT_WATCHLIST
  /\ (forall request watchlist_storage,
        unique_symbols watchlist_storage ->
        unique_symbols (update_watchlist request watchlist_storage))
  /\ (forall watchlist_storage, reachable watchlist_storage ->
        unique_symbols watchlist_storage)
  /\ (forall symbols watchlist_storage,
        (forall s, In s symbols -> In s (symbols_of watchlist_storage)) ->
        update_watchlist (WatchlistRequest.mk symbols "add") watchlist_storage
        = watchlist_storage)
  /\ (forall symbols watchlist_storage item,
        In item (update_watchlist (WatchlistRequest.mk symbols "remove") watchlist_storage)
        <-> In item watchlist_storage /\ ~ In (WatchlistItem.symbol item) symbols)
  /\ (forall symbols watchlist_storage,
        update_watchlist (WatchlistRequest.mk symbols "remove") watchlist_storage
        = filter (fun item => negb (mem (WatchlistItem.symbol item) symbols))
            watchlist_storage).
Proof.
  split; [exact default_watchlist_unique |].
  split; [exact update_watchlist_unique |].
  split.
  { induction 1; auto using default_watchlist_unique, update_watchlist_unique. }
  split; [intros symbols wl H; apply add_symbols_present; exact H |].
  split; [exact remove_exactly | reflexivity].
Qed.

Lemma watchlist_symbols_unique_witness :
  let added := update_watchlist (WatchlistRequest.mk ["AAPL"; "TCS"; "AAPL"]%string "add")
                 DEFAULT_WATCHLIST in
  let removed := update_watchlist (WatchlistRequest.mk ["AAPL"; "INFY"]%string "remove") added in
  symbols_of added = ["RELIANCE"; "TCS"; "INFY"; "HDFCBANK"; "ICICIBANK"; "AAPL"]%string
  /\ symbols_of removed = ["RELIANCE"; "TCS"; "HDFCBANK"; "ICICIBANK"]%string
  /\ unique_symbols added
  /\ unique_symbols removed
  /\ update_watchlist (WatchlistRequest.mk ["TCS"]%string "add") DEFAULT_WATCHLIST
     = DEFAULT_WATCHLIST.
Proof.
  cbv zeta.
  destruct watchlist_symbols_unique as [D [U [_ [A _]]]].
  split; [reflexivity |]. split; [reflexivity |].
  split; [apply U; exact D |].
  split; [apply U; apply U; exact D |].
  apply A. cbn. intros s [<- | []]. tauto.
Defined.

(** ** ScanOrchestrator *)

Section Scan.

Variable S : Services.

Ltac run := cbn [bind ret raise catch Monad_M Exc_M fst snd world trace SignalRequest.symbol].

(** The scan of one symbol, step by step: what it returns and the calls it
    leaves in the trace, by the answers of the three services. *)
Lemma scan_symbol_cases (item : WatchlistItem.t) (st : State S) :
  let symbol := WatchlistItem.symbol item in
  let fetched := trace st ++ [CallMarketData symbol] in
  match market_data S symbol (world st) with
  | (Raise e, w1) =>
      scan_symbol S item st =
      (Raise (HTTPException 500 (Str (HTTPException 500 (Str e)))),
       mkState w1
         (((fetched ++ [LoggerError ("Error fetching indicators for " ++ symbol) e])
           ++ [LoggerError ("Error generating signal for " ++ symbol)
                 (HTTPException 500 (Str e))])))
  | (Ok d, w1) =>
      let v := verdict_for symbol d in
      if String.eqb (SignalResponse.signal v) "HOLD" then
        scan_symbol S item st = (Ok v, mkState w1 fetched)
      else
        let logged := fetched ++ [CallSheetsLogger (log_request_of v)] in
        match sheets_log_trade S (log_request_of v) w1 with
        | (false, w2) =>
            scan_symbol S item st =
            (Raise log_failed,
             mkState w2
               (logged ++ [LoggerError "Error logging trade"
                             (HTTPException 500 (Text "Failed to log trade"))]))
        | (true, w2) =>
            let alerted := logged ++ [CallNotification (alert_request_of v)] in
            match notify_send_alert S (alert_request_of v) w2 with
            | (false, w3) =>
                scan_symbol S item st =
                (Raise alert_failed,
                 mkState w3
                   (alerted ++ [LoggerError "Error sending alert"
                                  (HTTPException 500 (Text "Failed to send alert"))]))
            | (true, w3) =>
                scan_symbol S item st = (Ok v, mkState w3 alerted)
            end
        end
  end.
Proof.
  cbv zeta.
  unfold scan_symbol, generate_signal, get_indicators, call_market_data. run.
  destruct (market_data S (WatchlistItem.symbol item) (world st)) as [[d | e] w1].
  - run. fold (verdict_for (WatchlistItem.symbol item) d).
    set (v := verdict_for (WatchlistItem.symbol item) d).
    destruct (String.eqb (SignalResponse.signal v) "HOLD"); cbn [negb]; run.
    + reflexivity.
    + unfold log_trade, call_sheets_logger. run.
      destruct (sheets_log_trade S (log_request_of v) w1) as [[|] w2]; run.
      * unfold send_alert, call_notification. run.
        destruct (notify_send_alert S (alert_request_of v) w2) as [[|] w3]; run.
        -- reflexivity.
        -- unfold reraise_500, logger_error, record. run. reflexivity.
      * unfold reraise_500, logger_error, record. run. reflexivity.
  - unfold reraise_500, logger_error, record. run. reflexivity.
Qed.

Lemma no_fault_services (item : WatchlistItem.t) (st : State S) :
  no_fault S item st = all_services_succeed S item st.
Proof.
  unfold no_fault, all_services_succeed.
  pose proof (scan_symbol_cases item st) as C. cbv zeta in C.
  destruct (market_data S (WatchlistItem.symbol item) (world st)) as [[d | e] w1];
    [| rewrite C; reflexivity].
  destruct (String.eqb _ "HOLD"); [rewrite C; reflexivity |].
  destruct (sheets_log_trade S _ w1) as [[|] w2]; [| rewrite C; reflexivity].
  destruct (notify_send_alert S _ w2) as [[|] w3]; rewrite C; reflexivity.
Qed.

(** A verdict carries the symbol of the entry it was computed for. *)
Lemma scan_symbol_verdict (item : WatchlistItem.t) (st st' : State S)
    (v : SignalResponse.t) :
  scan_symbol S item st = (Ok v, st') ->
  exists d w, market_data S (WatchlistItem.symbol item) (world st) = (Ok d, w)
              /\ v = verdict_for (WatchlistItem.symbol item) d.
Proof.
  intros H. pose proof (scan_symbol_cases item st) as C. cbv zeta in C.
  destruct (market_data S (WatchlistItem.symbol item) (world st)) as [[d | e] w1];
    [| congruence].
  exists d, w1. split; [reflexivity |].
  destruct (String.eqb _ "HOLD"); [congruence |].
  destruct (sheets_log_trade S _ w1) as [[|] w2]; [| congruence].
  destruct (notify_send_alert S _ w2) as [[|] w3]; congruence.
Qed.

(** While the spreadsheet refuses a non-HOLD verdict the scan of the symbol
    ends there: the notifier is not called. *)
Lemma log_failure_skips_alert (item : WatchlistItem.t) (st : State S)
    (d : IndicatorData.t) (w1 w2 : World S) :
  let symbol := WatchlistItem.symbol item in
  let v := verdict_for symbol d in
  market_data S symbol (world st) = (Ok d, w1) ->
  SignalResponse.signal v <> "HOLD"%string ->
  sheets_log_trade S (log_request_of v) w1 = (false, w2) ->
  scan_symbol S item st =
  (Raise log_failed,
   mkState w2
     (trace st ++
      [CallMarketData symbol;
       CallSheetsLogger (log_request_of v);
       LoggerError "Error logging trade" (HTTPException 500 (Text "Failed to log trade"))])).
Proof.
  intros symbol v M H L.
  pose proof (scan_symbol_cases item st) as C. cbv zeta in C.
  fold symbol in C. rewrite M in C. fold v in C.
  apply String.eqb_neq in H. rewrite H, L in C.
  rewrite C. rewrite <- !app_assoc. reflexivity.
Qed.

(** The loop, whatever it starts from: it returns, with the verdicts of the
    symbols that did not fault appended in order. *)
Lemma scan_loop_results (items : list WatchlistItem.t) :
  forall (results : list SignalResponse.t) (st : State S),
    scan_loop S items results st =
    (Ok (results ++ clean_verdicts S items st), state_after S items st).
Proof.
  induction items as [| item rest IH]; intros results st.
  - cbn. rewrite app_nil_r. reflexivity.
  - cbn [scan_loop clean_verdicts state_after fold_left]. run.
    unfold after_symbol. run.
    destruct (scan_symbol S item st) as [[v | e] st1]; run.
    + rewrite IH, <- app_assoc. reflexivity.
    + unfold logger_error, record. run. rewrite IH. reflexivity.
Qed.

Lemma clean_verdicts_app (pre post : list WatchlistItem.t) (st : State S) :
  clean_verdicts S (pre ++ post) st =
  clean_verdicts S pre st ++ clean_verdicts S post (state_after S pre st).
Proof.
  revert st. induction pre as [| item pre IH]; intros st; [reflexivity |].
  cbn [app clean_verdicts state_after fold_left]. rewrite IH, app_assoc. reflexivity.
Qed.

Lemma clean_verdicts_order (items : list WatchlistItem.t) (st : State S) :
  subsequence (map SignalResponse.symbol (clean_verdicts S items st)) (symbols_of items).
Proof.
  revert st. induction items as [| item rest IH]; intros st; [constructor |].
  cbn [clean_verdicts symbols_of map].
  destruct (scan_symbol S item st) as [[v | e] st1] eqn:E; cbn [app map].
  - destruct (scan_symbol_verdict item st st1 v E) as [d [w [_ ->]]].
    cbn [verdict_for SignalResponse.symbol]. constructor. apply IH.
  - constructor. apply IH.
Qed.

(** A verdict gets into the results only through a turn without fault. *)
Lemma clean_verdicts_only (items : list WatchlistItem.t) (st : State S)
    (v : SignalResponse.t) :
  In v (clean_verdicts S items st) ->
  exists pre item post,
    items = pre ++ item :: post
    /\ all_services_succeed S item (state_after S pre st) = true
    /\ SignalResponse.symbol v = WatchlistItem.symbol item.
Proof.
  revert st. induction items as [| item rest IH]; intros st H; [destruct H |].
  cbn [clean_verdicts] in H. apply in_app_or in H. destruct H as [H | H].
  - exists [], item, rest. cbn [app state_after fold_left].
    rewrite <- no_fault_services. unfold no_fault.
    destruct (scan_symbol S item st) as [[v0 | e] st1] eqn:E; [| destruct H].
    destruct H as [<- | []].
    destruct (scan_symbol_verdict item st st1 v0 E) as [d [w [_ ->]]]. auto.
  - destruct (IH _ H) as [pre [item' [post [-> [A Y]]]]].
    exists (item :: pre), item', post. auto.
Qed.

End Scan.

(** C2.  Whatever the watchlist and whatever the services do, the scan
    returns normally: every fault is caught inside the turn of its symbol.
    Its result list is the verdicts of the symbols whose turn met no fault
    (market data delivered and, for a verdict other than HOLD, the
    spreadsheet and the notifier both succeeded), in watchlist order, and
    its message counts them. *)
Theorem scan_isolates_faults (S : Services) (watchlist_storage : list WatchlistItem.t)
    (st : State S) :
  let results := clean_verdicts S watchlist_storage st in
  scan_all_symbols S watchlist_storage st =
    (Ok (("Scanned " ++ Py.dec (Py.len results) ++ " symbols")%string, results),
     state_after S watchlist_storage st)
  /\ subsequence (map SignalResponse.symbol results) (symbols_of watchlist_storage)
  /\ (forall pre item post,
        watchlist_storage = pre ++ item :: post ->
        all_services_succeed S item (state_after S pre st) = true ->
        exists d w,
          market_data S (WatchlistItem.symbol item) (world (state_after S pre st))
            = (Ok d, w)
          /\ In (verdict_for (WatchlistItem.symbol item) d) results).
Proof.
  intros results. split; [| split].
  - unfold scan_all_symbols. cbn [bind ret Monad_M].
    rewrite scan_loop_results. reflexivity.
  - apply clean_verdicts_order.
  - intros pre item post -> A.
    rewrite <- no_fault_services in A. unfold no_fault in A.
    destruct (scan_symbol S item (state_after S pre st)) as [[v | e] st1] eqn:E;
      [| discriminate A].
    destruct (scan_symbol_verdict S item _ st1 v E) as [d [w [M ->]]].
    exists d, w. split; [exact M |].
    unfold results. rewrite clean_verdicts_app. apply in_or_app. right.
    cbn [clean_verdicts]. rewrite E. left. reflexivity.
Qed.

Lemma scan_isolates_faults_witness :
  let S := fixed_services tcs_down true true in
  let watchlist_storage :=
    [WatchlistItem.mk "RELIANCE" "2885"; WatchlistItem.mk "TCS" "11536";
     WatchlistItem.mk "INFY" "1594"] in
  map SignalResponse.symbol (clean_verdicts S watchlist_storage (start S tt))
    = ["RELIANCE"; "INFY"]%string
  /\ fst (scan_all_symbols S watchlist_storage (start S tt))
     = Ok ("Scanned 2 symbols"%string, clean_verdicts S watchlist_storage (start S tt))
  /\ exists d w,
       market_data S "INFY" (world (state_after S
          [WatchlistItem.mk "RELIANCE" "2885"; WatchlistItem.mk "TCS" "11536"]
          (start S tt))) = (Ok d, w)
       /\ In (verdict_for "INFY" d) (clean_verdicts S watchlist_storage (start S tt)).
Proof.
  intros S watchlist_storage.
  pose proof (scan_isolates_faults S watchlist_storage (start S tt)) as [R [_ P]].
  split; [reflexivity |]. split.
  - rewrite R. reflexivity.
  - apply (P [WatchlistItem.mk "RELIANCE" "2885"; WatchlistItem.mk "TCS" "11536"]
             (WatchlistItem.mk "INFY" "1594") []); reflexivity.
Defined.

(** C3.  The code on a watchlist of one symbol whose snapshot gives BUY,
    while the spreadsheet refuses the row: the turn of the symbol ends at
    the failed log call.  The trace holds no call of the notifier and the
    verdict is not in the results, where the claim has the alert still
    attempted. *)
Theorem scan_log_failure_drops_alert :
  let S := fixed_services oversold false true in
  let run := scan_all_symbols S [WatchlistItem.mk "RELIANCE" "2885"] (start S tt) in
  fst run = Ok ("Scanned 0 symbols"%string, [])
  /\ trace (snd run) =
     [CallMarketData "RELIANCE";
      CallSheetsLogger
        (log_request_of (verdict_for "RELIANCE" (IndicatorData.mk "RELIANCE" 25 100 100 95 105 110)));
      LoggerError "Error logging trade" (HTTPException 500 (Text "Failed to log trade"));
      LoggerError "Error scanning RELIANCE" log_failed]
  /\ SignalResponse.signal
       (verdict_for "RELIANCE" (IndicatorData.mk "RELIANCE" 25 100 100 95 105 110))
     = "BUY"%string
  /\ (forall alert_data, ~ In (CallNotification alert_data) (trace (snd run))).
Proof.
  cbv zeta. split; [reflexivity |]. split; [reflexivity |]. split; [reflexivity |].
  intros alert_data H. cbn in H.
  repeat (destruct H as [H | H]; [discriminate H |]). exact H.
Qed.

(** The same watchlist and snapshot with the spreadsheet accepting the row:
    log call, then alert call, and the verdict is in the results. *)
Example scan_logs_then_alerts :
  let S := fixed_services oversold true true in
  let v := verdict_for "RELIANCE" (IndicatorData.mk "RELIANCE" 25 100 100 95 105 110) in
  scan_all_symbols S [WatchlistItem.mk "RELIANCE" "2885"] (start S tt) =
  (Ok ("Scanned 1 symbols"%string, [v]),
   @mkState S tt [CallMarketData "RELIANCE";
                  CallSheetsLogger (log_request_of v);
                  CallNotification (alert_request_of v)]).
Proof. reflexivity. Qed.

(** * Further properties of the code *)

(** ** Rounding, continued *)

Section RoundingOrder.

Lemma round_half_even_comp (x y : Q) :
  x == y -> Py.round_half_even x = Py.round_half_even y.
Proof.
  intros E. unfold Py.round_half_even.
  rewrite (Qfloor_comp _ _ E).
  assert (x - inject_Z (Qfloor y) == y - inject_Z (Qfloor y)) as E' by (rewrite E; reflexivity).
  rewrite (Qcompare_comp _ _ E' (1 # 2) (1 # 2) (Qeq_refl _)). reflexivity.
Qed.

Lemma round2_comp (x y : Q) : x == y -> Py.round2 x = Py.round2 y.
Proof.
  intros E. unfold Py.round2. f_equal. apply round_half_even_comp. rewrite E. reflexivity.
Qed.

Lemma round_half_even_mono (x y : Q) :
  x <= y -> (Py.round_half_even x <= Py.round_half_even y)%Z.
Proof.
  intros H.
  destruct (Qeq_dec x y) as [E | N]; [rewrite (round_half_even_comp _ _ E); lia |].
  pose proof (round_half_even_near x) as [_ Hx].
  pose proof (round_half_even_near y) as [Hy _].
  assert (inject_Z (Py.round_half_even x) < inject_Z (Py.round_half_even y) + 1) as L by lra.
  change 1 with (inject_Z 1) in L. rewrite <- inject_Z_plus, <- Zlt_Qlt in L. lia.
Qed.

(** [round(., 2)] keeps the order. *)
Lemma round2_mono (x y : Q) : x <= y -> Py.round2 x <= Py.round2 y.
Proof.
  intros H. unfold Py.round2.
  assert (x * 100 <= y * 100) as H' by lra.
  pose proof (round_half_even_mono _ _ H').
  unfold Qle. cbn. lia.
Qed.

(** ** binary64: the values a rounding returns *)

Lemma round_half_even_integer (z : Z) : Py.round_half_even (inject_Z z) = z.
Proof.
  pose proof (round_half_even_near (inject_Z z)) as [Lo Hi].
  assert (inject_Z z - 1 < inject_Z (Py.round_half_even (inject_Z z))) as A by lra.
  assert (inject_Z (Py.round_half_even (inject_Z z)) < inject_Z z + 1) as B by lra.
  change 1 with (inject_Z 1) in A, B.
  unfold Qminus in A. rewrite <- inject_Z_opp, <- inject_Z_plus, <- Zlt_Qlt in A.
  rewrite <- inject_Z_plus, <- Zlt_Qlt in B. lia.
Qed.

(** What [nearest] returns is a double, overflow apart: a significand of at
    most 53 bits times a power of two that is at least 2^-1074. *)
Lemma nearest_significand (q : Q) :
  (Z.abs (Py.round_half_even (q / Binary64.ulp q)) <= 2 ^ 53)%Z.
Proof.
  pose proof (ulp_pos q) as U.
  destruct (Qeq_dec q 0) as [Z | N].
  { rewrite (round_half_even_comp (q / Binary64.ulp q) 0); [cbn; lia |].
    unfold Qdiv. rewrite (Qmult_comp _ _ Z _ _ (Qeq_refl _)). ring. }
  pose proof (binade_upper q N) as Up.
  assert (Binary64.pow2 (Binary64.binade q + 1) <= Binary64.ulp q * inject_Z (2 ^ 53)) as G.
  { unfold Binary64.ulp. rewrite pow2_inject by lia. rewrite <- pow2_add.
    apply Qpower_le_compat_l; [lia | lra]. }
  assert (- inject_Z (2 ^ 53) <= q / Binary64.ulp q <= inject_Z (2 ^ 53)) as [Lo Hi].
  { assert (Qabs q <= Binary64.ulp q * inject_Z (2 ^ 53)) as A by lra.
    apply Qabs_Qle_condition in A. destruct A as [A1 A2]. split.
    - apply Qle_shift_div_l; [exact U |]. lra.
    - apply Qle_shift_div_r; [exact U |]. lra. }
  rewrite <- inject_Z_opp in Lo.
  apply round_half_even_mono in Lo, Hi.
  rewrite round_half_even_integer in Lo, Hi. lia.
Qed.

End RoundingOrder.

(** ** RSI on flat, rising and falling series, and with a period of 0 *)

Section RSISeeded.

Variable prices : list Q.
Variable period : Z.
Hypothesis period_positive : (1 <= period)%Z.
Hypothesis enough_prices : (period + 1 <= Py.len prices)%Z.

Let deltas := np.diff prices.
Let gains := map (fun d => if Py.gt d 0 then d else 0) deltas.
Let losses := map (fun d => if Py.lt d 0 then - d else 0) deltas.

Lemma seed_of_full_window (P : Q -> Prop) (xs : list Q) :
  Py.len xs = Py.len gains ->
  (forall l, Py.len l = period -> Forall P l -> P (Py.sum l / inject_Z period)) ->
  Forall P xs ->
  finite P (np.mean (Py.slice_to xs period)).
Proof.
  intros E HP F.
  pose proof (period_within_gains prices period period_positive enough_prices) as W.
  fold deltas in W. fold gains in W.
  assert (Py.len (Py.slice_to xs period) = period) as S
    by (apply slice_to_length; lia).
  rewrite mean_finite by lia. rewrite S.
  eexists. split; [reflexivity |]. apply HP; [exact S |]. apply slice_to_Forall. exact F.
Qed.

(** As [averages_finite], the seed taken over a full window of [period]
    values. *)
Lemma averages_of_full_windows (G L : Q -> Prop) :
  Forall G gains -> Forall L losses ->
  (forall l, Py.len l = period -> Forall G l -> G (Py.sum l / inject_Z period)) ->
  (forall l, Py.len l = period -> Forall L l -> L (Py.sum l / inject_Z period)) ->
  (forall a x, G a -> G x -> G ((a * inject_Z (period - 1) + x) / inject_Z period)) ->
  (forall a x, L a -> L x -> L ((a * inject_Z (period - 1) + x) / inject_Z period)) ->
  exists avg_gain avg_loss,
    IndicatorCalculator.calculate_rsi prices period =
      rsi_of_averages (np.Fin avg_gain, np.Fin avg_loss)
    /\ G avg_gain /\ L avg_loss.
Proof.
  intros FG FL MG ML SG SL.
  rewrite (calculate_rsi_long prices period enough_prices).
  fold deltas. fold gains. fold losses.
  destruct (smoothing_loop_invariant period period_positive gains losses
              (losses_length prices) G L FG FL SG SL (Py.range period (Py.len deltas)))
    with (avg_gain := np.mean (Py.slice_to gains period))
         (avg_loss := np.mean (Py.slice_to losses period))
    as [ag [al [E [[a [-> Ha]] [b [-> Hb]]]]]].
  - unfold deltas. rewrite (deltas_length prices). fold deltas. fold gains.
    eapply Forall_impl; [| apply range_bounds]. cbn. intros i Hi. lia.
  - apply seed_of_full_window; auto.
  - apply seed_of_full_window; auto. apply (losses_length prices).
  - rewrite E. exists a, b. auto.
Qed.

End RSISeeded.

Section RSIShapes.

Lemma sum_positive (l : list Q) :
  l <> [] -> Forall (fun x => 0 < x) l -> 0 < Py.sum l.
Proof.
  intros N F. destruct F as [| x l Hx F]; [congruence |].
  rewrite sum_cons.
  assert (0 <= Py.sum l) as S.
  { apply sum_nonneg. eapply Forall_impl; [| exact F]. cbn. intros; lra. }
  lra.
Qed.

Lemma mean_positive (period : Z) (l : list Q) :
  (1 <= period)%Z -> Py.len l = period -> Forall (fun x => 0 < x) l ->
  0 < Py.sum l / inject_Z period.
Proof.
  intros P E F. pose proof (Zpos_Q period P).
  assert (l <> []) as N by (intros ->; cbn in E; lia).
  pose proof (sum_positive l N F).
  apply Qlt_shift_div_l; lra.
Qed.

Lemma smooth_positive (period : Z) (a x : Q) :
  (1 <= period)%Z -> 0 < a -> 0 < x ->
  0 < (a * inject_Z (period - 1) + x) / inject_Z period.
Proof.
  intros P Ha Hx. pose proof (Zpos_Q period P).
  assert (0 <= inject_Z (period - 1)) as K.
  { change 0 with (inject_Z 0). rewrite <- Zle_Qle. lia. }
  assert (0 <= a) as Ha' by lra.
  pose proof (Qmult_le_0_compat _ _ Ha' K).
  apply Qlt_shift_div_l; lra.
Qed.

Lemma flat_or_rising_deltas (prices : list Q) :
  nondecreasing prices -> Forall (fun d => 0 <= d) (np.diff prices).
Proof.
  induction prices as [| x [| y t] IH]; intros H; try constructor.
  - destruct H as [H _]. lra.
  - apply IH. exact (proj2 H).
Qed.

Lemma flat_or_rising_losses (prices : list Q) :
  nondecreasing prices ->
  Forall (fun x => x == 0) (map (fun d => if Py.lt d 0 then - d else 0) (np.diff prices)).
Proof.
  intros H. apply Forall_forall. intros x I. apply in_map_iff in I.
  destruct I as [d [<- I]].
  pose proof (proj1 (Forall_forall _ _) (flat_or_rising_deltas prices H) d I) as P. cbn in P.
  destruct (lt_spec d 0); [lra | reflexivity].
Qed.

Lemma falling_deltas (prices : list Q) :
  strictly_decreasing prices -> Forall (fun d => d < 0) (np.diff prices).
Proof.
  induction prices as [| x [| y t] IH]; intros H; try constructor.
  - destruct H as [H _]. lra.
  - apply IH. exact (proj2 H).
Qed.

Lemma falling_gains (prices : list Q) :
  strictly_decreasing prices ->
  Forall (fun x => x == 0) (map (fun d => if Py.gt d 0 then d else 0) (np.diff prices)).
Proof.
  intros H. apply Forall_forall. intros x I. apply in_map_iff in I.
  destruct I as [d [<- I]].
  pose proof (proj1 (Forall_forall _ _) (falling_deltas prices H) d I) as P. cbn in P.
  unfold Py.gt. destruct (lt_spec 0 d); [lra | reflexivity].
Qed.

Lemma falling_losses (prices : list Q) :
  strictly_decreasing prices ->
  Forall (fun x => 0 < x) (map (fun d => if Py.lt d 0 then - d else 0) (np.diff prices)).
Proof.
  intros H. apply Forall_forall. intros x I. apply in_map_iff in I.
  destruct I as [d [<- I]].
  pose proof (proj1 (Forall_forall _ _) (falling_deltas prices H) d I) as P. cbn in P.
  destruct (lt_spec d 0); lra.
Qed.

(** The closing formula when nothing was gained. *)
Lemma rsi_formula_no_gain (a b : Q) :
  a == 0 -> 0 < b ->
  rsi_of_averages (np.Fin a, np.Fin b) = Ok (np.Fin (Py.round2 0)).
Proof.
  intros Ha Pb.
  assert (Qeq_bool b 0 = false) as Eb.
  { destruct (Qeq_bool b 0) eqn:E; [apply Qeq_bool_iff in E; lra | reflexivity]. }
  assert (inject_Z 1 + a / b == 1) as D.
  { rewrite Ha. change (inject_Z 1) with 1. field. lra. }
  assert (Qeq_bool (inject_Z 1 + a / b) 0 = false) as Ed.
  { destruct (Qeq_bool (inject_Z 1 + a / b) 0) eqn:E; [| reflexivity].
    apply Qeq_bool_iff in E. lra. }
  unfold rsi_of_averages, np.is_zero, np.of_int. cbn [fst snd].
  rewrite Eb. cbn [np.div np.add np.sub np.neg np.round2]. rewrite Eb, Ed.
  cbn [np.add np.neg np.round2].
  do 2 f_equal. apply round2_comp.
  rewrite D. change (inject_Z 100) with 100. field.
Qed.

End RSIShapes.

(** X1.  A series in which no price is below the one before it (flat
    stretches included, so a constant series too) has RSI exactly 100.0,
    for every period of at least 1 it is long enough for. *)
Theorem calculate_rsi_no_fall (prices : list Q) (period : Z) :
  (1 <= period)%Z ->
  nondecreasing prices ->
  (period + 1 <= Py.len prices)%Z ->
  IndicatorCalculator.calculate_rsi prices period = Ok (np.Fin 100).
Proof.
  intros P R E.
  destruct (averages_finite prices period P E
              (fun q => 0 <= q) (fun q => q == 0))
    as [a [b [H [_ Hb]]]];
    auto using gains_nonneg, flat_or_rising_losses, mean_nonneg, smooth_nonneg,
      mean_zero, smooth_zero.
  rewrite H. unfold rsi_of_averages, np.is_zero. cbn [snd].
  apply Qeq_bool_iff in Hb. rewrite Hb. reflexivity.
Qed.

Lemma calculate_rsi_no_fall_witness :
  IndicatorCalculator.calculate_rsi [250; 250; 250; 250] 2 = Ok (np.Fin 100)
  /\ IndicatorCalculator.calculate_rsi [10; 10; 12; 12; 15] 3 = Ok (np.Fin 100).
Proof.
  split.
  - apply (calculate_rsi_no_fall [250; 250; 250; 250] 2); [lia | cbn; lra | cbn; lia].
  - apply (calculate_rsi_no_fall [10; 10; 12; 12; 15] 3); [lia | cbn; lra | cbn; lia].
Defined.

(** X2.  A strictly falling series of prices of magnitude at most 1e100 has
    RSI 0, for every period of at least 1 it is long enough for.  (With
    doubles near the top of their range a difference overflows, and for
    period 1 the result is nan.) *)
Theorem calculate_rsi_falling (prices : list Q) (period : Z) :
  (1 <= period)%Z ->
  Forall moderate prices ->
  strictly_decreasing prices ->
  (period + 1 <= Py.len prices)%Z ->
  exists q, IndicatorCalculator.calculate_rsi prices period = Ok (np.Fin q) /\ q == 0.
Proof.
  intros P _ R E.
  destruct (averages_of_full_windows prices period P E
              (fun q => q == 0) (fun q => 0 < q))
    as [a [b [H [Ha Hb]]]];
    auto using falling_gains, falling_losses, mean_zero, smooth_zero,
      mean_positive, smooth_positive.
  rewrite H, (rsi_formula_no_gain a b Ha Hb).
  eexists. split; reflexivity.
Qed.

Lemma calculate_rsi_falling_witness :
  exists q, IndicatorCalculator.calculate_rsi [106; 103; 101; 100] 2 = Ok (np.Fin q)
            /\ q == 0.
Proof.
  apply (calculate_rsi_falling [106; 103; 101; 100] 2);
    [lia | repeat constructor; apply Qle_bool_iff; reflexivity | cbn; lra | cbn; lia].
Defined.

Section PeriodZero.

Variables gains losses : list Q.
Hypothesis same_length : Py.len losses = Py.len gains.

Lemma smoothing_loop_nan (indices : list Z) :
  Forall (fun i => (0 <= i < Py.len gains)%Z) indices ->
  fold_left (IndicatorCalculator.rsi_step 0 gains losses) indices (Ok (np.NaN, np.NaN))
  = Ok (np.NaN, np.NaN).
Proof.
  induction 1 as [| i indices Hi _ IH]; [reflexivity |].
  destruct (index_in_range gains i Hi) as [g [Eg _]].
  assert (0 <= i < Py.len losses)%Z as Hi' by (rewrite same_length; exact Hi).
  destruct (index_in_range losses i Hi') as [l [El _]].
  cbn [fold_left]. unfold IndicatorCalculator.rsi_step at 2.
  cbn [bind Monad_pyresult ret fst snd]. rewrite Eg, El. exact IH.
Qed.

End PeriodZero.

(** X3.  With a period of 0 the result is nan for every series that is not
    empty (the seed is the mean of an empty slice), and 50.0 for the empty
    one; nothing is raised. *)
Theorem calculate_rsi_period_zero (prices : list Q) :
  IndicatorCalculator.calculate_rsi prices 0 =
  match prices with
  | [] => Ok (np.Fin 50)
  | _ :: _ => Ok np.NaN
  end.
Proof.
  destruct prices as [| x t] eqn:E; [reflexivity |]. rewrite <- E.
  assert (0 + 1 <= Py.len prices)%Z as L by (rewrite E; unfold Py.len; cbn; lia).
  rewrite (calculate_rsi_long prices 0 L).
  change (Py.slice_to ?l 0) with (@nil Q).
  change (np.mean []) with np.NaN.
  rewrite smoothing_loop_nan; [reflexivity | apply losses_length |].
  rewrite (deltas_length prices).
  eapply Forall_impl; [| apply range_bounds]. cbn. intros i Hi. lia.
Qed.

(** ** VWAP: where it lies and when it raises *)

Section VWAPBounds.

Lemma same_length_cons {A B : Type} (x : A) (l : list A) (y : B) (l' : list B) :
  Py.len (x :: l) = Py.len (y :: l') -> Py.len l = Py.len l'.
Proof. unfold Py.len. cbn [List.length]. lia. Qed.

Lemma weighted_sum_between (lo hi : Q) (prices : list Q) :
  forall volumes,
    Py.len prices = Py.len volumes ->
    Forall (fun v => 0 <= v) volumes ->
    Forall (fun p => lo <= p <= hi) prices ->
    lo * Py.sum volumes <= Py.sum (price_volume prices volumes)
    /\ Py.sum (price_volume prices volumes) <= hi * Py.sum volumes.
Proof.
  induction prices as [| p prices IH]; intros [| v volumes] E FV FP;
    try (unfold Py.len in E; cbn in E; lia).
  - unfold price_volume, Py.sum. cbn. lra.
  - inversion FV as [| ? ? Hv FV']; subst. inversion FP as [| ? ? Hp FP']; subst.
    destruct (IH volumes (same_length_cons _ _ _ _ E) FV' FP') as [Lo Hi].
    unfold price_volume in *. cbn [combine map fst snd].
    rewrite !sum_cons.
    pose proof (Qmult_le_compat_r lo p v (proj1 Hp) Hv).
    pose proof (Qmult_le_compat_r p hi v (proj2 Hp) Hv).
    lra.
Qed.

End VWAPBounds.

Lemma vwap_between (prices volumes : list Q) (lo hi : Q) :
  Py.len prices = Py.len volumes ->
  prices <> [] ->
  Forall (fun v => 0 < v) volumes ->
  Forall (fun p => lo <= p <= hi) prices ->
  exists q, IndicatorCalculator.calculate_vwap prices volumes = Ok q
            /\ Py.round2 lo <= q <= Py.round2 hi.
Proof.
  intros E N FV FP.
  assert (volumes <> []) as NV.
  { intros ->. destruct prices; [congruence | unfold Py.len in E; cbn in E; lia]. }
  pose proof (sum_positive volumes NV FV) as SV.
  assert (Forall (fun v => 0 <= v) volumes) as FV'
    by (eapply Forall_impl; [| exact FV]; cbn; intros; lra).
  destruct (weighted_sum_between lo hi prices volumes E FV' FP) as [Lo Hi].
  rewrite calculate_vwap_value by (auto; lra).
  fold (price_volume prices volumes).
  eexists. split; [reflexivity |]. split; apply round2_mono.
  - apply Qle_shift_div_l; lra.
  - apply Qle_shift_div_r; lra.
Qed.

(** X4.  For two series of the same length, at most a million samples,
    volumes between 1 and 1e9 and prices between lo and hi, of magnitude at
    most 1e6, VWAP is computed without raising and lies within 0.01 of
    [lo, hi].  The 0.01 covers the rounding to two decimals and the error
    of the sums and the quotient in doubles, which the bounds keep many
    times smaller. *)
Theorem calculate_vwap_between (prices volumes : list Q) (lo hi : Q) :
  Py.len prices = Py.len volumes ->
  prices <> [] ->
  (Py.len prices <= 1000000)%Z ->
  Forall (fun v => 1 <= v <= 1000000000) volumes ->
  Forall (fun p => lo <= p <= hi) prices ->
  - (1000000) <= lo -> hi <= 1000000 ->
  exists q, IndicatorCalculator.calculate_vwap prices volumes = Ok q
            /\ lo - (1 # 100) <= q <= hi + (1 # 100).
Proof.
  intros E N _ FV FP _ _.
  assert (Forall (fun v => 0 < v) volumes) as FV'
    by (eapply Forall_impl; [| exact FV]; cbn; intros; lra).
  destruct (vwap_between prices volumes lo hi E N FV' FP) as [q [R B]].
  pose proof (round2_near lo). pose proof (round2_near hi).
  exists q. split; [exact R | lra].
Qed.

Lemma calculate_vwap_between_witness :
  (exists q, IndicatorCalculator.calculate_vwap [100; 102; 101] [5; 10; 5] = Ok q
             /\ 100 - (1 # 100) <= q <= 102 + (1 # 100))
  /\ (exists q, IndicatorCalculator.calculate_vwap [100.125] [1310.3] = Ok q
                /\ 100.125 - (1 # 100) <= q <= 100.125 + (1 # 100)).
Proof.
  split.
  - apply (calculate_vwap_between [100; 102; 101] [5; 10; 5] 100 102).
    + reflexivity.
    + discriminate.
    + cbn; lia.
    + repeat constructor; cbn; lra.
    + repeat constructor; cbn; lra.
    + lra.
    + lra.
  - apply (calculate_vwap_between [100.125] [1310.3] 100.125 100.125).
    + reflexivity.
    + discriminate.
    + cbn; lia.
    + repeat constructor; cbn; lra.
    + repeat constructor; cbn; lra.
    + lra.
    + lra.
Defined.

(** X5.  [calculate_vwap] raises exactly when the two series have the same
    non-zero length and the volumes add up to zero; what it raises then is
    ZeroDivisionError.  On every other input it returns a value. *)
Theorem calculate_vwap_raises_iff (prices volumes : list Q) (e : pyexc) :
  IndicatorCalculator.calculate_vwap prices volumes = Raise e
  <-> e = ZeroDivisionError
      /\ Py.len prices = Py.len volumes /\ prices <> [] /\ Py.sum volumes == 0.
Proof.
  split.
  - intros H.
    destruct (Z.eq_dec (Py.len prices) (Py.len volumes)) as [E | N];
      [| rewrite calculate_vwap_degenerate in H by (left; exact N); discriminate H].
    destruct prices as [| p t] eqn:P;
      [rewrite calculate_vwap_degenerate in H by (right; reflexivity); discriminate H |].
    rewrite <- P in *.
    assert (prices <> []) as NP by (rewrite P; discriminate).
    destruct (Qeq_dec (Py.sum volumes) 0) as [Z | NZ].
    + rewrite (calculate_vwap_raises prices volumes E NP Z) in H.
      injection H as <-. auto.
    + rewrite (calculate_vwap_value prices volumes E NP NZ) in H. discriminate H.
  - intros [-> [E [N Z]]]. apply calculate_vwap_raises; assumption.
Qed.

(** ** CPR: the order of the levels and the session's range *)

(** The doubles [round(., 2)] returns keep the order of its arguments. *)
Lemma round2_binary64_mono (x y : Q) :
  - (4000000000) <= x <= 4000000000 ->
  - (4000000000) <= y <= 4000000000 ->
  x <= y ->
  Binary64.nearest (Py.round2 x) <= Binary64.nearest (Py.round2 y).
Proof.
  intros Bx By L.
  assert (x * 100 <= y * 100) as L' by lra.
  pose proof (round_half_even_mono _ _ L') as Z.
  pose proof (round2_near x) as Nx. pose proof (round2_near y) as Ny.
  pose proof (nearest_close 4000000001 (Py.round2 x)) as Cx.
  pose proof (nearest_close 4000000001 (Py.round2 y)) as Cy.
  unfold Py.round2 in *.
  set (m := Py.round_half_even (x * 100)) in *.
  set (n := Py.round_half_even (y * 100)) in *.
  destruct (Z.eq_dec m n) as [-> | D]; [apply Qle_refl |].
  assert (inject_Z m + 1 <= inject_Z n) as G.
  { change 1 with (inject_Z 1). rewrite <- inject_Z_plus, <- Zle_Qle. lia. }
  assert (m # 100 == inject_Z m / 100) as Em by apply Qmake_Qdiv.
  assert (n # 100 == inject_Z n / 100) as En by apply Qmake_Qdiv.
  assert ((m # 100) + (1 # 100) <= n # 100) as G'.
  { rewrite Em, En. unfold Qdiv. change (/ 100) with (1 # 100). lra. }
  specialize (Cx ltac:(lra) ltac:(lra)). specialize (Cy ltac:(lra) ltac:(lra)).
  lra.
Qed.

(** X7.  For inputs of magnitude at most 1e9, the level called top central
    is above the one called bottom central when the close is above the
    middle of the session's range by 0.01 or more: then bc <= pivot <= tc.
    With a close below the middle by 0.01 or more the order is reversed,
    tc <= pivot <= bc.  (Nearer the middle the three levels are within a
    rounding step of each other, in either order.) *)
Theorem calculate_cpr_order (high low close : Q) :
  Qabs high <= 1000000000 -> Qabs low <= 1000000000 -> Qabs close <= 1000000000 ->
  exists pivot bc tc : Q,
    Binary64.IndicatorCalculator.calculate_cpr (np.Fin high) (np.Fin low) (np.Fin close)
    = {| Binary64.CPR.pivot := np.Fin pivot;
         Binary64.CPR.bc := np.Fin bc;
         Binary64.CPR.tc := np.Fin tc |}
    /\ ((high + low) / 2 + (1 # 100) <= close -> bc <= pivot /\ pivot <= tc)
    /\ (close <= (high + low) / 2 - (1 # 100) -> tc <= pivot /\ pivot <= bc).
Proof.
  intros Hh Hl Hc.
  destruct (calculate_cpr_binary64 high low close Hh Hl Hc)
    as [p [b [t [E [Dp [Db [Dt [Rp [Rb Rt]]]]]]]]].
  eexists _, _, _. split; [exact E |].
  split; intros H; split; apply round2_binary64_mono; auto; lra_div.
Qed.

Lemma calculate_cpr_order_witness :
  (exists pivot bc tc : Q,
     Binary64.IndicatorCalculator.calculate_cpr (np.Fin 100) (np.Fin 90) (np.Fin 99)
     = {| Binary64.CPR.pivot := np.Fin pivot;
          Binary64.CPR.bc := np.Fin bc;
          Binary64.CPR.tc := np.Fin tc |}
     /\ bc <= pivot /\ pivot <= tc)
  /\ (exists pivot bc tc : Q,
        Binary64.IndicatorCalculator.calculate_cpr (np.Fin 100) (np.Fin 90) (np.Fin 91)
        = {| Binary64.CPR.pivot := np.Fin pivot;
             Binary64.CPR.bc := np.Fin bc;
             Binary64.CPR.tc := np.Fin tc |}
        /\ tc <= pivot /\ pivot <= bc).
Proof.
  split.
  - destruct (calculate_cpr_order 100 90 99) as [p [b [t [E [Up _]]]]];
      [cbn; lra | cbn; lra | cbn; lra |].
    exists p, b, t. split; [exact E | apply Up; lra_div].
  - destruct (calculate_cpr_order 100 90 91) as [p [b [t [E [_ Down]]]]];
      [cbn; lra | cbn; lra | cbn; lra |].
    exists p, b, t. split; [exact E | apply Down; lra_div].
Defined.

(** X8.  When the close lies within the session's range, low <= close <=
    high, with magnitudes of at most 1e9, all three levels returned lie
    within 0.01 of that range. *)
Theorem calculate_cpr_within_range (high low close : Q) :
  Qabs high <= 1000000000 -> Qabs low <= 1000000000 ->
  low <= close <= high ->
  exists pivot bc tc : Q,
    Binary64.IndicatorCalculator.calculate_cpr (np.Fin high) (np.Fin low) (np.Fin close)
    = {| Binary64.CPR.pivot := np.Fin pivot;
         Binary64.CPR.bc := np.Fin bc;
         Binary64.CPR.tc := np.Fin tc |}
    /\ Forall (fun level => low - (1 # 100) <= level <= high + (1 # 100))
         [pivot; bc; tc].
Proof.
  intros Hh Hl Hc.
  assert (Qabs close <= 1000000000) as Hc'.
  { apply Qabs_Qle_condition in Hh, Hl. apply Qabs_Qle_condition. lra. }
  destruct (calculate_cpr_binary64 high low close Hh Hl Hc')
    as [p [b [t [E [Dp [Db [Dt [Rp [Rb Rt]]]]]]]]].
  pose proof (round2_binary64_near p Rp). pose proof (round2_binary64_near b Rb).
  pose proof (round2_binary64_near t Rt).
  eexists _, _, _. split; [exact E |].
  repeat constructor; lra_div.
Qed.

Lemma calculate_cpr_within_range_witness :
  let x := Binary64.nearest 100.035 in
  exists pivot bc tc : Q,
    Binary64.IndicatorCalculator.calculate_cpr (np.Fin x) (np.Fin x) (np.Fin x)
    = {| Binary64.CPR.pivot := np.Fin pivot;
         Binary64.CPR.bc := np.Fin bc;
         Binary64.CPR.tc := np.Fin tc |}
    /\ Forall (fun level => x - (1 # 100) <= level <= x + (1 # 100)) [pivot; bc; tc].
Proof.
  intros x.
  apply (calculate_cpr_within_range x x x);
    [apply Qle_bool_iff; vm_compute; reflexivity
    | apply Qle_bool_iff; vm_compute; reflexivity
    | split; apply Qle_refl].
Defined.

(** ** SignalEngine: which verdict, and how far the levels are *)

(** X9.  Each verdict is given under its own rule alone: BUY exactly when
    the first rule holds, SELL exactly when the second holds, HOLD exactly
    when neither does.  The two rules never hold together, so the order in
    which the code tests them decides nothing. *)
Theorem generate_signal_verdict_iff (i : Indicators.t) :
  let v := TradingEngine.generate_signal i in
  (SignalData.signal v = "BUY"%string <-> buy_rule i = true)
  /\ (SignalData.signal v = "SELL"%string <-> sell_rule i = true)
  /\ (SignalData.signal v = "HOLD"%string <-> buy_rule i = false /\ sell_rule i = false)
  /\ buy_rule i && sell_rule i = false.
Proof.
  intros v. subst v.
  assert (buy_rule i && sell_rule i = false) as X.
  { unfold buy_rule, sell_rule, Py.gt.
    destruct (lt_spec (Indicators.rsi i) 30); [| reflexivity].
    destruct (lt_spec 70 (Indicators.rsi i)); [lra |].
    cbn. destruct (Py.lt _ _ && Py.lt _ _); reflexivity. }
  destruct (generate_signal_cases i) as [[B E] | [[B [L E]] | [B [L E]]]];
    rewrite E; rewrite B in X; cbn in X.
  - rewrite B, X. split; [| split; [| split; [| reflexivity]]]; split; intros H;
      try reflexivity; try discriminate H.
    destruct H as [H _]; discriminate H.
  - rewrite B, L. split; [| split; [| split; [| reflexivity]]]; split; intros H;
      try reflexivity; try discriminate H.
    destruct H as [_ H]; discriminate H.
  - rewrite B, L. split; [| split; [| split; [| reflexivity]]]; split; intros H;
      try reflexivity; try discriminate H.
    split; reflexivity.
Qed.

(** X10.  An RSI in the neutral band, 30 <= rsi <= 70, gives HOLD whatever
    the price, VWAP and pivot levels are, with the price as target and stop
    loss. *)
Theorem generate_signal_neutral_band (i : Indicators.t) :
  30 <= Indicators.rsi i <= 70 ->
  TradingEngine.generate_signal i =
  {| SignalData.signal := "HOLD";
     SignalData.entry_price := Indicators.ltp i;
     SignalData.target := Indicators.ltp i;
     SignalData.stop_loss := Indicators.ltp i;
     SignalData.notes := "No clear signal" |}.
Proof.
  intros [Lo Hi]. apply generate_signal_hold.
  - unfold buy_rule. destruct (lt_spec (Indicators.rsi i) 30); [lra | reflexivity].
  - unfold sell_rule, Py.gt. destruct (lt_spec 70 (Indicators.rsi i)); [lra | reflexivity].
Qed.

Lemma generate_signal_neutral_band_witness :
  SignalData.signal (TradingEngine.generate_signal (Indicators.mk 30 1 5000 2 3))
    = "HOLD"%string
  /\ SignalData.signal (TradingEngine.generate_signal (Indicators.mk 70 5000 1 3 2))
     = "HOLD"%string.
Proof.
  split.
  - rewrite (generate_signal_neutral_band (Indicators.mk 30 1 5000 2 3)); [reflexivity |].
    cbn. lra.
  - rewrite (generate_signal_neutral_band (Indicators.mk 70 5000 1 3 2)); [reflexivity |].
    cbn. lra.
Defined.

(** X11.  For a price of at least 2 and at most 1e100 the stop is strictly
    on the losing side of the entry and the target at least as far away on
    the winning side: BUY has 0 < entry - stop <= target - entry, SELL has
    0 < stop - entry <= entry - target.  (At the top of the range of the
    doubles price * 1.005 overflows, and the stop is an infinity.) *)
Theorem target_at_least_as_far_as_stop (i : Indicators.t) :
  2 <= Indicators.ltp i ->
  moderate (Indicators.ltp i) ->
  let v := TradingEngine.generate_signal i in
  let entry := SignalData.entry_price v in
  (SignalData.signal v = "BUY"%string ->
   0 < entry - SignalData.stop_loss v
   /\ entry - SignalData.stop_loss v <= SignalData.target v - entry)
  /\ (SignalData.signal v = "SELL"%string ->
      0 < SignalData.stop_loss v - entry
      /\ SignalData.stop_loss v - entry <= entry - SignalData.target v).
Proof.
  intros P _ v entry. subst entry v.
  set (price := Indicators.ltp i) in *.
  destruct (generate_signal_cases i) as [[B _] | [[B [L _]] | [B [L _]]]].
  - rewrite (generate_signal_buy i B). cbn. fold price.
    pose proof (round2_near (price * 1.01)). pose proof (round2_near (price * 0.995)).
    split; [intros _; lra | discriminate].
  - rewrite (generate_signal_sell i B L). cbn. fold price.
    pose proof (round2_near (price * 0.99)). pose proof (round2_near (price * 1.005)).
    split; [discriminate | intros _; lra].
  - rewrite (generate_signal_hold i B L). cbn. split; discriminate.
Qed.

Lemma target_at_least_as_far_as_stop_witness :
  let buy := TradingEngine.generate_signal (Indicators.mk 25 100 110 105 95) in
  let sell := TradingEngine.generate_signal (Indicators.mk 75 100 90 105 95) in
  (0 < SignalData.entry_price buy - SignalData.stop_loss buy
   /\ SignalData.entry_price buy - SignalData.stop_loss buy
      <= SignalData.target buy - SignalData.entry_price buy)
  /\ (0 < SignalData.stop_loss sell - SignalData.entry_price sell
      /\ SignalData.stop_loss sell - SignalData.entry_price sell
         <= SignalData.entry_price sell - SignalData.target sell).
Proof.
  cbv zeta. split.
  - apply (target_at_least_as_far_as_stop (Indicators.mk 25 100 110 105 95));
      [cbn; lra | apply Qle_bool_iff; reflexivity | reflexivity].
  - apply (target_at_least_as_far_as_stop (Indicators.mk 75 100 90 105 95));
      [cbn; lra | apply Qle_bool_iff; reflexivity | reflexivity].
Defined.

(** ** The watchlist: what an update adds, keeps and undoes *)

Section WatchlistUpdates.

Lemma symbols_of_app (l l' : list WatchlistItem.t) :
  symbols_of (l ++ l') = symbols_of l ++ symbols_of l'.
Proof. unfold symbols_of. apply map_app. Qed.

Lemma add_symbols_extend (symbols : list string) :
  forall watchlist_storage,
    exists added,
      fold_left add_symbol symbols watchlist_storage = watchlist_storage ++ added
      /\ Forall (added_entry symbols watchlist_storage) added.
Proof.
  induction symbols as [| s symbols IH]; intros wl; cbn [fold_left].
  - exists []. rewrite app_nil_r. auto.
  - destruct (IH (add_symbol wl s)) as [added [E F]].
    unfold add_symbol in *.
    destruct (has_symbol wl s) eqn:H; cbn [negb] in *.
    + exists added. split; [exact E |].
      eapply Forall_impl; [| exact F]. intros item [T [I N]].
      split; [exact T |]. split; [right; exact I | exact N].
    + exists (WatchlistItem.mk s ("dummy_" ++ s) :: added).
      rewrite E, <- app_assoc. split; [reflexivity |].
      constructor.
      * split; [reflexivity |]. split; [left; reflexivity |].
        cbn. rewrite <- has_symbol_In. congruence.
      * eapply Forall_impl; [| exact F]. intros item [T [I N]].
        split; [exact T |]. split; [right; exact I |].
        intros X. apply N. rewrite symbols_of_app, in_app_iff. left. exact X.
Qed.

Lemma add_symbol_keeps (watchlist_storage : list WatchlistItem.t) (s s' : string) :
  In s' (symbols_of watchlist_storage) ->
  In s' (symbols_of (add_symbol watchlist_storage s)).
Proof.
  intros H. unfold add_symbol.
  destruct (has_symbol watchlist_storage s); cbn [negb]; [exact H |].
  rewrite symbols_of_app, in_app_iff. left. exact H.
Qed.

Lemma add_symbol_adds (watchlist_storage : list WatchlistItem.t) (s : string) :
  In s (symbols_of (add_symbol watchlist_storage s)).
Proof.
  unfold add_symbol.
  destruct (has_symbol watchlist_storage s) eqn:H; cbn [negb].
  - apply has_symbol_In. exact H.
  - rewrite symbols_of_app, in_app_iff. right. left. reflexivity.
Qed.

Lemma add_symbols_keep (symbols : list string) :
  forall watchlist_storage s',
    In s' (symbols_of watchlist_storage) ->
    In s' (symbols_of (fold_left add_symbol symbols watchlist_storage)).
Proof.
  induction symbols as [| s symbols IH]; intros wl s' H; cbn [fold_left]; [exact H |].
  apply IH. apply add_symbol_keeps. exact H.
Qed.

Lemma add_symbols_add (symbols : list string) :
  forall watchlist_storage s,
    In s symbols ->
    In s (symbols_of (fold_left add_symbol symbols watchlist_storage)).
Proof.
  induction symbols as [| s0 symbols IH]; intros wl s H; [destruct H |].
  cbn [fold_left]. destruct H as [-> | H].
  - apply add_symbols_keep. apply add_symbol_adds.
  - apply IH. exact H.
Qed.

Lemma filter_all {A : Type} (keep : A -> bool) (l : list A) :
  Forall (fun x => keep x = true) l -> filter keep l = l.
Proof.
  induction 1 as [| x l Hx _ IH]; cbn; [reflexivity |]. rewrite Hx, IH. reflexivity.
Qed.

Lemma filter_none {A : Type} (keep : A -> bool) (l : list A) :
  Forall (fun x => keep x = false) l -> filter keep l = [].
Proof.
  induction 1 as [| x l Hx _ IH]; cbn; [reflexivity |]. rewrite Hx, IH. reflexivity.
Qed.

Lemma filter_twice {A : Type} (keep : A -> bool) (l : list A) :
  filter keep (filter keep l) = filter keep l.
Proof.
  induction l as [| x l IH]; cbn; [reflexivity |].
  destruct (keep x) eqn:K; cbn; [rewrite K, IH |]; auto.
Qed.

End WatchlistUpdates.

(** X12.  An "add" request appends: the watchlist it leaves is the old one,
    entries and order untouched, followed by new entries.  Each new entry is
    for a requested symbol that was not there and carries the placeholder
    token "dummy_" followed by the symbol; and every requested symbol is in
    the watchlist afterwards. *)
Theorem update_watchlist_add_appends (symbols : list string)
    (watchlist_storage : list WatchlistItem.t) :
  let updated :=
    update_watchlist (WatchlistRequest.mk symbols "add") watchlist_storage in
  (exists added,
     updated = watchlist_storage ++ added
     /\ Forall (added_entry symbols watchlist_storage) added)
  /\ (forall s, In s symbols -> In s (symbols_of updated)).
Proof.
  cbv zeta. unfold update_watchlist. cbn. split.
  - apply add_symbols_extend.
  - intros s. apply add_symbols_add.
Qed.

(** X13.  Sending the same request twice is the same as sending it once,
    whatever its action. *)
Theorem update_watchlist_idempotent (request : WatchlistRequest.t)
    (watchlist_storage : list WatchlistItem.t) :
  update_watchlist request (update_watchlist request watchlist_storage)
  = update_watchlist request watchlist_storage.
Proof.
  unfold update_watchlist.
  destruct (String.eqb _ "add").
  - apply add_symbols_present. intros s. apply add_symbols_add.
  - destruct (String.eqb _ "remove"); [apply filter_twice | reflexivity].
Qed.

(** X14.  Adding symbols none of which was in the watchlist and then
    removing the same symbols gives the watchlist back as it was. *)
Theorem update_watchlist_add_remove (symbols : list string)
    (watchlist_storage : list WatchlistItem.t) :
  (forall s, In s symbols -> ~ In s (symbols_of watchlist_storage)) ->
  update_watchlist (WatchlistRequest.mk symbols "remove")
    (update_watchlist (WatchlistRequest.mk symbols "add") watchlist_storage)
  = watchlist_storage.
Proof.
  intros H. unfold update_watchlist. cbn.
  destruct (add_symbols_extend symbols watchlist_storage) as [added [-> F]].
  rewrite filter_app, filter_all, filter_none; [apply app_nil_r | |].
  - eapply Forall_impl; [| exact F]. intros item [_ [I _]].
    apply negb_false_iff, mem_In. exact I.
  - apply Forall_forall. intros item I.
    apply negb_true_iff. destruct (mem (WatchlistItem.symbol item) symbols) eqn:M;
      [| exact M].
    apply mem_In in M. exfalso. apply (H _ M).
    unfold symbols_of. apply in_map. exact I.
Qed.

Lemma update_watchlist_add_remove_witness :
  update_watchlist (WatchlistRequest.mk ["AAPL"; "GOOGL"; "AAPL"]%string "remove")
    (update_watchlist (WatchlistRequest.mk ["AAPL"; "GOOGL"; "AAPL"]%string "add")
       DEFAULT_WATCHLIST)
  = DEFAULT_WATCHLIST.
Proof.
  apply (update_watchlist_add_remove ["AAPL"; "GOOGL"; "AAPL"]%string DEFAULT_WATCHLIST).
  intros s I N. cbn in I, N.
  repeat (destruct I as [<- | I]; [intuition discriminate |]). exact I.
Defined.

(** ** ScanOrchestrator: the calls a scan makes *)

Section ScanCalls.

Variable S : Services.

Ltac run := cbn [bind ret raise catch Monad_M Exc_M fst snd world trace SignalRequest.symbol].

Lemma verdict_for_signal (symbol : string) (d : IndicatorData.t) :
  let v := verdict_for symbol d in
  SignalResponse.signal v = "BUY"%string
  \/ SignalResponse.signal v = "SELL"%string
  \/ SignalResponse.signal v = "HOLD"%string.
Proof.
  cbv zeta. unfold verdict_for. cbn [SignalResponse.signal].
  destruct (generate_signal_cases
              {| Indicators.rsi := IndicatorData.rsi d;
                 Indicators.vwap := IndicatorData.vwap d;
                 Indicators.ltp := IndicatorData.ltp d;
                 Indicators.tc := IndicatorData.tc d;
                 Indicators.bc := IndicatorData.bc d |})
    as [[_ E] | [[_ [_ E]] | [_ [_ E]]]]; auto.
Qed.

Lemma scan_row_of_verdict (symbol : string) (d : IndicatorData.t) :
  String.eqb (SignalResponse.signal (verdict_for symbol d)) "HOLD" = false ->
  scan_row (log_request_of (verdict_for symbol d)).
Proof.
  intros H. unfold scan_row, log_request_of.
  cbn [LogRequest.signal LogRequest.status LogRequest.live_price LogRequest.entry_price].
  split; [| split; reflexivity].
  destruct (verdict_for_signal symbol d) as [E | [E | E]]; auto.
  rewrite E in H. discriminate H.
Qed.

(** The calls of one turn of the loop: market data once, then nothing, or
    one row for a verdict that is not HOLD, followed or not by its alert. *)
Lemma turn_calls (item : WatchlistItem.t) (st : State S) :
  exists calls,
    trace (after_symbol S item st) = trace st ++ calls
    /\ market_data_calls calls = [WatchlistItem.symbol item]
    /\ ((logged calls = [] /\ alerted calls = [])
        \/ exists log_data,
             scan_row log_data
             /\ logged calls = [log_data]
             /\ (alerted calls = [] \/ alerted calls = [alert_of_row log_data])).
Proof.
  pose proof (scan_symbol_cases S item st) as C. cbv zeta in C.
  unfold after_symbol. run.
  destruct (market_data S (WatchlistItem.symbol item) (world st)) as [[d | e] w1].
  - destruct (String.eqb (SignalResponse.signal
                            (verdict_for (WatchlistItem.symbol item) d)) "HOLD") eqn:H.
    + rewrite C. run. eexists. split; [reflexivity |]. split; [reflexivity |].
      left. split; reflexivity.
    + pose proof (scan_row_of_verdict _ _ H) as R.
      destruct (sheets_log_trade S _ w1) as [[|] w2].
      * destruct (notify_send_alert S _ w2) as [[|] w3]; rewrite C; run;
          unfold logger_error, record; run;
          (eexists; split; [rewrite <- !app_assoc; reflexivity |]);
          (split; [reflexivity |]); right; eexists; (split; [exact R |]);
          (split; [reflexivity |]); right; reflexivity.
      * rewrite C. run. unfold logger_error, record. run.
        eexists. split; [rewrite <- !app_assoc; reflexivity |].
        split; [reflexivity |]. right. eexists. split; [exact R |].
        split; [reflexivity |]. left. reflexivity.
  - rewrite C. run. unfold logger_error, record. run.
    eexists. split; [rewrite <- !app_assoc; reflexivity |]. split; [reflexivity |].
    left. split; reflexivity.
Qed.

Lemma subsequence_refl {A : Type} (l : list A) : subsequence l l.
Proof. induction l; constructor; assumption. Qed.

Lemma subsequence_app {A : Type} (a b a' b' : list A) :
  subsequence a b -> subsequence a' b' -> subsequence (a ++ a') (b ++ b').
Proof.
  intros H H'. induction H; cbn; [exact H' | |]; constructor; assumption.
Qed.

Lemma subsequence_length {A : Type} (a b : list A) :
  subsequence a b -> (List.length a <= List.length b)%nat.
Proof. induction 1; cbn; lia. Qed.

(** The calls of a whole scan. *)
Lemma scan_calls (items : list WatchlistItem.t) :
  forall st : State S,
    exists calls,
      trace (state_after S items st) = trace st ++ calls
      /\ market_data_calls calls = symbols_of items
      /\ Forall scan_row (logged calls)
      /\ subsequence (alerted calls) (map alert_of_row (logged calls))
      /\ (List.length (logged calls) <= List.length items)%nat.
Proof.
  induction items as [| item rest IH]; intros st.
  - exists []. cbn. rewrite app_nil_r. repeat split; constructor.
  - cbn [state_after fold_left].
    destruct (turn_calls item st) as [c1 [T1 [M1 K]]].
    destruct (IH (after_symbol S item st)) as [c2 [T2 [M2 [F2 [Q2 N2]]]]].
    fold (state_after S rest (after_symbol S item st)).
    exists (c1 ++ c2). rewrite T2, T1, <- app_assoc.
    unfold market_data_calls, logged, alerted in *.
    rewrite !flat_map_app, map_app, length_app.
    split; [reflexivity |]. split; [rewrite M1, M2; reflexivity |].
    destruct K as [[L A] | [r [R [L A]]]]; rewrite L.
    + rewrite A. cbn [app map List.length]. split; [exact F2 |]. split; [exact Q2 | lia].
    + split; [constructor; assumption |].
      split; [| cbn [List.length]; lia].
      destruct A as [A | A]; rewrite A; cbn [app map]; constructor; exact Q2.
Qed.

Lemma clean_verdicts_valid (items : list WatchlistItem.t) :
  forall st : State S,
    Forall (fun v => SignalResponse.signal v = "BUY"%string
                     \/ SignalResponse.signal v = "SELL"%string
                     \/ SignalResponse.signal v = "HOLD"%string)
      (clean_verdicts S items st).
Proof.
  induction items as [| item rest IH]; intros st; [constructor |].
  cbn [clean_verdicts]. apply Forall_app. split; [| apply IH].
  destruct (scan_symbol S item st) as [[v | e] st1] eqn:E; constructor; [| constructor].
  destruct (scan_symbol_verdict S item st st1 v E) as [d [w [_ ->]]].
  apply verdict_for_signal.
Qed.

Lemma clean_verdicts_all (items : list WatchlistItem.t) :
  forall st : State S,
    (forall item st', In item items -> all_services_succeed S item st' = true) ->
    map SignalResponse.symbol (clean_verdicts S items st) = symbols_of items.
Proof.
  induction items as [| item rest IH]; intros st H; [reflexivity |].
  cbn [clean_verdicts symbols_of map].
  pose proof (H item st (or_introl eq_refl)) as A.
  rewrite <- no_fault_services in A. unfold no_fault in A.
  destruct (scan_symbol S item st) as [[v | e] st1] eqn:E; [| discriminate A].
  destruct (scan_symbol_verdict S item st st1 v E) as [d [w [_ ->]]].
  cbn [app map verdict_for SignalResponse.symbol]. f_equal.
  apply IH. intros item' st' I. apply H. right. exact I.
Qed.

End ScanCalls.

(** X15.  A scan asks market data about every watchlist entry exactly once,
    in watchlist order, whatever fails on the way. *)
Theorem scan_queries_each_symbol_once (S : Services)
    (watchlist_storage : list WatchlistItem.t) (st : State S) :
  exists calls,
    trace (snd (scan_all_symbols S watchlist_storage st)) = trace st ++ calls
    /\ market_data_calls calls = symbols_of watchlist_storage.
Proof.
  unfold scan_all_symbols. cbn [bind ret Monad_M]. rewrite scan_loop_results. cbn [snd].
  destruct (scan_calls S watchlist_storage st) as [calls [T [M _]]].
  exists calls. auto.
Qed.

(** X16.  What a scan hands to the spreadsheet and to the notifier: every
    row is for a BUY or a SELL (HOLD is never logged), has status OPEN and
    the entry price as live price; and the alerts sent are, in order, those
    of some of the rows logged: no alert goes out without its row having
    been handed to the spreadsheet first. *)
Theorem scan_rows_and_alerts (S : Services)
    (watchlist_storage : list WatchlistItem.t) (st : State S) :
  exists calls,
    trace (snd (scan_all_symbols S watchlist_storage st)) = trace st ++ calls
    /\ Forall scan_row (logged calls)
    /\ subsequence (alerted calls) (map alert_of_row (logged calls))
    /\ (List.length (alerted calls) <= List.length (logged calls)
        <= List.length watchlist_storage)%nat.
Proof.
  unfold scan_all_symbols. cbn [bind ret Monad_M]. rewrite scan_loop_results. cbn [snd].
  destruct (scan_calls S watchlist_storage st) as [calls [T [M [F [Q N]]]]].
  exists calls. split; [exact T |]. split; [exact F |]. split; [exact Q |].
  split; [| exact N].
  pose proof (subsequence_length _ _ Q) as L. rewrite length_map in L. exact L.
Qed.

(** X17.  When market data delivers for every entry and the spreadsheet and
    the notifier accept whatever they are given, the scan returns one
    verdict per watchlist entry, in watchlist order, and its message counts
    the whole watchlist. *)
Theorem scan_complete_when_services_succeed (S : Services)
    (watchlist_storage : list WatchlistItem.t) (st : State S) :
  (forall item st', In item watchlist_storage ->
                    all_services_succeed S item st' = true) ->
  exists results,
    fst (scan_all_symbols S watchlist_storage st) =
      Ok (("Scanned " ++ Py.dec (Py.len watchlist_storage) ++ " symbols")%string, results)
    /\ map SignalResponse.symbol results = symbols_of watchlist_storage.
Proof.
  intros H. unfold scan_all_symbols. cbn [bind ret Monad_M].
  rewrite scan_loop_results. cbn [fst app].
  pose proof (clean_verdicts_all S watchlist_storage st H) as E.
  exists (clean_verdicts S watchlist_storage st). split; [| exact E].
  assert (Py.len (clean_verdicts S watchlist_storage st) = Py.len watchlist_storage) as L.
  { unfold Py.len. f_equal.
    rewrite <- (length_map SignalResponse.symbol), E. unfold symbols_of. apply length_map. }
  rewrite L. reflexivity.
Qed.

Lemma scan_complete_when_services_succeed_witness :
  let S := fixed_services oversold true true in
  exists results,
    fst (scan_all_symbols S DEFAULT_WATCHLIST (start S tt)) =
      Ok ("Scanned 5 symbols"%string, results)
    /\ map SignalResponse.symbol results
       = ["RELIANCE"; "TCS"; "INFY"; "HDFCBANK"; "ICICIBANK"]%string.
Proof.
  intros S.
  apply (scan_complete_when_services_succeed S DEFAULT_WATCHLIST (start S tt)).
  intros item st' I. cbn in I.
  repeat (destruct I as [<- | I]; [reflexivity |]). destruct I.
Defined.

(** X18.  Every verdict in the results of a scan carries one of the three
    signals BUY, SELL and HOLD, and there are at most as many verdicts as
    watchlist entries. *)
Theorem scan_results_valid (S : Services)
    (watchlist_storage : list WatchlistItem.t) (st : State S) :
  exists message results,
    fst (scan_all_symbols S watchlist_storage st) = Ok (message, results)
    /\ Forall (fun v => SignalResponse.signal v = "BUY"%string
                        \/ SignalResponse.signal v = "SELL"%string
                        \/ SignalResponse.signal v = "HOLD"%string) results
    /\ (List.length results <= List.length watchlist_storage)%nat.
Proof.
  unfold scan_all_symbols. cbn [bind ret Monad_M].
  rewrite scan_loop_results. cbn [fst app].
  eexists. eexists. split; [reflexivity |]. split; [apply clean_verdicts_valid |].
  pose proof (subsequence_length _ _ (clean_verdicts_order S watchlist_storage st)) as L.
  unfold symbols_of in L. rewrite !length_map in L. exact L.
Qed.

(** X19.  Whatever goes wrong inside one of the endpoints /indicators,
    /signal, /log and /alert reaches the caller as an HTTPException with
    status 500, and as nothing else. *)
Theorem endpoints_raise_only_500 (S : Services) (st st' : State S) (e : pyexc) :
  (forall symbol,
     get_indicators S symbol st = (Raise e, st') ->
     exists detail, e = HTTPException 500 detail)
  /\ (forall request,
        generate_signal S request st = (Raise e, st') ->
        exists detail, e = HTTPException 500 detail)
  /\ (forall log_data,
        log_trade S log_data st = (Raise e, st') ->
        exists detail, e = HTTPException 500 detail)
  /\ (forall alert_data,
        send_alert S alert_data st = (Raise e, st') ->
        exists detail, e = HTTPException 500 detail).
Proof.
  split; [| split; [| split]].
  - intros symbol. unfold get_indicators, call_market_data, reraise_500, logger_error, record.
    cbn [bind ret raise catch Monad_M Exc_M].
    destruct (market_data S symbol (world st)) as [[d | x] w]; intros H;
      inversion H; eauto.
  - intros request.
    unfold generate_signal, get_indicators, call_market_data, reraise_500, logger_error, record.
    cbn [bind ret raise catch Monad_M Exc_M].
    destruct (market_data S _ (world st)) as [[d | x] w]; intros H;
      inversion H; eauto.
  - intros log_data. unfold log_trade, call_sheets_logger, reraise_500, logger_error, record.
    cbn [bind ret raise catch Monad_M Exc_M].
    destruct (sheets_log_trade S log_data (world st)) as [[|] w]; intros H;
      inversion H; eauto.
  - intros alert_data.
    unfold send_alert, call_notification, reraise_500, logger_error, record.
    cbn [bind ret raise catch Monad_M Exc_M].
    destruct (notify_send_alert S alert_data (world st)) as [[|] w]; intros H;
      inversion H; eauto.
Qed.

Lemma endpoints_raise_only_500_witness :
  let S := fixed_services oversold false true in
  let log_data := log_request_of (verdict_for "TCS" (IndicatorData.mk "TCS" 25 100 100 95 105 110)) in
  exists e st',
    log_trade S log_data (start S tt) = (Raise e, st')
    /\ exists detail, e = HTTPException 500 detail.
Proof.
  intros S log_data.
  exists log_failed.
  exists (snd (log_trade S log_data (start S tt))).
  split; [reflexivity |].
  apply (proj1 (proj2 (proj2 (endpoints_raise_only_500 S (start S tt)
           (snd (log_trade S log_data (start S tt))) log_failed))) log_data).
  reflexivity.
Defined.

(** ** The mock market data: what [get_indicators] returns *)

Section MockData.

Lemma uniform_between (a b : Q) (r : Rng) :
  a <= b -> unit_draws r -> a <= fst (uniform a b r) <= b.
Proof.
  intros H U. unfold uniform. cbn [fst].
  pose proof (U (drawn r)). nra.
Qed.

Lemma uniform_spec (a b : Q) (r : Rng) :
  a <= b -> unit_draws r ->
  a <= fst (uniform a b r) <= b
  /\ snd (uniform a b r) = mkRng (draw r) (S (drawn r)).
Proof.
  intros H U. split; [apply uniform_between; assumption | reflexivity].
Qed.

Lemma uniforms_spec (n : nat) (a b : Q) :
  a <= b ->
  forall r, unit_draws r ->
    List.length (fst (uniforms n a b r)) = n
    /\ Forall (fun x => a <= x <= b) (fst (uniforms n a b r))
    /\ snd (uniforms n a b r) = mkRng (draw r) (drawn r + n).
Proof.
  intros H. induction n as [| n IH]; intros r U.
  - cbn. rewrite Nat.add_0_r. destruct r; auto.
  - cbn [uniforms].
    pose proof (uniform_between a b r H U) as B.
    destruct (uniform a b r) as [x r1] eqn:E.
    assert (r1 = mkRng (draw r) (S (drawn r))) as -> by (unfold uniform in E; congruence).
    destruct (IH (mkRng (draw r) (S (drawn r))) U) as [L [F R]].
    destruct (uniforms n a b (mkRng (draw r) (S (drawn r)))) as [xs r2].
    cbn [fst snd] in *. split; [cbn [List.length]; lia |]. split; [constructor; assumption |].
    rewrite R. cbn. f_equal. lia.
Qed.

Lemma find_symbol (watchlist_storage : list WatchlistItem.t) (symbol : string) :
  In symbol (symbols_of watchlist_storage) ->
  exists item,
    find (fun item => String.eqb (WatchlistItem.symbol item) symbol) watchlist_storage
    = Some item.
Proof.
  induction watchlist_storage as [| item wl IH]; intros H; [destruct H |].
  cbn [find]. destruct (String.eqb_spec (WatchlistItem.symbol item) symbol) as [E | N].
  - eauto.
  - destruct H as [H | H]; [contradiction | auto].
Qed.

Lemma find_no_symbol (watchlist_storage : list WatchlistItem.t) (symbol : string) :
  ~ In symbol (symbols_of watchlist_storage) ->
  find (fun item => String.eqb (WatchlistItem.symbol item) symbol) watchlist_storage = None.
Proof.
  induction watchlist_storage as [| item wl IH]; intros H; [reflexivity |].
  cbn [find]. destruct (String.eqb_spec (WatchlistItem.symbol item) symbol) as [E | N].
  - exfalso. apply H. left. exact E.
  - apply IH. intros I. apply H. right. exact I.
Qed.

(** With a period of at least 1 the RSI is a number of [0, 100]. *)
Lemma rsi_in_range (prices : list Q) (period : Z) :
  (1 <= period)%Z ->
  exists q, IndicatorCalculator.calculate_rsi prices period = Ok (np.Fin q)
            /\ 0 <= q <= 100.
Proof.
  intros P.
  destruct (Z.lt_ge_cases (Py.len prices) (period + 1)) as [S | E].
  - exists 50. split; [apply calculate_rsi_short; exact S | lra].
  - destruct (averages_finite prices period P E
                (fun q => 0 <= q) (fun q => 0 <= q))
      as [a [b [R [Ha Hb]]]];
      auto using gains_nonneg, losses_nonneg, mean_nonneg, smooth_nonneg.
    rewrite R.
    destruct (Qeq_dec b 0) as [Z | N].
    + exists 100. split; [| lra].
      unfold rsi_of_averages, np.is_zero. cbn [snd].
      apply Qeq_bool_iff in Z. rewrite Z. reflexivity.
    + apply rsi_formula_range; assumption.
Qed.

(** The scalar [get_indicators] hands to pydantic is a finite one. *)
Lemma mock_rsi_finite (prices : list Q) :
  exists q, IndicatorCalculator.calculate_rsi prices 14 = Ok (np.Fin q)
            /\ stored (np.Fin q) = q /\ 0 <= q <= 100.
Proof.
  destruct (rsi_in_range prices 14) as [q [E B]]; [lia |].
  exists q. auto.
Qed.

Lemma mock_market_data_known (watchlist_storage : list WatchlistItem.t)
    (symbol : string) (r : Rng) :
  In symbol (symbols_of watchlist_storage) ->
  unit_draws r ->
  exists d,
    mock_market_data watchlist_storage symbol r = (Ok d, mkRng (draw r) (drawn r + 66))
    /\ mock_snapshot symbol d.
Proof.
  intros I U. unfold mock_market_data.
  destruct (find_symbol watchlist_storage symbol I) as [item ->].
  destruct (uniform_spec 100 3000 r ltac:(lra) U) as [Bbase R1].
  destruct (uniform 100 3000 r) as [base_price r1]. cbn [fst snd] in Bbase, R1. subst r1.
  set (r1 := mkRng (draw r) (S (drawn r))).
  assert (unit_draws r1) as U1 by exact U.
  destruct (uniform_spec (-50) 50 r1 ltac:(lra) U1) as [Bnoise R2].
  destruct (uniform (-50) 50 r1) as [noise r2]. cbn [fst snd] in Bnoise, R2. subst r2.
  set (r2 := mkRng (draw r1) (S (drawn r1))).
  assert (unit_draws r2) as U2 by exact U.
  set (ltp := Py.round2 (base_price + noise)).
  assert (50 <= ltp <= 3050) as Bltp.
  { unfold ltp. split.
    - apply (Qle_trans _ (5000 # 100)); [lra |]. apply round2_lower.
      change (inject_Z 5000) with 5000. lra.
    - apply (Qle_trans _ (305000 # 100)); [| lra]. apply round2_upper.
      change (inject_Z 305000) with 305000. lra. }
  destruct (uniforms_spec 30 (-20) 20 ltac:(lra) r2 U2) as [Lo [Fo Ro]].
  destruct (uniforms 30 (-20) 20 r2) as [offsets r3]. cbn [fst snd] in Lo, Fo, Ro. subst r3.
  set (r3 := mkRng (draw r2) (drawn r2 + 30)).
  assert (unit_draws r3) as U3 by exact U.
  set (prices := map (fun o => base_price + o) offsets ++ [ltp]).
  assert (List.length prices = 31%nat) as Lp
    by (unfold prices; rewrite length_app, length_map, Lo; reflexivity).
  assert (Forall (fun p => 50 <= p <= 3050) prices) as Fp.
  { unfold prices. apply Forall_app. split; [| constructor; [exact Bltp | constructor]].
    apply Forall_forall. intros p Hp. apply in_map_iff in Hp. destruct Hp as [o [<- Ho]].
    pose proof (proj1 (Forall_forall _ _) Fo o Ho) as Bo. cbn in Bo. lra. }
  destruct (mock_rsi_finite prices) as [q [-> [_ Bq]]].
  rewrite Lp.
  destruct (uniforms_spec 31 1000 10000 ltac:(lra) r3 U3) as [Lv [Fv Rv]].
  destruct (uniforms 31 1000 10000 r3) as [volumes r4]. cbn [fst snd] in Lv, Fv, Rv. subst r4.
  destruct (vwap_between prices volumes 50 3050) as [vwap [-> Bv]].
  { unfold Py.len. rewrite Lp, Lv. reflexivity. }
  { intros E. rewrite E in Lp. discriminate Lp. }
  { eapply Forall_impl; [| exact Fv]. cbn. intros; lra. }
  { exact Fp. }
  change (Py.round2 50) with (5000 # 100) in Bv.
  change (Py.round2 3050) with (305000 # 100) in Bv.
  set (r4 := mkRng (draw r3) (drawn r3 + 31)).
  assert (unit_draws r4) as U4 by exact U.
  destruct (uniform_spec 10 30 r4 ltac:(lra) U4) as [_ R5].
  destruct (uniform 10 30 r4) as [up r5]. cbn [snd] in R5. subst r5.
  set (r5 := mkRng (draw r4) (S (drawn r4))).
  assert (unit_draws r5) as U5 by exact U.
  destruct (uniform_spec 10 30 r5 ltac:(lra) U5) as [_ R6].
  destruct (uniform 10 30 r5) as [down r6]. cbn [snd] in R6. subst r6.
  set (r6 := mkRng (draw r5) (S (drawn r5))).
  assert (unit_draws r6) as U6 by exact U.
  destruct (uniform_spec (-15) 15 r6 ltac:(lra) U6) as [_ R7].
  destruct (uniform (-15) 15 r6) as [drift r7]. cbn [snd] in R7. subst r7.
  eexists. split.
  - f_equal. unfold r6, r5, r4, r3, r2, r1. cbn [draw drawn]. f_equal. lia.
  - unfold mock_snapshot. cbn [IndicatorData.symbol IndicatorData.rsi IndicatorData.ltp
                                 IndicatorData.vwap stored].
    split; [reflexivity |]. split; [exact Bq |]. split; [exact Bltp |].
    split; [apply round2_two_decimals | lra].
Qed.

End MockData.

Section MockEndpoints.

Variable watchlist_storage : list WatchlistItem.t.
Variable T : Services.

Let S := mock_services watchlist_storage T.

Ltac run := cbn [bind ret raise catch Monad_M Exc_M fst snd world trace SignalRequest.symbol].

Lemma mock_call_known (symbol : string) (st : State S) :
  In symbol (symbols_of watchlist_storage) ->
  unit_draws (fst (world st)) ->
  exists d,
    market_data S symbol (world st) =
      (Ok d, (mkRng (draw (fst (world st))) (drawn (fst (world st)) + 66), snd (world st)))
    /\ mock_snapshot symbol d.
Proof.
  intros I U.
  destruct (mock_market_data_known watchlist_storage symbol (fst (world st)) I U)
    as [d [E M]].
  exists d. split; [| exact M].
  change (market_data S symbol (world st))
    with (let '(d, r) := mock_market_data watchlist_storage symbol (fst (world st)) in
          (d, (r, snd (world st)))).
  rewrite E. reflexivity.
Qed.

Lemma snapshot_levels (symbol : string) (d : IndicatorData.t) :
  mock_snapshot symbol d ->
  let v := verdict_for symbol d in
  SignalResponse.symbol v = symbol
  /\ Forall (fun level => 49 <= level)
       [SignalResponse.entry_price v; SignalResponse.target v; SignalResponse.stop_loss v].
Proof.
  intros [_ [_ [[Lo _] _]]] v. split; [reflexivity |].
  unfold v, verdict_for.
  cbn [SignalResponse.entry_price SignalResponse.target SignalResponse.stop_loss].
  remember {| Indicators.rsi := IndicatorData.rsi d;
              Indicators.vwap := IndicatorData.vwap d;
              Indicators.ltp := IndicatorData.ltp d;
              Indicators.tc := IndicatorData.tc d;
              Indicators.bc := IndicatorData.bc d |} as i eqn:Hi.
  assert (50 <= Indicators.ltp i) as Lo' by (subst i; exact Lo).
  clear Hi Lo.
  set (price := Indicators.ltp i) in *.
  destruct (generate_signal_cases i) as [[B _] | [[B [L _]] | [B [L _]]]].
  - rewrite (generate_signal_buy i B). cbn. fold price.
    pose proof (round2_near (price * 1.01)). pose proof (round2_near (price * 0.995)).
    constructor; [lra | constructor; [lra | constructor; [lra | constructor]]].
  - rewrite (generate_signal_sell i B L). cbn. fold price.
    pose proof (round2_near (price * 0.99)). pose proof (round2_near (price * 1.005)).
    constructor; [lra | constructor; [lra | constructor; [lra | constructor]]].
  - rewrite (generate_signal_hold i B L). cbn. fold price.
    constructor; [lra | constructor; [lra | constructor; [lra | constructor]]].
Qed.

(** A turn of the scan leaves the stream of random numbers as it is. *)
Lemma mock_turn_keeps_draws (item : WatchlistItem.t) (st : State S) :
  In (WatchlistItem.symbol item) (symbols_of watchlist_storage) ->
  unit_draws (fst (world st)) ->
  unit_draws (fst (world (after_symbol S item st))).
Proof.
  intros I U.
  destruct (mock_call_known _ st I U) as [d [M _]].
  pose proof (scan_symbol_cases S item st) as C. cbv zeta in C.
  unfold after_symbol. run. rewrite M in C.
  destruct (String.eqb _ "HOLD").
  - rewrite C. run. exact U.
  - unfold S at 1, mock_services at 1 in C. cbn [sheets_log_trade] in C.
    destruct (sheets_log_trade T _ _) as [[|] t2]; cbn [fst snd] in C.
    + unfold S at 1, mock_services at 1 in C. cbn [notify_send_alert] in C.
      destruct (notify_send_alert T _ _) as [[|] t3]; cbn [fst snd] in C;
        rewrite C; run; exact U.
    + rewrite C. run. exact U.
Qed.

End MockEndpoints.

(** X20.  [get_indicators] for a symbol that is not in the watchlist raises
    status 500, not 404: the 404 it raises inside its own [try] is caught
    by its own handler, logged, and turned into the detail of a 500.  No
    random number is drawn. *)
Theorem get_indicators_unknown_symbol (watchlist_storage : list WatchlistItem.t)
    (T : Services) (symbol : string) (st : State (mock_services watchlist_storage T)) :
  ~ In symbol (symbols_of watchlist_storage) ->
  let not_found := HTTPException 404 (Text "Symbol not found in watchlist") in
  exists st',
    get_indicators (mock_services watchlist_storage T) symbol st
    = (Raise (HTTPException 500 (Str not_found)), st')
    /\ world st' = world st
    /\ trace st' = trace st ++
         [CallMarketData symbol;
          LoggerError ("Error fetching indicators for " ++ symbol) not_found].
Proof.
  intros N not_found.
  unfold get_indicators, call_market_data, reraise_500, logger_error, record.
  cbn [bind ret raise catch Monad_M Exc_M mock_services market_data].
  unfold mock_market_data. rewrite (find_no_symbol _ _ N).
  cbn [fst snd world trace]. eexists. split; [reflexivity |].
  cbn [world trace]. split; [destruct (world st); reflexivity |].
  rewrite <- app_assoc. reflexivity.
Qed.

Lemma get_indicators_unknown_symbol_witness :
  let S := mock_services DEFAULT_WATCHLIST (fixed_services oversold true true) in
  exists st',
    get_indicators S "AAPL" (start S (midpoint_rng, tt))
    = (Raise (HTTPException 500
                (Str (HTTPException 404 (Text "Symbol not found in watchlist")))), st')
    /\ world st' = (midpoint_rng, tt).
Proof.
  intros S.
  destruct (get_indicators_unknown_symbol DEFAULT_WATCHLIST
              (fixed_services oversold true true) "AAPL" (start S (midpoint_rng, tt)))
    as [st' [E [W _]]].
  - cbn. intuition discriminate.
  - exists st'. split; [exact E | exact W].
Defined.

(** X21.  For a symbol of the watchlist, and random numbers in [0, 1],
    [get_indicators] returns without raising.  The snapshot carries the
    symbol, an RSI in [0, 100], a last traded price with two decimals in
    [50, 3050] and a VWAP in [50, 3050]; 66 random numbers are drawn. *)
Theorem get_indicators_known_symbol (watchlist_storage : list WatchlistItem.t)
    (T : Services) (symbol : string) (st : State (mock_services watchlist_storage T)) :
  In symbol (symbols_of watchlist_storage) ->
  unit_draws (fst (world st)) ->
  exists d st',
    get_indicators (mock_services watchlist_storage T) symbol st = (Ok d, st')
    /\ mock_snapshot symbol d
    /\ drawn (fst (world st')) = (drawn (fst (world st)) + 66)%nat
    /\ snd (world st') = snd (world st).
Proof.
  intros I U.
  destruct (mock_call_known watchlist_storage T symbol st I U) as [d [M K]].
  exists d. unfold get_indicators, call_market_data.
  cbn [bind ret raise catch Monad_M Exc_M]. rewrite M.
  eexists. split; [reflexivity |]. split; [exact K |]. split; reflexivity.
Qed.

Lemma get_indicators_known_symbol_witness :
  let S := mock_services DEFAULT_WATCHLIST (fixed_services oversold true true) in
  exists d st',
    get_indicators S "INFY" (start S (midpoint_rng, tt)) = (Ok d, st')
    /\ mock_snapshot "INFY" d
    /\ drawn (fst (world st')) = 66%nat.
Proof.
  intros S.
  destruct (get_indicators_known_symbol DEFAULT_WATCHLIST
              (fixed_services oversold true true) "INFY" (start S (midpoint_rng, tt)))
    as [d [st' [E [M [D _]]]]].
  - cbn. tauto.
  - intros n. cbn. lra.
  - exists d, st'. split; [exact E |]. split; [exact M | exact D].
Defined.

(** X22.  For a symbol of the watchlist, and random numbers in [0, 1], the
    endpoint /signal returns without raising a verdict for that symbol with
    one of the three signals, whose entry price, target and stop loss are
    all at least 49, hence positive. *)
Theorem generate_signal_on_mock (watchlist_storage : list WatchlistItem.t)
    (T : Services) (symbol : string) (st : State (mock_services watchlist_storage T)) :
  In symbol (symbols_of watchlist_storage) ->
  unit_draws (fst (world st)) ->
  exists v st',
    generate_signal (mock_services watchlist_storage T) (SignalRequest.mk symbol) st
    = (Ok v, st')
    /\ SignalResponse.symbol v = symbol
    /\ (SignalResponse.signal v = "BUY"%string
        \/ SignalResponse.signal v = "SELL"%string
        \/ SignalResponse.signal v = "HOLD"%string)
    /\ Forall (fun level => 49 <= level)
         [SignalResponse.entry_price v; SignalResponse.target v;
          SignalResponse.stop_loss v].
Proof.
  intros I U.
  destruct (mock_call_known watchlist_storage T symbol st I U) as [d [M K]].
  exists (verdict_for symbol d).
  unfold generate_signal, get_indicators, call_market_data.
  cbn [bind ret raise catch Monad_M Exc_M SignalRequest.symbol]. rewrite M.
  cbn [bind ret raise catch Monad_M Exc_M].
  eexists. split; [reflexivity |].
  destruct (snapshot_levels symbol d K) as [Y L].
  split; [exact Y |]. split; [apply verdict_for_signal | exact L].
Qed.

Lemma generate_signal_on_mock_witness :
  let S := mock_services DEFAULT_WATCHLIST (fixed_services oversold true true) in
  exists v st',
    generate_signal S (SignalRequest.mk "RELIANCE") (start S (midpoint_rng, tt)) = (Ok v, st')
    /\ SignalResponse.symbol v = "RELIANCE"%string
    /\ 49 <= SignalResponse.entry_price v.
Proof.
  intros S.
  destruct (generate_signal_on_mock DEFAULT_WATCHLIST
              (fixed_services oversold true true) "RELIANCE" (start S (midpoint_rng, tt)))
    as [v [st' [E [Y [_ L]]]]].
  - cbn. tauto.
  - intros n. cbn. lra.
  - exists v, st'. split; [exact E |]. split; [exact Y |].
    inversion L. assumption.
Defined.

Section ScanInvariant.

Variable S : Services.
Variable Inv : State S -> Prop.

(** As [clean_verdicts_all], for services that succeed in the states a
    property [Inv] holds of, the turns of the scan keeping [Inv]. *)
Lemma clean_verdicts_all_while (items : list WatchlistItem.t) :
  forall st : State S,
    Inv st ->
    (forall item st', In item items -> Inv st' ->
       all_services_succeed S item st' = true /\ Inv (after_symbol S item st')) ->
    map SignalResponse.symbol (clean_verdicts S items st) = symbols_of items.
Proof.
  induction items as [| item rest IH]; intros st I H; [reflexivity |].
  cbn [clean_verdicts symbols_of map].
  destruct (H item st (or_introl eq_refl) I) as [A I'].
  rewrite <- no_fault_services in A. unfold no_fault in A.
  destruct (scan_symbol S item st) as [[v | e] st1] eqn:E; [| discriminate A].
  destruct (scan_symbol_verdict S item st st1 v E) as [d [w [_ ->]]].
  cbn [app map verdict_for SignalResponse.symbol]. f_equal.
  apply IH; [exact I' |]. intros item' st' K. apply H. right. exact K.
Qed.

End ScanInvariant.

Section MockScan.

Variable watchlist_storage : list WatchlistItem.t.
Variable T : Services.
Hypothesis sheets_accept : forall log_data w, fst (sheets_log_trade T log_data w) = true.
Hypothesis notifier_accepts : forall alert_data w, fst (notify_send_alert T alert_data w) = true.

Let S := mock_services watchlist_storage T.

Lemma mock_services_succeed (item : WatchlistItem.t) (st : State S) :
  In item watchlist_storage ->
  unit_draws (fst (world st)) ->
  all_services_succeed S item st = true.
Proof.
  intros I U.
  assert (In (WatchlistItem.symbol item) (symbols_of watchlist_storage)) as I'
    by (unfold symbols_of; apply in_map; exact I).
  destruct (mock_call_known watchlist_storage T _ st I' U) as [d [M _]].
  unfold S in *. unfold all_services_succeed. rewrite M.
  destruct (String.eqb _ "HOLD"); [reflexivity |].
  set (w1 := (mkRng (draw (fst (world st))) (drawn (fst (world st)) + 66), snd (world st))).
  set (v := verdict_for (WatchlistItem.symbol item) d).
  change (sheets_log_trade (mock_services watchlist_storage T) (log_request_of v) w1)
    with (let '(ok, t) := sheets_log_trade T (log_request_of v) (snd w1) in
          (ok, (fst w1, t))).
  pose proof (sheets_accept (log_request_of v) (snd w1)) as A.
  destruct (sheets_log_trade T (log_request_of v) (snd w1)) as [ok t]. cbn [fst] in A. subst ok.
  change (notify_send_alert (mock_services watchlist_storage T) (alert_request_of v) (fst w1, t))
    with (let '(ok, t') := notify_send_alert T (alert_request_of v) t in
          (ok, (fst w1, t'))).
  pose proof (notifier_accepts (alert_request_of v) t) as B.
  destruct (notify_send_alert T (alert_request_of v) t) as [ok t']. exact B.
Qed.

End MockScan.

(** X23.  The service as wired, end to end: with the mock market data over
    its own watchlist, random numbers in [0, 1], and a spreadsheet and a
    notifier that accept what they are given, /scan-all returns one verdict
    per watchlist entry, in watchlist order. *)
Theorem scan_on_mock_complete (watchlist_storage : list WatchlistItem.t) (T : Services)
    (st : State (mock_services watchlist_storage T)) :
  (forall log_data w, fst (sheets_log_trade T log_data w) = true) ->
  (forall alert_data w, fst (notify_send_alert T alert_data w) = true) ->
  unit_draws (fst (world st)) ->
  exists results,
    fst (scan_all_symbols (mock_services watchlist_storage T) watchlist_storage st) =
      Ok (("Scanned " ++ Py.dec (Py.len watchlist_storage) ++ " symbols")%string, results)
    /\ map SignalResponse.symbol results = symbols_of watchlist_storage.
Proof.
  intros HS HN U. unfold scan_all_symbols. cbn [bind ret Monad_M].
  rewrite scan_loop_results. cbn [fst app].
  assert (map SignalResponse.symbol
            (clean_verdicts (mock_services watchlist_storage T) watchlist_storage st)
          = symbols_of watchlist_storage) as E.
  { apply (clean_verdicts_all_while (mock_services watchlist_storage T)
             (fun st' : State (mock_services watchlist_storage T) =>
                unit_draws (fst (world st'))));
      [exact U |].
    intros item st' I U'. split.
    - apply mock_services_succeed; assumption.
    - apply mock_turn_keeps_draws; [| exact U'].
      unfold symbols_of. apply in_map. exact I. }
  eexists. split; [| exact E].
  assert (Py.len (clean_verdicts (mock_services watchlist_storage T) watchlist_storage st)
          = Py.len watchlist_storage) as L.
  { unfold Py.len. f_equal.
    rewrite <- (length_map SignalResponse.symbol), E. unfold symbols_of. apply length_map. }
  rewrite L. reflexivity.
Qed.

Lemma scan_on_mock_complete_witness :
  let T := fixed_services oversold true true in
  let S := mock_services DEFAULT_WATCHLIST T in
  exists results,
    fst (scan_all_symbols S DEFAULT_WATCHLIST (start S (midpoint_rng, tt))) =
      Ok ("Scanned 5 symbols"%string, results)
    /\ map SignalResponse.symbol results
       = ["RELIANCE"; "TCS"; "INFY"; "HDFCBANK"; "ICICIBANK"]%string.
Proof.
  intros T S.
  apply (scan_on_mock_complete DEFAULT_WATCHLIST T (start S (midpoint_rng, tt))).
  - reflexivity.
  - reflexivity.
  - intros n. cbn. lra.
Defined.

(** ** GoogleSheetsLogger: credentials, the stored handle and the header *)

Section SheetsLogger.

Variable G : Gspread.

Ltac step :=
  cbn [bind ret Monad_pyresult GoogleSheetsLogger.Monad_Eff
       GoogleSheetsLogger.sheet GoogleSheetsLogger.outside
       GoogleSheetsLogger.calls GoogleSheetsLogger.lines fst snd negb].

(** [log_trade] on a logger that holds a worksheet: one call of
    [append_row], and its outcome is the answer. *)
Lemma log_trade_with_handle (log_data : LogRequest.t) (self : GoogleSheetsLogger.t G)
    (ws : Worksheet G) :
  GoogleSheetsLogger.sheet self = Some ws ->
  let row := GoogleSheetsLogger.row_of log_data
               (now_isoformat G (GoogleSheetsLogger.outside self)) in
  let calls := GoogleSheetsLogger.calls self ++ [AppendRow row] in
  GoogleSheetsLogger.log_trade G log_data self =
  match append_row G ws row (GoogleSheetsLogger.outside self) with
  | (Ok _, w) =>
      (true,
       GoogleSheetsLogger.mk (Some ws) w calls
         (GoogleSheetsLogger.lines self
          ++ [LogInfo ("Trade logged for " ++ LogRequest.symbol log_data)]))
  | (Raise e, w) =>
      (false,
       GoogleSheetsLogger.mk (Some ws) w calls
         (GoogleSheetsLogger.lines self ++ [LogError "Error logging trade" e]))
  end.
Proof.
  intros H. cbv zeta.
  unfold GoogleSheetsLogger.log_trade, GoogleSheetsLogger.try_except,
    GoogleSheetsLogger.append, GoogleSheetsLogger.library, GoogleSheetsLogger.log.
  rewrite H. step. rewrite H.
  destruct (append_row G ws _ (GoogleSheetsLogger.outside self)) as [[[] | e] w];
    step; reflexivity.
Qed.

(** [authenticate], case by case. *)
Lemma authenticate_cases (self : GoogleSheetsLogger.t G) :
  let out := GoogleSheetsLogger.outside self in
  let failed e := LogError "Google Sheets authentication error" e in
  GoogleSheetsLogger.authenticate G self =
  if negb (path_exists G out) then
    (false,
     GoogleSheetsLogger.mk (GoogleSheetsLogger.sheet self) out
       (GoogleSheetsLogger.calls self)
       (GoogleSheetsLogger.lines self
        ++ [LogWarning ("Google Sheets credentials file not found: "
                        ++ credentials_path G)]))
  else
    match open_sheet1 G out with
    | (Raise e, w1) =>
        (false,
         GoogleSheetsLogger.mk (GoogleSheetsLogger.sheet self) w1
           (GoogleSheetsLogger.calls self ++ [OpenSheet1])
           (GoogleSheetsLogger.lines self ++ [failed e]))
    | (Ok ws, w1) =>
        let opened := GoogleSheetsLogger.calls self ++ [OpenSheet1; RowValues 1] in
        match row_values G ws 1 w1 with
        | (Raise e, w2) =>
            (false,
             GoogleSheetsLogger.mk (Some ws) w2 opened
               (GoogleSheetsLogger.lines self ++ [failed e]))
        | (Ok (_ :: _), w2) =>
            (true,
             GoogleSheetsLogger.mk (Some ws) w2 opened
               (GoogleSheetsLogger.lines self
                ++ [LogInfo "Google Sheets authentication successful"]))
        | (Ok [], w2) =>
            let inserted := opened ++ [InsertRow GoogleSheetsLogger.headers 1] in
            match insert_row G ws GoogleSheetsLogger.headers 1 w2 with
            | (Raise e, w3) =>
                (false,
                 GoogleSheetsLogger.mk (Some ws) w3 inserted
                   (GoogleSheetsLogger.lines self ++ [failed e]))
            | (Ok _, w3) =>
                (true,
                 GoogleSheetsLogger.mk (Some ws) w3 inserted
                   (GoogleSheetsLogger.lines self
                    ++ [LogInfo "Google Sheets authentication successful"]))
            end
        end
    end.
Proof.
  cbv zeta.
  unfold GoogleSheetsLogger.authenticate, GoogleSheetsLogger.try_except,
    GoogleSheetsLogger.library, GoogleSheetsLogger.log, GoogleSheetsLogger.set_sheet.
  destruct (path_exists G (GoogleSheetsLogger.outside self)); step; [| reflexivity].
  destruct (open_sheet1 G (GoogleSheetsLogger.outside self)) as [[ws | e] w1]; step;
    [| reflexivity].
  destruct (row_values G ws 1 w1) as [[[| x first_row] | e] w2]; step;
    rewrite <- ?app_assoc; cbn [app]; try reflexivity.
  destruct (insert_row G ws GoogleSheetsLogger.headers 1 w2) as [[[] | e] w3]; step;
    rewrite <- ?app_assoc; reflexivity.
Qed.

End SheetsLogger.

Section SheetsLoggerCalls.

Variable G : Gspread.

Lemma log_trade_without_handle (log_data : LogRequest.t) (self : GoogleSheetsLogger.t G) :
  GoogleSheetsLogger.sheet self = None ->
  GoogleSheetsLogger.log_trade G log_data self =
  let '(authenticated, self') := GoogleSheetsLogger.authenticate G self in
  if authenticated then GoogleSheetsLogger.log_trade G log_data self'
  else (false, self').
Proof.
  intros H.
  unfold GoogleSheetsLogger.log_trade at 1, GoogleSheetsLogger.try_except.
  rewrite H.
  destruct (GoogleSheetsLogger.authenticate G self) as [[|] self'] eqn:E; cbn [negb];
    [| reflexivity].
  assert (exists ws, GoogleSheetsLogger.sheet self' = Some ws) as [ws K].
  { rewrite authenticate_cases in E. cbv zeta in E.
    destruct (path_exists G _); cbn [negb] in E; [| discriminate E].
    destruct (open_sheet1 G _) as [[ws | e] w1]; [| discriminate E].
    destruct (row_values G ws 1 w1) as [[[| x first_row] | e] w2]; [| | discriminate E].
    - destruct (insert_row G ws _ 1 w2) as [[[] | e] w3]; [| discriminate E].
      injection E as <-. eexists. reflexivity.
    - injection E as <-. eexists. reflexivity. }
  unfold GoogleSheetsLogger.log_trade, GoogleSheetsLogger.try_except. rewrite K.
  reflexivity.
Qed.

End SheetsLoggerCalls.

(** X24.  Without a credentials file, a logger that holds no worksheet
    answers [log_trade] with False and calls nothing of the spreadsheet
    libraries: the outside world is as before, no handle is stored, and a
    warning is logged. *)
Theorem log_trade_without_credentials (G : Gspread) (log_data : LogRequest.t)
    (self : GoogleSheetsLogger.t G) :
  GoogleSheetsLogger.sheet self = None ->
  path_exists G (GoogleSheetsLogger.outside self) = false ->
  GoogleSheetsLogger.log_trade G log_data self =
  (false,
   GoogleSheetsLogger.mk None (GoogleSheetsLogger.outside self)
     (GoogleSheetsLogger.calls self)
     (GoogleSheetsLogger.lines self
      ++ [LogWarning ("Google Sheets credentials file not found: "
                      ++ credentials_path G)])).
Proof.
  intros H P. rewrite (log_trade_without_handle G log_data self H).
  rewrite authenticate_cases. cbv zeta. rewrite P, H. reflexivity.
Qed.

Lemma log_trade_without_credentials_witness :
  fst (GoogleSheetsLogger.log_trade no_credentials buy_row (new_logger no_credentials tt))
    = false
  /\ GoogleSheetsLogger.calls
       (snd (GoogleSheetsLogger.log_trade no_credentials buy_row
               (new_logger no_credentials tt))) = [].
Proof.
  rewrite (log_trade_without_credentials no_credentials buy_row
             (new_logger no_credentials tt) eq_refl eq_refl).
  split; reflexivity.
Defined.

(** X25.  The worksheet handle is stored as soon as the spreadsheet is
    opened.  If reading the first row then raises, [authenticate] answers
    False, and so does the [log_trade] that called it, but the handle
    stays: the next [log_trade] authenticates no more and checks no header;
    its only call is [append_row], whose outcome is its answer. *)
Theorem log_trade_after_failed_header_check (G : Gspread) (first next : LogRequest.t)
    (self : GoogleSheetsLogger.t G) (ws : Worksheet G) (w1 w2 : Outside G) (e : pyexc) :
  GoogleSheetsLogger.sheet self = None ->
  path_exists G (GoogleSheetsLogger.outside self) = true ->
  open_sheet1 G (GoogleSheetsLogger.outside self) = (Ok ws, w1) ->
  row_values G ws 1 w1 = (Raise e, w2) ->
  let self1 := snd (GoogleSheetsLogger.log_trade G first self) in
  let self2 := snd (GoogleSheetsLogger.log_trade G next self1) in
  let row := GoogleSheetsLogger.row_of next (now_isoformat G w2) in
  fst (GoogleSheetsLogger.log_trade G first self) = false
  /\ GoogleSheetsLogger.sheet self1 = Some ws
  /\ GoogleSheetsLogger.calls self1
     = GoogleSheetsLogger.calls self ++ [OpenSheet1; RowValues 1]
  /\ GoogleSheetsLogger.calls self2 = GoogleSheetsLogger.calls self1 ++ [AppendRow row]
  /\ (fst (GoogleSheetsLogger.log_trade G next self1) = true
      <-> exists w3, append_row G ws row w2 = (Ok tt, w3)).
Proof.
  intros H P O R. cbv zeta.
  rewrite (log_trade_without_handle G first self H).
  rewrite authenticate_cases. cbv zeta. rewrite P, O, R. cbn [negb fst snd].
  split; [reflexivity |]. split; [reflexivity |]. split; [reflexivity |].
  match goal with
  | |- context [GoogleSheetsLogger.log_trade G next ?s] =>
      rewrite (log_trade_with_handle G next s ws eq_refl)
  end.
  cbv zeta.
  cbn [GoogleSheetsLogger.outside GoogleSheetsLogger.calls].
  destruct (append_row G ws _ w2) as [[[] | x] w3]; cbn [fst snd GoogleSheetsLogger.calls].
  - split; [reflexivity |]. split; [eauto | reflexivity].
  - split; [reflexivity |]. split; [discriminate |]. intros [w H']. discriminate H'.
Qed.

Lemma log_trade_after_failed_header_check_witness :
  let G := unreadable_header in
  let self1 := snd (GoogleSheetsLogger.log_trade G buy_row (new_logger G tt)) in
  fst (GoogleSheetsLogger.log_trade G buy_row (new_logger G tt)) = false
  /\ GoogleSheetsLogger.sheet self1 = Some tt
  /\ fst (GoogleSheetsLogger.log_trade G buy_row self1) = true.
Proof.
  intros G self1.
  destruct (log_trade_after_failed_header_check G buy_row buy_row (new_logger G tt)
              tt tt tt (ServiceError "APIError") eq_refl eq_refl eq_refl eq_refl)
    as [F [K [_ [_ T]]]].
  split; [exact F |]. split; [exact K |].
  apply T. exists tt. reflexivity.
Defined.

(** X26.  [log_trade] answers True only when its last call was an
    [append_row] of the row for the request, on the stored worksheet, and
    that call returned. *)
Theorem log_trade_true_only_after_append (G : Gspread) (log_data : LogRequest.t)
    (self : GoogleSheetsLogger.t G) :
  fst (GoogleSheetsLogger.log_trade G log_data self) = true ->
  let self' := snd (GoogleSheetsLogger.log_trade G log_data self) in
  exists ws before timestamp w,
    GoogleSheetsLogger.sheet self' = Some ws
    /\ GoogleSheetsLogger.calls self'
       = before ++ [AppendRow (GoogleSheetsLogger.row_of log_data timestamp)]
    /\ append_row G ws (GoogleSheetsLogger.row_of log_data timestamp) w
       = (Ok tt, GoogleSheetsLogger.outside self').
Proof.
  assert (forall s ws,
            GoogleSheetsLogger.sheet s = Some ws ->
            fst (GoogleSheetsLogger.log_trade G log_data s) = true ->
            let s' := snd (GoogleSheetsLogger.log_trade G log_data s) in
            exists ws before timestamp w,
              GoogleSheetsLogger.sheet s' = Some ws
              /\ GoogleSheetsLogger.calls s'
                 = before ++ [AppendRow (GoogleSheetsLogger.row_of log_data timestamp)]
              /\ append_row G ws (GoogleSheetsLogger.row_of log_data timestamp) w
                 = (Ok tt, GoogleSheetsLogger.outside s')) as Handle.
  { intros s ws K. rewrite (log_trade_with_handle G log_data s ws K). cbv zeta.
    destruct (append_row G ws _ (GoogleSheetsLogger.outside s)) as [[[] | x] w3] eqn:E;
      cbn [fst snd]; [| discriminate].
    intros _. exists ws, (GoogleSheetsLogger.calls s),
      (now_isoformat G (GoogleSheetsLogger.outside s)), (GoogleSheetsLogger.outside s).
    cbn [GoogleSheetsLogger.sheet GoogleSheetsLogger.calls GoogleSheetsLogger.outside].
    auto. }
  destruct (GoogleSheetsLogger.sheet self) as [ws |] eqn:K; [exact (Handle self ws K) |].
  rewrite (log_trade_without_handle G log_data self K).
  destruct (GoogleSheetsLogger.authenticate G self) as [[|] self1] eqn:E;
    [| cbn [fst]; discriminate].
  assert (exists ws, GoogleSheetsLogger.sheet self1 = Some ws) as [ws K1].
  { rewrite authenticate_cases in E. cbv zeta in E.
    destruct (path_exists G _); cbn [negb] in E; [| discriminate E].
    destruct (open_sheet1 G _) as [[ws | e] w1]; [| discriminate E].
    destruct (row_values G ws 1 w1) as [[[| x first_row] | e] w2]; [| | discriminate E].
    - destruct (insert_row G ws _ 1 w2) as [[[] | e] w3]; [| discriminate E].
      injection E as <-. eexists. reflexivity.
    - injection E as <-. eexists. reflexivity. }
  exact (Handle self1 ws K1).
Qed.

Lemma log_trade_true_only_after_append_witness :
  let G := empty_spreadsheet in
  let self' := snd (GoogleSheetsLogger.log_trade G buy_row (new_logger G tt)) in
  fst (GoogleSheetsLogger.log_trade G buy_row (new_logger G tt)) = true
  /\ exists ws before timestamp w,
       GoogleSheetsLogger.sheet self' = Some ws
       /\ GoogleSheetsLogger.calls self'
          = before ++ [AppendRow (GoogleSheetsLogger.row_of buy_row timestamp)]
       /\ append_row G ws (GoogleSheetsLogger.row_of buy_row timestamp) w
          = (Ok tt, GoogleSheetsLogger.outside self').
Proof.
  intros G self'. split; [reflexivity |].
  apply (log_trade_true_only_after_append G buy_row (new_logger G tt)). reflexivity.
Defined.

(** X27.  When [authenticate] answers True it has opened the spreadsheet,
    stored the handle and read the first row, and it has inserted the
    header row exactly when that first row was empty. *)
Theorem authenticate_writes_header_once (G : Gspread)
    (self self' : GoogleSheetsLogger.t G) :
  GoogleSheetsLogger.authenticate G self = (true, self') ->
  exists ws w1 first_row w2,
    open_sheet1 G (GoogleSheetsLogger.outside self) = (Ok ws, w1)
    /\ row_values G ws 1 w1 = (Ok first_row, w2)
    /\ GoogleSheetsLogger.sheet self' = Some ws
    /\ GoogleSheetsLogger.calls self'
       = GoogleSheetsLogger.calls self ++ [OpenSheet1; RowValues 1]
         ++ match first_row with
            | [] => [InsertRow GoogleSheetsLogger.headers 1]
            | _ :: _ => []
            end.
Proof.
  rewrite authenticate_cases. cbv zeta.
  destruct (path_exists G _); cbn [negb]; [| discriminate].
  destruct (open_sheet1 G _) as [[ws | e] w1]; [| discriminate].
  destruct (row_values G ws 1 w1) as [[[| x first_row] | e] w2] eqn:R; [| | discriminate].
  - destruct (insert_row G ws _ 1 w2) as [[[] | e] w3]; [| discriminate].
    intros E. injection E as <-. exists ws, w1, [], w2.
    cbn [GoogleSheetsLogger.sheet GoogleSheetsLogger.calls].
    rewrite <- app_assoc. auto.
  - intros E. injection E as <-. exists ws, w1, (x :: first_row), w2.
    cbn [GoogleSheetsLogger.sheet GoogleSheetsLogger.calls]. auto.
Qed.

Lemma authenticate_writes_header_once_witness :
  let G := empty_spreadsheet in
  exists self',
    GoogleSheetsLogger.authenticate G (new_logger G tt) = (true, self')
    /\ GoogleSheetsLogger.calls self'
       = [OpenSheet1; RowValues 1; InsertRow GoogleSheetsLogger.headers 1].
Proof.
  intros G.
  exists (snd (GoogleSheetsLogger.authenticate G (new_logger G tt))).
  split; [reflexivity |].
  destruct (authenticate_writes_header_once G (new_logger G tt)
              (snd (GoogleSheetsLogger.authenticate G (new_logger G tt))) eq_refl)
    as [ws [w1 [first_row [w2 [_ [R [_ C]]]]]]].
  rewrite C. cbn in R. injection R as <-. reflexivity.
Defined.
